(** * bonjour: the mDNS / DNS-SD responder

    A shallow embedding of the service records ([service.go]) and of the
    responder ([server.go]).  The repository carries the responder in two
    revisions: the multi-interface one (with [multicastRepitions]) is
    module [Multi], the single-interface one that follows the service
    records in [service.go] is module [Single].  What both revisions
    share word for word is defined once, before the two modules. *)

From Stdlib Require Import ZArith List String Ascii Bool Arith Lia.
Import ListNotations.

Local Open Scope list_scope.
Local Open Scope string_scope.
Local Open Scope Z_scope.

(* ------------------------------------------------------------------ *)
(** ** Strings *)

Definition isDot (c : ascii) : bool := Ascii.eqb c ".".

(** Removes one [.] at the front of [s], when there is one. *)
Definition stripLeadingDot (s : string) : string :=
  match s with
  | String c r => if isDot c then r else s
  | EmptyString => s
  end.

(** Removes one [.] at the end of [s], when there is one. *)
Fixpoint stripTrailingDot (s : string) : string :=
  match s with
  | EmptyString => EmptyString
  | String c EmptyString => if isDot c then EmptyString else s
  | String c r => String c (stripTrailingDot r)
  end.

(** Modelled from the spec: [trimDot] is a helper of the repository that
    is not among the sources at hand.  The specification (Name Utilities)
    says that it strips exactly one leading and one trailing [.] if
    present. *)
Definition trimDot (s : string) : string :=
  stripTrailingDot (stripLeadingDot s).

(** [strings.HasSuffix]. *)
Fixpoint HasSuffix (s suffix : string) : bool :=
  (s =? suffix)%string ||
  match s with
  | EmptyString => false
  | String _ r => HasSuffix r suffix
  end.

(** [strings.Split(s, ".")]: the pieces of [s] between its dots. *)
Fixpoint splitDots (s : string) : list string :=
  match s with
  | EmptyString => [EmptyString]
  | String c r =>
      if isDot c then EmptyString :: splitDots r
      else match splitDots r with
           | l :: ls => String c l :: ls
           | [] => [String c EmptyString]
           end
  end.

Definition nonEmpty (s : string) : bool := negb (s =? "")%string.

(** A dot-separated sequence of non-empty labels, as [_http._tcp]. *)
Definition cleanLabels (s : string) : bool := forallb nonEmpty (splitDots s).

(** Two dots in a row somewhere in [s]. *)
Fixpoint adjacentDots (s : string) : bool :=
  match s with
  | String c (String d _ as r) => (isDot c && isDot d) || adjacentDots r
  | _ => false
  end.

(** The labels of a name written with its terminal dot. *)
Definition labels (name : string) : list string := removelast (splitDots name).

Definition emptyLabel (name : string) : bool :=
  existsb (fun l => (l =? "")%string) (labels name).

Fixpoint allDots (s : string) : bool :=
  match s with
  | EmptyString => true
  | String c r => isDot c && allDots r
  end.

(** How many dots [s] ends with. *)
Fixpoint trailingDots (s : string) : nat :=
  match s with
  | EmptyString => O
  | String c r => if isDot c && allDots r then S (String.length r)
                  else trailingDots r
  end.

(** No adjacent dots, no empty label, exactly one terminal dot. *)
Definition wellFormedName (name : string) : bool :=
  negb (adjacentDots name) && negb (emptyLabel name)
  && Nat.eqb (trailingDots name) 1.

(* ------------------------------------------------------------------ *)
(** ** Service records ([service.go]) *)

Record ServiceRecord := mkServiceRecord {
  Instance : string;
  Service : string;
  Domain : string;
  serviceName : string;
  serviceInstanceName : string;
  serviceTypeName : string
}.

Definition set_serviceName (s : ServiceRecord) (v : string) : ServiceRecord :=
  mkServiceRecord (Instance s) (Service s) (Domain s)
                  v (serviceInstanceName s) (serviceTypeName s).

Definition set_serviceInstanceName (s : ServiceRecord) (v : string) : ServiceRecord :=
  mkServiceRecord (Instance s) (Service s) (Domain s)
                  (serviceName s) v (serviceTypeName s).

Definition set_serviceTypeName (s : ServiceRecord) (v : string) : ServiceRecord :=
  mkServiceRecord (Instance s) (Service s) (Domain s)
                  (serviceName s) (serviceInstanceName s) v.

(** The methods have a pointer receiver and fill the private fields on
    their first call: each returns its result and the record after it. *)
Definition ServiceName (s : ServiceRecord) : string * ServiceRecord :=
  let s :=
    if (serviceName s =? "")%string
    then set_serviceName s (trimDot (Service s) ++ "." ++ trimDot (Domain s) ++ ".")
    else s in
  (serviceName s, s).

Definition ServiceInstanceName (s : ServiceRecord) : string * ServiceRecord :=
  if (Instance s =? "")%string then ("", s)
  else
    let s :=
      if (serviceInstanceName s =? "")%string
      then
        let (sn, s1) := ServiceName s in
        set_serviceInstanceName s1 (trimDot (Instance s1) ++ "." ++ sn)
      else s in
    (serviceInstanceName s, s).

Definition ServiceTypeName (s : ServiceRecord) : string * ServiceRecord :=
  let s :=
    if (serviceTypeName s =? "")%string
    then
      let domain :=
        if (0 <? String.length (Domain s))%nat then trimDot (Domain s) else "local" in
      set_serviceTypeName s ("_services._dns-sd._udp." ++ domain ++ ".")
    else s in
  (serviceTypeName s, s).

Definition NewServiceRecord (instance service domain : string) : ServiceRecord :=
  mkServiceRecord instance service domain "" "" "".

(** [ServiceEntry] embeds a [ServiceRecord] (field [Rec]). *)
Definition IP := list Byte.byte.

Record ServiceEntry := mkServiceEntry {
  Rec : ServiceRecord;
  HostName : string;
  Port : Z;
  Text : list string;
  TTL : Z;
  AddrIPv4 : list IP;
  AddrIPv6 : list IP
}.

Definition NewServiceEntry (instance service domain : string) : ServiceEntry :=
  mkServiceEntry (NewServiceRecord instance service domain) "" 0 [] 0 [] [].

Definition set_Rec (e : ServiceEntry) (r : ServiceRecord) : ServiceEntry :=
  mkServiceEntry r (HostName e) (Port e) (Text e) (TTL e) (AddrIPv4 e) (AddrIPv6 e).

Definition set_Domain (e : ServiceEntry) (d : string) : ServiceEntry :=
  let r := Rec e in
  set_Rec e (mkServiceRecord (Instance r) (Service r) d (serviceName r)
                             (serviceInstanceName r) (serviceTypeName r)).

Definition set_HostName (e : ServiceEntry) (h : string) : ServiceEntry :=
  mkServiceEntry (Rec e) h (Port e) (Text e) (TTL e) (AddrIPv4 e) (AddrIPv6 e).

Definition set_Port (e : ServiceEntry) (p : Z) : ServiceEntry :=
  mkServiceEntry (Rec e) (HostName e) p (Text e) (TTL e) (AddrIPv4 e) (AddrIPv6 e).

Definition set_Text (e : ServiceEntry) (t : list string) : ServiceEntry :=
  mkServiceEntry (Rec e) (HostName e) (Port e) t (TTL e) (AddrIPv4 e) (AddrIPv6 e).

Definition set_AddrIPv4 (e : ServiceEntry) (l : list IP) : ServiceEntry :=
  mkServiceEntry (Rec e) (HostName e) (Port e) (Text e) (TTL e) l (AddrIPv6 e).

Definition set_AddrIPv6 (e : ServiceEntry) (l : list IP) : ServiceEntry :=
  mkServiceEntry (Rec e) (HostName e) (Port e) (Text e) (TTL e) (AddrIPv4 e) l.

(* ------------------------------------------------------------------ *)
(** ** Lookup parameters ([service.go]) *)

(** A channel, as far as [close] sees it. *)
Inductive Chan : Type :=
| NilChan
| OpenChan
| ClosedChan.

(** [close(c)]: closing a nil or a closed channel panics ([None]). *)
Definition close (c : Chan) : option Chan :=
  match c with
  | OpenChan => Some ClosedChan
  | NilChan | ClosedChan => None
  end.

(** [LookupParams] embeds a [ServiceRecord] (field [Params]); [once]
    tells whether its [sync.Once] has run. *)
Record LookupParams := mkLookupParams {
  Params : ServiceRecord;
  Entries : Chan;
  stopProbing : Chan;
  once : bool
}.

(** [make(chan struct{})] gives an open channel. *)
Definition NewLookupParams (instance service domain : string) (entries : Chan)
    : LookupParams :=
  mkLookupParams (NewServiceRecord instance service domain) entries OpenChan false.

(** [done()]: closes the channel of the subscriber. *)
Definition done (l : LookupParams) : option LookupParams :=
  match close (Entries l) with
  | Some c => Some (mkLookupParams (Params l) c (stopProbing l) (once l))
  | None => None
  end.

(** [disableProbing()]: [once.Do] runs the close the first time only. *)
Definition disableProbing (l : LookupParams) : option LookupParams :=
  if once l then Some l
  else
    match close (stopProbing l) with
    | Some c => Some (mkLookupParams (Params l) (Entries l) c true)
    | None => None
    end.

(* ------------------------------------------------------------------ *)
(** ** DNS messages (the codec's types, as far as the responder uses them) *)

Definition uint16 (x : Z) : Z := x mod 2 ^ 16.

Definition TypeA : Z := 1.
Definition TypePTR : Z := 12.
Definition TypeTXT : Z := 16.
Definition TypeAAAA : Z := 28.
Definition TypeSRV : Z := 33.
Definition ClassINET : Z := 1.

Record RR_Header := mkHdr {
  Name : string;
  Rrtype : Z;
  Class : Z;
  Ttl : Z
}.

Inductive RR : Type :=
| PTR (Hdr : RR_Header) (Ptr : string)
| SRV (Hdr : RR_Header) (Priority Weight SrvPort : Z) (Target : string)
| TXT (Hdr : RR_Header) (Txt : list string)
| A (Hdr : RR_Header) (ip : IP)
| AAAA (Hdr : RR_Header) (ip : IP).

Definition Header (rr : RR) : RR_Header :=
  match rr with
  | PTR h _ | SRV h _ _ _ _ | TXT h _ | A h _ | AAAA h _ => h
  end.

(** The cache-flush bit is the top bit of the 16-bit class. *)
Definition cacheFlush (rr : RR) : bool := Z.testbit (Class (Header rr)) 15.

Record Question := mkQuestion {
  Qname : string;
  Qtype : Z;
  Qclass : Z
}.

Record Msg := mkMsg {
  Id : Z;
  Response : bool;
  RecursionDesired : bool;
  Questions : list Question;
  Answer : list RR;
  Ns : list RR;
  Extra : list RR
}.

(** [dns.Msg{}] and [new(dns.Msg)]. *)
Definition emptyMsg : Msg := mkMsg 0 false false [] [] [] [].

Definition set_Response (m : Msg) (b : bool) : Msg :=
  mkMsg (Id m) b (RecursionDesired m) (Questions m) (Answer m) (Ns m) (Extra m).

Definition set_RecursionDesired (m : Msg) (b : bool) : Msg :=
  mkMsg (Id m) (Response m) b (Questions m) (Answer m) (Ns m) (Extra m).

Definition set_Answer (m : Msg) (l : list RR) : Msg :=
  mkMsg (Id m) (Response m) (RecursionDesired m) (Questions m) l (Ns m) (Extra m).

Definition set_Ns (m : Msg) (l : list RR) : Msg :=
  mkMsg (Id m) (Response m) (RecursionDesired m) (Questions m) (Answer m) l (Extra m).

Definition set_Extra (m : Msg) (l : list RR) : Msg :=
  mkMsg (Id m) (Response m) (RecursionDesired m) (Questions m) (Answer m) (Ns m) l.

(** [Msg.SetReply]: the reply takes the identifier and the first
    question of the request and is marked as a response. *)
Definition SetReply (m request : Msg) : Msg :=
  mkMsg (Id request) true (RecursionDesired request)
        (match Questions request with q :: _ => [q] | [] => Questions m end)
        (Answer m) (Ns m) (Extra m).

(** [Msg.SetQuestion]: a query with recursion desired and one question
    of class INET. *)
Definition SetQuestion (m : Msg) (id : Z) (z : string) (t : Z) : Msg :=
  mkMsg id (Response m) true [mkQuestion z t ClassINET]
        (Answer m) (Ns m) (Extra m).

(* ------------------------------------------------------------------ *)
(** ** Addresses and connections *)

Record UDPAddr := mkUDPAddr {
  addrIP : IP;
  addrPort : Z
}.

Definition isZeros (l : list Byte.byte) : bool :=
  forallb (Byte.eqb Byte.x00) l.

(** [IP.To4]: the 4-byte form of an IPv4 address, [None] for [nil]. *)
Definition To4 (ip : IP) : option IP :=
  if Nat.eqb (List.length ip) 4 then Some ip
  else if Nat.eqb (List.length ip) 16
          && isZeros (firstn 10 ip)
          && Byte.eqb (nth 10 ip Byte.x00) Byte.xff
          && Byte.eqb (nth 11 ip Byte.x00) Byte.xff
       then Some (skipn 12 ip)
       else None.

Definition v4InV6Prefix : list Byte.byte :=
  (repeat Byte.x00 10 ++ [Byte.xff; Byte.xff])%list.

(** [IP.To16]. *)
Definition To16 (ip : IP) : option IP :=
  if Nat.eqb (List.length ip) 4 then Some (v4InV6Prefix ++ ip)%list
  else if Nat.eqb (List.length ip) 16 then Some ip
  else None.

(** [net.IPv4(a, b, c, d)] is the 16-byte form. *)
Definition IPv4 (a b c d : Byte.byte) : IP :=
  (v4InV6Prefix ++ [a; b; c; d])%list.

Definition mdnsGroupIPv4 : IP := IPv4 Byte.xe0 Byte.x00 Byte.x00 Byte.xfb.

(** [net.ParseIP("ff02::fb")]. *)
Definition mdnsGroupIPv6 : IP :=
  ([Byte.xff; Byte.x02] ++ repeat Byte.x00 13 ++ [Byte.xfb])%list.

Definition ipv4Addr : UDPAddr := mkUDPAddr mdnsGroupIPv4 5353.
Definition ipv6Addr : UDPAddr := mkUDPAddr mdnsGroupIPv6 5353.

Definition localDomain : string := "local".

(** A socket; [net.UDPConn] is opaque to the responder. *)
Record UDPConn := mkUDPConn { fd : nat }.

Definition error := string.

Inductive result (A : Type) : Type :=
| Ok (a : A)
| Err (e : error).
Arguments Ok {A} a.
Arguments Err {A} e.

(** The type assertion to [net.IPNet] succeeds on the first kind only. *)
Inductive Addr : Type :=
| IPNet (ip : IP) (mask : list Byte.byte)
| IPAddr (ip : IP).

(** A [net.Interface] with what its [Addrs()] returns. *)
Record Interface := mkInterface {
  ifName : string;
  ifAddrs : result (list Addr)
}.

(* ------------------------------------------------------------------ *)
(** ** The world around the responder *)

(** What the responder takes from outside: the DNS codec, the sockets,
    the random source, the operating system. *)
Record Env := mkEnv {
  (** [Msg.Pack] *)
  Pack : Msg -> result (list Byte.byte);
  (** [Msg.Unpack]: the message as far as it was decoded, and the error *)
  Unpack : list Byte.byte -> Msg * option error;
  (** the identifier [SetQuestion] draws *)
  dnsId : Z;
  (** the error of the socket write issued after [n] recorded events *)
  writeErr : nat -> option error;
  (** the [k]-th number of the random source *)
  entropy : nat -> Z;
  (** [os.Hostname] *)
  Hostname : result string;
  (** [net.InterfaceAddrs] *)
  InterfaceAddrs : result (list Addr);
  (** [IP.IsLoopback] and [IP.IsGlobalUnicast] *)
  IsLoopback : IP -> bool;
  IsGlobalUnicast : IP -> bool;
  (** the repository's socket set-up, not among the sources at hand *)
  joinUdp4Multicast : list Interface -> result (option UDPConn);
  joinUdp6Multicast : list Interface -> result (option UDPConn)
}.

(** What the single-interface revision takes from the network besides:
    the parser of addresses, the interfaces of the system, the two
    wildcard sockets and the joining of a multicast group. *)
Record Net := mkNet {
  (** [net.ParseIP] *)
  ParseIP : string -> option IP;
  (** [net.Interfaces] *)
  Interfaces : result (list Interface);
  (** [IP.IsLinkLocalUnicast] *)
  IsLinkLocalUnicast : IP -> bool;
  (** [net.ListenUDP] on the IPv4 and on the IPv6 wildcard address *)
  ListenUDP4 : result UDPConn;
  ListenUDP6 : result UDPConn;
  (** [JoinGroup] of the packet connection of a socket, on an interface,
      for a group *)
  JoinGroup : option UDPConn -> Interface -> IP -> option error
}.

(** [strings.HasPrefix]. *)
Definition HasPrefix (s prefix : string) : bool := String.prefix prefix s.

(** What the responder does to the outside, in the order it does it. *)
Inductive Event : Type :=
| Log (text : list string)
| Write (c : UDPConn) (b : list Byte.byte) (to : UDPAddr) (err : option error)
| Close (c : UDPConn)
| Sleep (d : Z).

Record Server := mkServer {
  Service' : option ServiceEntry;
  ipv4conn : option UDPConn;
  ipv6conn : option UDPConn;
  shuttingDown : bool;
  ttl : Z
}.

Definition set_Service (s : Server) (e : option ServiceEntry) : Server :=
  mkServer e (ipv4conn s) (ipv6conn s) (shuttingDown s) (ttl s).

Definition set_shuttingDown (s : Server) (b : bool) : Server :=
  mkServer (Service' s) (ipv4conn s) (ipv6conn s) b (ttl s).

Definition set_ttl (s : Server) (t : Z) : Server :=
  mkServer (Service' s) (ipv4conn s) (ipv6conn s) (shuttingDown s) t.

Record State := mkState {
  this : Server;
  trace : list Event
}.

(** A method of [*Server]: reads the world, changes the server and
    appends events; [None] is a nil-pointer panic. *)
Definition M (A : Type) : Type := Env -> State -> option (A * State).

Definition ret {A} (a : A) : M A := fun _ st => Some (a, st).

Definition bind {A B} (m : M A) (k : A -> M B) : M B :=
  fun env st =>
    match m env st with
    | Some (a, st') => k a env st'
    | None => None
    end.

Declare Scope go_scope.
Delimit Scope go_scope with go.
Notation "x <- m ;; k" := (bind m (fun x => k))
  (at level 61, m at next level, right associativity) : go_scope.
Notation "m ;; k" := (bind m (fun _ => k))
  (at level 61, right associativity) : go_scope.
Local Open Scope go_scope.

(** Reads of the world, of a field of the server ([s.ttl]) and of a
    field of its service ([s.Service.Port]; nil panics). *)
Definition asks {A} (f : Env -> A) : M A := fun env st => Some (f env, st).

Definition fld {A} (f : Server -> A) : M A := fun _ st => Some (f (this st), st).

Definition svc {A} (f : ServiceEntry -> A) : M A :=
  fun _ st =>
    match Service' (this st) with
    | Some e => Some (f e, st)
    | None => None
    end.

(** Assignments to a field of the server and of its service. *)
Definition assign (upd : Server -> Server) : M unit :=
  fun _ st => Some (tt, mkState (upd (this st)) (trace st)).

Definition assignService (upd : ServiceEntry -> ServiceEntry) : M unit :=
  fun _ st =>
    match Service' (this st) with
    | Some e => Some (tt, mkState (set_Service (this st) (Some (upd e))) (trace st))
    | None => None
    end.

(** [s.Service.m()] for a method [m] of the embedded record. *)
Definition call (m : ServiceRecord -> string * ServiceRecord) : M string :=
  fun _ st =>
    match Service' (this st) with
    | Some e =>
        let (v, r) := m (Rec e) in
        Some (v, mkState (set_Service (this st) (Some (set_Rec e r))) (trace st))
    | None => None
    end.

Definition emit (e : Event) : M unit :=
  fun _ st => Some (tt, mkState (this st) (trace st ++ [e])%list).

Fixpoint forEach {X S : Type} (l : list X) (acc : S) (body : S -> X -> M S) : M S :=
  match l with
  | [] => ret acc
  | x :: l' => acc' <- body acc x ;; forEach l' acc' body
  end.

Definition log_Println (text : list string) : M unit := emit (Log text).
Definition log_Printf (format : string) (args : list string) : M unit :=
  emit (Log (format :: args)).
Definition time_Sleep (d : Z) : M unit := emit (Sleep d).

(** [c.WriteTo] and [c.WriteToUDP] on a socket: the write is recorded
    with the error the world answers. *)
Definition WriteTo (c : UDPConn) (b : list Byte.byte) (to : UDPAddr) : M (option error) :=
  fun env st =>
    let err := writeErr env (List.length (trace st)) in
    Some (err, mkState (this st) (trace st ++ [Write c b to err])%list).

(** A method of a nil [*net.UDPConn] returns [EINVAL] and writes nothing. *)
Definition WriteToUDP (c : option UDPConn) (b : list Byte.byte) (to : UDPAddr) : M (option error) :=
  match c with
  | Some c => WriteTo c b to
  | None => ret (Some "invalid argument")
  end.

Definition closeConn (c : option UDPConn) : M unit :=
  match c with
  | Some c => emit (Close c)
  | None => ret tt
  end.

(** [time.Duration] is a signed 64-bit count of nanoseconds. *)
Definition int64 (x : Z) : Z := (x + 2 ^ 63) mod 2 ^ 64 - 2 ^ 63.
Definition Millisecond : Z := 1000000.
Definition Second : Z := 1000000000.

(** [randomizer.Intn(n)] as the [k]-th draw: a number in [0, n). *)
Definition Intn (env : Env) (k : nat) (n : Z) : Z := entropy env k mod n.

Definition ErrTruncated : error := "dns: failed to unpack truncated message".

(** What a socket read returns. *)
Inductive ReadResult : Type :=
| ReadOk (packet : list Byte.byte) (from : UDPAddr)
| ReadErr (e : error).

(* ------------------------------------------------------------------ *)
(** ** The responder: what both revisions of [server.go] share *)

(** [append(resp.Answer, rrs...)] and [append(resp.Extra, rrs...)],
    stored back into the message. *)
Definition appendAnswer (resp : Msg) (rrs : list RR) : Msg :=
  set_Answer resp (Answer resp ++ rrs)%list.

Definition appendExtra (resp : Msg) (rrs : list RR) : Msg :=
  set_Extra resp (Extra resp ++ rrs)%list.


Definition composeBrowsingAnswers (resp : Msg) (ttl : Z) : M Msg :=
  name <- call ServiceName ;;
  target <- call ServiceInstanceName ;;
  let ptr := PTR (mkHdr name TypePTR ClassINET ttl) target in
  let resp := appendAnswer resp [ptr] in
  name <- call ServiceInstanceName ;;
  text <- svc Text ;;
  let txt := TXT (mkHdr name TypeTXT ClassINET ttl) text in
  name <- call ServiceInstanceName ;;
  port <- svc Port ;;
  host <- svc HostName ;;
  let srv := SRV (mkHdr name TypeSRV ClassINET ttl) 0 0 (uint16 port) host in
  let resp := appendExtra resp [srv; txt] in
  addrs <- svc AddrIPv4 ;;
  resp <- forEach addrs resp (fun resp ipv4 =>
    host <- svc HostName ;;
    let a := A (mkHdr host TypeA ClassINET ttl) ipv4 in
    ret (appendExtra resp [a])) ;;
  addrs <- svc AddrIPv6 ;;
  forEach addrs resp (fun resp ipv6 =>
    host <- svc HostName ;;
    let aaaa := AAAA (mkHdr host TypeAAAA ClassINET ttl) ipv6 in
    ret (appendExtra resp [aaaa])).

(** The method [serviceTypeName] of the server. *)
Definition serviceTypeName' (resp : Msg) (ttl : Z) : M Msg :=
  name <- call ServiceTypeName ;;
  target <- call ServiceName ;;
  let dnssd := PTR (mkHdr name TypePTR ClassINET ttl) target in
  ret (appendAnswer resp [dnssd]).

(** The results of the two writes are dropped: only a failure of [Pack]
    is returned. *)
Definition multicastResponse (msg : Msg) : M (option error) :=
  packed <- asks (fun env => Pack env msg) ;;
  match packed with
  | Err err => log_Println ["Failed to pack message!"] ;; ret (Some err)
  | Ok buf =>
      c <- fld ipv4conn ;;
      match c with
      | Some c => _ <- WriteTo c buf ipv4Addr ;; ret tt
      | None => ret tt
      end ;;
      c <- fld ipv6conn ;;
      match c with
      | Some c => _ <- WriteTo c buf ipv6Addr ;; ret tt
      | None => ret tt
      end ;;
      ret None
  end.

Definition unicastResponse (resp : Msg) (from : UDPAddr) : M (option error) :=
  packed <- asks (fun env => Pack env resp) ;;
  match packed with
  | Err err => ret (Some err)
  | Ok buf =>
      match To4 (addrIP from) with
      | Some _ => c <- fld ipv4conn ;; WriteToUDP c buf from
      | None => c <- fld ipv6conn ;; WriteToUDP c buf from
      end
  end.

Definition isUnicastQuestion (q : Question) : bool :=
  negb (Z.land (Qclass q) (Z.shiftl 1 15) =? 0).

Definition announceText : M unit :=
  let resp := set_Response emptyMsg true in
  name <- call ServiceInstanceName ;;
  t <- fld ttl ;;
  text <- svc Text ;;
  let txt := TXT (mkHdr name TypeTXT (Z.lor ClassINET (Z.shiftl 1 15)) t) text in
  let resp := set_Answer resp [txt] in
  _ <- multicastResponse resp ;;
  ret tt.

Definition SetText (text : list string) : M unit :=
  assignService (fun e => set_Text e text) ;;
  announceText.

(** The probe of [probe()], built before its first loop. *)
Definition probeQuery : M Msg :=
  name <- call ServiceInstanceName ;;
  id <- asks dnsId ;;
  let q := SetQuestion emptyMsg id name TypePTR in
  let q := set_RecursionDesired q false in
  name <- call ServiceInstanceName ;;
  t <- fld ttl ;;
  port <- svc Port ;;
  host <- svc HostName ;;
  let srv := SRV (mkHdr name TypeSRV ClassINET t) 0 0 (uint16 port) host in
  name <- call ServiceInstanceName ;;
  t <- fld ttl ;;
  text <- svc Text ;;
  let txt := TXT (mkHdr name TypeTXT ClassINET t) text in
  ret (set_Ns q [srv; txt]).

(** The first loop of [probe()]: [n] sends of the probe, a random pause
    after each; [k] counts the draws from the random source. *)
Definition probeLoop (n : nat) (q : Msg) : M unit :=
  _ <- forEach (seq 0 n) O (fun k _ =>
    err <- multicastResponse q ;;
    match err with
    | Some e => log_Println ["[ERR] bonjour: failed to send probe:"; e]
    | None => ret tt
    end ;;
    r <- asks (fun env => Intn env k 250) ;;
    time_Sleep (int64 (r * Millisecond)) ;;
    ret (S k)) ;;
  ret tt.

(** The second loop of [probe()]: [n] sends of the announcement, the
    pause doubling from one second. *)
Definition announceLoop (n : nat) (resp : Msg) : M unit :=
  _ <- forEach (seq 0 n) (int64 (1 * Second)) (fun timeout _ =>
    err <- multicastResponse resp ;;
    match err with
    | Some e => log_Println ["[ERR] bonjour: failed to send announcement:"; e]
    | None => ret tt
    end ;;
    time_Sleep timeout ;;
    ret (int64 (timeout * 2))) ;;
  ret tt.

(** [shutdown], given the revision's [unregister]; the lock is held for
    the whole call, which is modelled as one step. *)
Definition shutdownWith (unregister : M (option error)) : M (option error) :=
  down <- fld shuttingDown ;;
  if down then ret None
  else
    assign (fun s => set_shuttingDown s true) ;;
    _ <- unregister ;;
    c <- fld ipv4conn ;;
    closeConn c ;;
    c <- fld ipv6conn ;;
    closeConn c ;;
    ret None.

(** The reply [handleQuery] prepares for each question. *)
Definition newReply (query : Msg) : Msg :=
  let resp := emptyMsg in
  let resp := SetReply resp query in
  let resp := set_Answer resp [] in
  set_Extra resp [].

(** The body of the loop of [handleQuery] for one question, given the
    revision's [handleQuestion]; [err] is the variable the loop shares
    with what follows it. *)
Definition answerQuestion (handleQuestion : Question -> Msg -> M (Msg * option error))
    (query : Msg) (from : UDPAddr) (err : option error) (q : Question) : M (option error) :=
  let resp := newReply query in
  r <- handleQuestion q resp ;;
  let (resp, err) := r in
  match err with
  | Some e =>
      log_Printf "[ERR] bonjour: failed to handle question %v: %v" [Qname q; e] ;;
      ret err
  | None =>
      if (0 <? List.length (Answer resp))%nat then
        if isUnicastQuestion q then
          e <- unicastResponse resp from ;;
          match e with Some _ => ret e | None => ret err end
        else
          e <- multicastResponse resp ;;
          match e with Some _ => ret e | None => ret err end
      else ret err
  end.

Definition handleQueryWith (handleQuestion : Question -> Msg -> M (Msg * option error))
    (query : Msg) (from : UDPAddr) : M (option error) :=
  if (0 <? List.length (Answer query))%nat then ret None
  else if (0 <? List.length (Ns query))%nat then ret None
  else
    let err := None in
    if (0 <? List.length (Questions query))%nat then
      forEach (Questions query) err (answerQuestion handleQuestion query from)
    else ret err.

(** The loop of [recv] over what the socket delivers. *)
Fixpoint recvLoop (parsePacket : list Byte.byte -> UDPAddr -> M (option error))
    (reads : list ReadResult) : M unit :=
  down <- fld shuttingDown ;;
  if down then ret tt
  else
    match reads with
    | [] => ret tt
    | ReadErr _ :: rest => recvLoop parsePacket rest
    | ReadOk packet from :: rest =>
        err <- parsePacket packet from ;;
        match err with
        | Some e => log_Printf "[ERR] bonjour: Failed to handle query: %v" [e]
        | None => ret tt
        end ;;
        recvLoop parsePacket rest
    end.

Definition recvWith (parsePacket : list Byte.byte -> UDPAddr -> M (option error))
    (c : option UDPConn) (reads : list ReadResult) : M unit :=
  match c with
  | None => ret tt
  | Some _ => recvLoop parsePacket reads
  end.

(* ------------------------------------------------------------------ *)
(** ** The multi-interface revision of [server.go] *)

Module Multi.

(** Number of multicast responses sent for a query message. *)
Definition multicastRepitions : Z := 2.

Definition newServer (env : Env) (ifaces : list Interface) : result Server :=
  match joinUdp4Multicast env ifaces with
  | Err err => Err err
  | Ok ipv4conn =>
      match joinUdp6Multicast env ifaces with
      | Err err => Err err
      | Ok ipv6conn => Ok (mkServer None ipv4conn ipv6conn false 3200)
      end
  end.

(** The loop of [Register] over the addresses found: what it adds to
    the entry and what it logs. *)
Definition selectAddr (env : Env) (acc : ServiceEntry * list Event) (address : Addr)
    : ServiceEntry * list Event :=
  let (entry, logs) := acc in
  match address with
  | IPNet ip _ =>
      if negb (IsLoopback env ip) then
        match To4 ip with
        | Some _ => (set_AddrIPv4 entry (AddrIPv4 entry ++ [ip])%list, logs)
        | None =>
            match To16 ip with
            | Some _ =>
                if IsGlobalUnicast env ip
                then (set_AddrIPv6 entry (AddrIPv6 entry ++ [ip])%list,
                      (logs ++ [Log ["Added global IPv6: %v\n"]])%list)
                else (entry, (logs ++ [Log ["Skipped IPv6: %v\n"]])%list)
            | None => (entry, logs)
            end
        end
      else (entry, logs)
  | IPAddr _ => (entry, logs)
  end.

(** [Register] returns the server, or an error, and what it logged; the
    two tasks it starts ([mainloop] and [probe]) run after it. *)
Definition Register (env : Env) (instance service domain : string) (port : Z)
    (text : list string) (ifaces : list Interface) (ttl : Z)
    : result Server * list Event :=
  let entry := NewServiceEntry instance service domain in
  let entry := set_Port entry port in
  let entry := set_Text entry text in
  if (Instance (Rec entry) =? "")%string then (Err "Missing service instance name", [])
  else if (Service (Rec entry) =? "")%string then (Err "Missing service name", [])
  else
    let entry :=
      if (Domain (Rec entry) =? "")%string then set_Domain entry localDomain
      else entry in
    if Port entry =? 0 then (Err "Missing port", [])
    else
      match (if (HostName entry =? "")%string then Hostname env
             else Ok (HostName entry)) with
      | Err _ => (Err "Could not determine host", [])
      | Ok h =>
          let entry := set_HostName entry h in
          let entry := set_HostName entry (trimDot (HostName entry) ++ ".") in
          let entry :=
            if negb (HasSuffix (trimDot (HostName entry)) (Domain (Rec entry)))
            then set_HostName entry
                   (trimDot (HostName entry) ++ "." ++ trimDot (Domain (Rec entry)) ++ ".")
            else entry in
          let iaddrs :=
            fold_left (fun iaddrs ifi =>
                         match ifAddrs ifi with
                         | Err _ => iaddrs
                         | Ok addr => (iaddrs ++ addr)%list
                         end) ifaces [] in
          match (if Nat.eqb (List.length iaddrs) 0 then InterfaceAddrs env
                 else Ok iaddrs) with
          | Err err => (Err err, [])
          | Ok iaddrs =>
              let (entry, logs) := fold_left (selectAddr env) iaddrs (entry, []) in
              match AddrIPv4 entry, AddrIPv6 entry with
              | [], [] => (Err "Could not determine host IP addresses", logs)
              | _, _ =>
                  match newServer env ifaces with
                  | Err err => (Err err, logs)
                  | Ok s =>
                      let s := if negb (ttl =? 0) then set_ttl s ttl else s in
                      let s := set_Service s (Some entry) in
                      (Ok s, logs)
                  end
              end
          end
      end.

Definition composeLookupAnswers (resp : Msg) (ttl : Z) : M Msg :=
  let cache_flush := uint16 (Z.shiftl 1 15) in
  name <- call ServiceName ;;
  target <- call ServiceInstanceName ;;
  let ptr := PTR (mkHdr name TypePTR ClassINET ttl) target in
  name <- call ServiceInstanceName ;;
  port <- svc Port ;;
  host <- svc HostName ;;
  let srv := SRV (mkHdr name TypeSRV (Z.lor ClassINET cache_flush) ttl)
                 0 0 (uint16 port) host in
  name <- call ServiceInstanceName ;;
  text <- svc Text ;;
  let txt := TXT (mkHdr name TypeTXT (Z.lor ClassINET cache_flush) ttl) text in
  name <- call ServiceTypeName ;;
  target <- call ServiceName ;;
  let dnssd := PTR (mkHdr name TypePTR ClassINET ttl) target in
  let resp := appendAnswer resp [srv; txt; ptr; dnssd] in
  addrs <- svc AddrIPv4 ;;
  resp <- forEach addrs resp (fun resp ipv4 =>
    host <- svc HostName ;;
    let a := A (mkHdr host TypeA (Z.lor ClassINET cache_flush) ttl) ipv4 in
    ret (appendAnswer resp [a])) ;;
  addrs <- svc AddrIPv6 ;;
  forEach addrs resp (fun resp ipv6 =>
    host <- svc HostName ;;
    let aaaa := AAAA (mkHdr host TypeAAAA (Z.lor ClassINET cache_flush) ttl) ipv6 in
    ret (appendAnswer resp [aaaa])).

Definition handleQuestion (q : Question) (resp : Msg) : M (Msg * option error) :=
  service <- fld Service' ;;
  match service with
  | None => ret (resp, None)
  | Some _ =>
      name <- call ServiceName ;;
      if (Qname q =? name)%string then
        t <- fld ttl ;;
        resp <- composeBrowsingAnswers resp t ;; ret (resp, None)
      else
        name <- call ServiceInstanceName ;;
        if (Qname q =? name)%string then
          t <- fld ttl ;;
          resp <- composeLookupAnswers resp t ;; ret (resp, None)
        else
          host <- svc HostName ;;
          if (Qname q =? host)%string then
            t <- fld ttl ;;
            resp <- composeLookupAnswers resp t ;; ret (resp, None)
        else
          name <- call ServiceTypeName ;;
          if (Qname q =? name)%string then
            t <- fld ttl ;;
            resp <- serviceTypeName' resp t ;; ret (resp, None)
          else ret (resp, None)
  end.

Definition handleQuery : Msg -> UDPAddr -> M (option error) :=
  handleQueryWith handleQuestion.

Definition parsePacket (packet : list Byte.byte) (from : UDPAddr) : M (option error) :=
  r <- asks (fun env => Unpack env packet) ;;
  let (msg, err) := r in
  match err with
  | Some e =>
      if negb (e =? ErrTruncated)%string then
        (if (e =? "dns: NSEC block too long")%string then ret tt
         else log_Printf "[ERR] bonjour: Failed to unpack packet: %v" [e]) ;;
        ret None
      else handleQuery msg from
  | None => handleQuery msg from
  end.

Definition recv : option UDPConn -> list ReadResult -> M unit :=
  recvWith parsePacket.

(** The goodbye: the lookup answers with a TTL of 0. *)
Definition goodbye : M Msg :=
  let resp := set_Response emptyMsg true in
  let resp := set_Answer resp [] in
  let resp := set_Extra resp [] in
  composeLookupAnswers resp 0.

Definition unregister : M (option error) :=
  resp <- goodbye ;;
  multicastResponse resp.

Definition shutdown : M (option error) := shutdownWith unregister.

Definition Shutdown : M unit := _ <- shutdown ;; ret tt.

(** The announcement of [probe()], built between its two loops. *)
Definition announcement : M Msg :=
  let resp := set_Response emptyMsg true in
  let resp := set_Answer resp [] in
  let resp := set_Extra resp [] in
  t <- fld ttl ;;
  composeLookupAnswers resp t.

Definition probe : M unit :=
  q <- probeQuery ;;
  probeLoop (Z.to_nat multicastRepitions) q ;;
  resp <- announcement ;;
  announceLoop (Z.to_nat multicastRepitions) resp.

End Multi.

(* ------------------------------------------------------------------ *)
(** ** The single-interface revision of [server.go], the one that
       follows the service records in [service.go] *)

Module Single.

(** [newServer] returns the server, or an error, and what it logged. *)
Definition newServer (net : Net) (iface : option Interface)
    : result Server * list Event :=
  let (ipv4conn, logs4) :=
    match ListenUDP4 net with
    | Ok c => (Some c, [])
    | Err err => (None, [Log ["[ERR] bonjour: Failed to bind to udp4 port: %v"; err]])
    end in
  let (ipv6conn, logs6) :=
    match ListenUDP6 net with
    | Ok c => (Some c, [])
    | Err err => (None, [Log ["[ERR] bonjour: Failed to bind to udp6 port: %v"; err]])
    end in
  let logs := (logs4 ++ logs6)%list in
  let s := mkServer None ipv4conn ipv6conn false 3200 in
  match ipv4conn, ipv6conn with
  | None, None => (Err "[ERR] bonjour: Failed to bind to any udp port!", logs)
  | _, _ =>
      match iface with
      | Some iface =>
          match JoinGroup net ipv4conn iface mdnsGroupIPv4 with
          | Some err => (Err err, logs)
          | None =>
              match JoinGroup net ipv6conn iface mdnsGroupIPv6 with
              | Some err => (Err err, logs)
              | None => (Ok s, logs)
              end
          end
      | None =>
          match Interfaces net with
          | Err err => (Err err, logs)
          | Ok ifaces =>
              let (errCount1, errCount2) :=
                fold_left
                  (fun (counts : nat * nat) iface =>
                     let (errCount1, errCount2) := counts in
                     let errCount1 :=
                       match JoinGroup net ipv4conn iface mdnsGroupIPv4 with
                       | Some _ => S errCount1
                       | None => errCount1
                       end in
                     let errCount2 :=
                       match JoinGroup net ipv6conn iface mdnsGroupIPv6 with
                       | Some _ => S errCount2
                       | None => errCount2
                       end in
                     (errCount1, errCount2))
                  ifaces (O, O) in
              if Nat.eqb (List.length ifaces) errCount1
                 && Nat.eqb (List.length ifaces) errCount2
              then (Err "Failed to join multicast group on all interfaces!", logs)
              else (Ok s, logs)
          end
      end
  end.

(** The inner loop of [Register], over the addresses of one interface. *)
Definition selectAddr (env : Env) (net : Net) (entry : ServiceEntry) (address : Addr)
    : ServiceEntry :=
  match address with
  | IPNet ip _ =>
      if negb (IsLoopback env ip) && negb (IsLinkLocalUnicast net ip) then
        match To4 ip with
        | Some _ => set_AddrIPv4 entry (AddrIPv4 entry ++ [ip])%list
        | None =>
            match To16 ip with
            | Some _ => set_AddrIPv6 entry (AddrIPv6 entry ++ [ip])%list
            | None => entry
            end
        end
      else entry
  | IPAddr _ => entry
  end.

(** The outer loop of [Register], over the interfaces: it stops at the
    first interface whose addresses cannot be read. *)
Fixpoint selectAddrs (env : Env) (net : Net) (intfs : list Interface)
    (entry : ServiceEntry) : result ServiceEntry :=
  match intfs with
  | [] => Ok entry
  | intf :: rest =>
      if HasPrefix (ifName intf) "docker" then selectAddrs env net rest entry
      else
        match ifAddrs intf with
        | Err err => Err err
        | Ok addrs => selectAddrs env net rest (fold_left (selectAddr env net) addrs entry)
        end
  end.

(** [Register] returns the server, or an error, and what it logged; the
    two tasks it starts ([mainloop] and [probe]) run after it. *)
Definition Register (env : Env) (net : Net) (instance service domain : string)
    (port : Z) (text : list string) (iface : option Interface) (ttl : Z)
    : result Server * list Event :=
  let entry := NewServiceEntry instance service domain in
  let entry := set_Port entry port in
  let entry := set_Text entry text in
  if (Instance (Rec entry) =? "")%string then (Err "Missing service instance name", [])
  else if (Service (Rec entry) =? "")%string then (Err "Missing service name", [])
  else
    let entry :=
      if (Domain (Rec entry) =? "")%string then set_Domain entry localDomain
      else entry in
    if Port entry =? 0 then (Err "Missing port", [])
    else
      match (if (HostName entry =? "")%string then Hostname env
             else Ok (HostName entry)) with
      | Err _ => (Err "Could not determine host", [])
      | Ok h =>
          let entry := set_HostName entry h in
          let entry := set_HostName entry (trimDot (HostName entry) ++ ".") in
          let entry :=
            if negb (HasSuffix (trimDot (HostName entry)) (Domain (Rec entry)))
            then set_HostName entry
                   (trimDot (HostName entry) ++ "." ++ trimDot (Domain (Rec entry)) ++ ".")
            else entry in
          match Interfaces net with
          | Err err => (Err err, [])
          | Ok intfs =>
              match selectAddrs env net intfs entry with
              | Err err => (Err err, [])
              | Ok entry =>
                  match AddrIPv4 entry, AddrIPv6 entry with
                  | [], [] => (Err "Could not determine host IP addresses", [])
                  | _, _ =>
                      match newServer net iface with
                      | (Err err, logs) => (Err err, logs)
                      | (Ok s, logs) =>
                          let s := if negb (ttl =? 0) then set_ttl s ttl else s in
                          let s := set_Service s (Some entry) in
                          (Ok s, logs)
                      end
                  end
              end
          end
      end.

(** The loop of [RegisterProxy] over the addresses given: it stops at
    the first that does not parse.  (The text of the second error ends
    with the Go syntax of the address, which is left out.) *)
Fixpoint parseAddrs (net : Net) (ips : list string) (entry : ServiceEntry)
    : result ServiceEntry :=
  match ips with
  | [] => Ok entry
  | ip :: rest =>
      match ParseIP net ip with
      | None => Err ("Failed to parse given IP: " ++ ip)
      | Some ipAddr =>
          match To4 ipAddr with
          | Some _ =>
              parseAddrs net rest (set_AddrIPv4 entry (AddrIPv4 entry ++ [ipAddr])%list)
          | None =>
              match To16 ipAddr with
              | Some _ =>
                  parseAddrs net rest
                    (set_AddrIPv6 entry (AddrIPv6 entry ++ [ipAddr])%list)
              | None => Err "The IP is neither IPv4 nor IPv6: "
              end
          end
      end
  end.

Definition RegisterProxy (net : Net) (instance service domain : string) (port : Z)
    (host : string) (ips : list string) (text : list string)
    (iface : option Interface) (ttl : Z) : result Server * list Event :=
  let entry := NewServiceEntry instance service domain in
  let entry := set_Port entry port in
  let entry := set_Text entry text in
  let entry := set_HostName entry host in
  if (Instance (Rec entry) =? "")%string then (Err "Missing service instance name", [])
  else if (Service (Rec entry) =? "")%string then (Err "Missing service name", [])
  else if (HostName entry =? "")%string then (Err "Missing host name", [])
  else
    let entry :=
      if (Domain (Rec entry) =? "")%string then set_Domain entry localDomain
      else entry in
    if Port entry =? 0 then (Err "Missing port", [])
    else
      let entry :=
        if negb (HasSuffix (trimDot (HostName entry)) (Domain (Rec entry)))
        then set_HostName entry
               (trimDot (HostName entry) ++ "." ++ trimDot (Domain (Rec entry)) ++ ".")
        else entry in
      match parseAddrs net ips entry with
      | Err err => (Err err, [])
      | Ok entry =>
          match newServer net iface with
          | (Err err, logs) => (Err err, logs)
          | (Ok s, logs) =>
              let s := if negb (ttl =? 0) then set_ttl s ttl else s in
              let s := set_Service s (Some entry) in
              (Ok s, logs)
          end
      end.

Definition composeLookupAnswers (resp : Msg) (ttl : Z) : M Msg :=
  let cache_flush := uint16 (Z.shiftl 1 15) in
  name <- call ServiceName ;;
  target <- call ServiceInstanceName ;;
  let ptr := PTR (mkHdr name TypePTR ClassINET ttl) target in
  name <- call ServiceInstanceName ;;
  port <- svc Port ;;
  host <- svc HostName ;;
  let srv := SRV (mkHdr name TypeSRV (Z.lor ClassINET cache_flush) ttl)
                 0 0 (uint16 port) host in
  name <- call ServiceInstanceName ;;
  text <- svc Text ;;
  let txt := TXT (mkHdr name TypeTXT (Z.lor ClassINET cache_flush) ttl) text in
  name <- call ServiceTypeName ;;
  target <- call ServiceName ;;
  let dnssd := PTR (mkHdr name TypePTR ClassINET ttl) target in
  let resp := appendAnswer resp [srv; txt; ptr; dnssd] in
  addrs <- svc AddrIPv4 ;;
  resp <- forEach addrs resp (fun resp ipv4 =>
    host <- svc HostName ;;
    let a := A (mkHdr host TypeA (Z.lor ClassINET cache_flush) 120) ipv4 in
    ret (appendExtra resp [a])) ;;
  addrs <- svc AddrIPv6 ;;
  forEach addrs resp (fun resp ipv6 =>
    host <- svc HostName ;;
    let aaaa := AAAA (mkHdr host TypeAAAA (Z.lor ClassINET cache_flush) 120) ipv6 in
    ret (appendExtra resp [aaaa])).

Definition handleQuestion (q : Question) (resp : Msg) : M (Msg * option error) :=
  service <- fld Service' ;;
  match service with
  | None => ret (resp, None)
  | Some _ =>
      name <- call ServiceName ;;
      if (Qname q =? name)%string then
        t <- fld ttl ;;
        resp <- composeBrowsingAnswers resp t ;; ret (resp, None)
      else
        name <- call ServiceInstanceName ;;
        if (Qname q =? name)%string then
          t <- fld ttl ;;
          resp <- composeLookupAnswers resp t ;; ret (resp, None)
        else
          name <- call ServiceTypeName ;;
          if (Qname q =? name)%string then
            t <- fld ttl ;;
            resp <- serviceTypeName' resp t ;; ret (resp, None)
          else ret (resp, None)
  end.

Definition handleQuery : Msg -> UDPAddr -> M (option error) :=
  handleQueryWith handleQuestion.

Definition parsePacket (packet : list Byte.byte) (from : UDPAddr) : M (option error) :=
  r <- asks (fun env => Unpack env packet) ;;
  let (msg, err) := r in
  match err with
  | Some e =>
      if negb (e =? ErrTruncated)%string then
        log_Printf "[ERR] bonjour: Failed to unpack packet: %v" [e] ;;
        ret None
      else handleQuery msg from
  | None => handleQuery msg from
  end.

Definition recv : option UDPConn -> list ReadResult -> M unit :=
  recvWith parsePacket.

(** The goodbye: the lookup answers with a TTL of 0. *)
Definition goodbye : M Msg :=
  let resp := set_Response emptyMsg true in
  let resp := set_Answer resp [] in
  let resp := set_Extra resp [] in
  composeLookupAnswers resp 0.

Definition unregister : M (option error) :=
  resp <- goodbye ;;
  multicastResponse resp.

Definition shutdown : M (option error) := shutdownWith unregister.

Definition Shutdown : M unit := _ <- shutdown ;; ret tt.

(** The announcement of [probe()], built between its two loops. *)
Definition announcement : M Msg :=
  let resp := set_Response emptyMsg true in
  let resp := set_Answer resp [] in
  let resp := set_Extra resp [] in
  t <- fld ttl ;;
  composeLookupAnswers resp t.

Definition probe : M unit :=
  q <- probeQuery ;;
  probeLoop 3 q ;;
  resp <- announcement ;;
  announceLoop 3 resp.

End Single.

(* ------------------------------------------------------------------ *)
(** ** The derived names and the state of their caches *)

(** The three derived names as functions of the identity triple. *)
Definition nameOfService (r : ServiceRecord) : string :=
  trimDot (Service r) ++ "." ++ trimDot (Domain r) ++ ".".

Definition nameOfInstance (r : ServiceRecord) : string :=
  if (Instance r =? "")%string then ""
  else trimDot (Instance r) ++ "." ++ nameOfService r.

Definition nameOfType (r : ServiceRecord) : string :=
  "_services._dns-sd._udp."
  ++ (if (0 <? String.length (Domain r))%nat then trimDot (Domain r) else "local")
  ++ ".".

(** A private field is empty or holds the name computed from the triple. *)
Definition cached (field value : string) : bool :=
  (field =? "")%string || (field =? value)%string.

Definition coherent (r : ServiceRecord) : bool :=
  cached (serviceName r) (nameOfService r)
  && cached (serviceInstanceName r) (trimDot (Instance r) ++ "." ++ nameOfService r)
  && cached (serviceTypeName r) (nameOfType r).

Definition coherentServer (s : Server) : bool :=
  match Service' s with
  | Some e => coherent (Rec e)
  | None => true
  end.

(** The server with the private fields of its service emptied: what a
    server is, whatever has been cached so far. *)
Definition blankRecord (r : ServiceRecord) : ServiceRecord :=
  mkServiceRecord (Instance r) (Service r) (Domain r) "" "" "".

Definition blankEntry (e : ServiceEntry) : ServiceEntry :=
  set_Rec e (blankRecord (Rec e)).

Definition blankServer (s : Server) : Server :=
  set_Service s (option_map blankEntry (Service' s)).

(** A write without its outcome. *)
Definition attempt (e : Event) : Event :=
  match e with
  | Write c b to _ => Write c b to None
  | _ => e
  end.

(** The datagrams of one multicast of [buf]: one for each open socket,
    to the group of its family. *)
Definition multicast (s : Server) (buf : list Byte.byte) : list Event :=
  (match ipv4conn s with Some c => [Write c buf ipv4Addr None] | None => [] end
   ++ match ipv6conn s with Some c => [Write c buf ipv6Addr None] | None => [] end)%list.

(** The datagram of one unicast of [buf] to [from], on the socket of the
    family of [from]. *)
Definition unicast (s : Server) (buf : list Byte.byte) (from : UDPAddr) : list Event :=
  match (match To4 (addrIP from) with Some _ => ipv4conn s | None => ipv6conn s end) with
  | Some c => [Write c buf from None]
  | None => []
  end.

(** ** A program logic for the methods of the server *)

Definition Inv (s0 : Server) (st : State) : Prop :=
  blankServer (this st) = s0 /\ coherentServer (this st) = true.

(** From every state of the server [s0], [m] returns some [a], leaves a
    server [s] and appends events [evs] with [Q a s evs]. *)
Definition triple (env : Env) (s0 : Server) {A : Type} (m : M A)
    (Q : A -> Server -> list Event -> Prop) : Prop :=
  forall st, Inv s0 st ->
    exists a st' evs,
      m env st = Some (a, st')
      /\ coherentServer (this st') = true
      /\ trace st' = (trace st ++ evs)%list
      /\ Q a (blankServer (this st')) evs.

(** [m] returns [v] and does nothing else. *)
Definition yields (env : Env) (s0 : Server) {A : Type} (m : M A) (v : A) : Prop :=
  triple env s0 m (fun a s evs => a = v /\ s = s0 /\ evs = []).

(* ------------------------------------------------------------------ *)
(** ** The answers of section 4.3 of the specification *)

(** The class of a record with the cache-flush bit. *)
Definition flushed : Z := Z.lor ClassINET (uint16 (Z.shiftl 1 15)).

Definition ptrRecord (e : ServiceEntry) (t : Z) : RR :=
  PTR (mkHdr (nameOfService (Rec e)) TypePTR ClassINET t) (nameOfInstance (Rec e)).

Definition dnssdRecord (e : ServiceEntry) (t : Z) : RR :=
  PTR (mkHdr (nameOfType (Rec e)) TypePTR ClassINET t) (nameOfService (Rec e)).

Definition srvRecord (e : ServiceEntry) (class t : Z) : RR :=
  SRV (mkHdr (nameOfInstance (Rec e)) TypeSRV class t) 0 0 (uint16 (Port e)) (HostName e).

Definition txtRecord (e : ServiceEntry) (class t : Z) : RR :=
  TXT (mkHdr (nameOfInstance (Rec e)) TypeTXT class t) (Text e).

(** One A record for each IPv4 address, then one AAAA record for each
    IPv6 address. *)
Definition addrRecords (e : ServiceEntry) (class t : Z) : list RR :=
  (map (A (mkHdr (HostName e) TypeA class t)) (AddrIPv4 e)
   ++ map (AAAA (mkHdr (HostName e) TypeAAAA class t)) (AddrIPv6 e))%list.

Definition browsingAnswers (e : ServiceEntry) (resp : Msg) (t : Z) : Msg :=
  appendExtra (appendAnswer resp [ptrRecord e t])
    (srvRecord e ClassINET t :: txtRecord e ClassINET t :: addrRecords e ClassINET t).

Definition typeAnswers (e : ServiceEntry) (resp : Msg) (t : Z) : Msg :=
  appendAnswer resp [dnssdRecord e t].

(** The lookup answers of the multi-interface revision: everything in
    the Answer section, every TTL the one given. *)
Definition lookupAnswersMulti (e : ServiceEntry) (resp : Msg) (t : Z) : Msg :=
  appendAnswer resp
    (srvRecord e flushed t :: txtRecord e flushed t :: ptrRecord e t
     :: dnssdRecord e t :: addrRecords e flushed t).

(** The lookup answers of the single-interface revision: the address
    records in the Additional section, with a TTL of 120. *)
Definition lookupAnswersSingle (e : ServiceEntry) (resp : Msg) (t : Z) : Msg :=
  appendExtra
    (appendAnswer resp
       [srvRecord e flushed t; txtRecord e flushed t; ptrRecord e t; dnssdRecord e t])
    (addrRecords e flushed 120).

(* ------------------------------------------------------------------ *)
(** ** What the responder sends *)

(** The events of one call of [multicastResponse], write outcomes aside. *)
Definition multicastOf (env : Env) (s : Server) (msg : Msg) : list Event :=
  match Pack env msg with
  | Ok buf => multicast s buf
  | Err _ => [Log ["Failed to pack message!"]]
  end.

(** What its caller in [probe()] logs after it. *)
Definition sendFailure (env : Env) (what : string) (msg : Msg) : list Event :=
  match Pack env msg with
  | Ok _ => []
  | Err e => [Log [what; e]]
  end.

Definition isWrite (e : Event) : bool :=
  match e with
  | Write _ _ _ _ => true
  | _ => false
  end.

(** The datagrams among the events, outcomes aside. *)
Definition datagrams (evs : list Event) : list Event :=
  map attempt (filter isWrite evs).

(** The datagrams that answer one question, given the reply composed
    for it. *)
Definition datagramsFor (env : Env) (s : Server) (from : UDPAddr)
    (resp : Msg) (q : Question) : list Event :=
  match Answer resp with
  | [] => []
  | _ :: _ =>
      match Pack env resp with
      | Err _ => []
      | Ok buf =>
          if Z.testbit (Qclass q) 15 then unicast s buf from
          else multicast s buf
      end
  end.

Definition closes (s : Server) : list Event :=
  (match ipv4conn s with Some c => [Close c] | None => [] end
   ++ match ipv6conn s with Some c => [Close c] | None => [] end)%list.

(* ------------------------------------------------------------------ *)
(** ** The dispatch table, the probe and the announcement *)

(** The answer to a question, first match first: the multi-interface
    revision. *)
Definition answerMulti (e : ServiceEntry) (t : Z) (q : Question) (resp : Msg) : Msg :=
  if (Qname q =? nameOfService (Rec e))%string then browsingAnswers e resp t
  else if (Qname q =? nameOfInstance (Rec e))%string then lookupAnswersMulti e resp t
  else if (Qname q =? HostName e)%string then lookupAnswersMulti e resp t
  else if (Qname q =? nameOfType (Rec e))%string then typeAnswers e resp t
  else resp.

(** The same for the single-interface revision: no case for the host name. *)
Definition answerSingle (e : ServiceEntry) (t : Z) (q : Question) (resp : Msg) : Msg :=
  if (Qname q =? nameOfService (Rec e))%string then browsingAnswers e resp t
  else if (Qname q =? nameOfInstance (Rec e))%string then lookupAnswersSingle e resp t
  else if (Qname q =? nameOfType (Rec e))%string then typeAnswers e resp t
  else resp.

(** A response with empty Answer and Additional sections. *)
Definition emptyResponse : Msg :=
  set_Extra (set_Answer (set_Response emptyMsg true) []) [].

(** The probe: one PTR question on the instance name, the future SRV
    and TXT records in the authority section. *)
Definition probeMsg (env : Env) (e : ServiceEntry) (t : Z) : Msg :=
  set_Ns (set_RecursionDesired
            (SetQuestion emptyMsg (dnsId env) (nameOfInstance (Rec e)) TypePTR) false)
         [srvRecord e ClassINET t; txtRecord e ClassINET t].

(** One round of the first loop of [probe()], with the [k]-th draw. *)
Definition probeRound (env : Env) (s : Server) (q : Msg) (k : nat) : list Event :=
  (multicastOf env s q
   ++ sendFailure env "[ERR] bonjour: failed to send probe:" q
   ++ [Sleep (int64 (Intn env k 250 * Millisecond))])%list.

(** [n] rounds of the second loop, the first pause being [timeout]. *)
Fixpoint announceRounds (env : Env) (s : Server) (resp : Msg) (n : nat) (timeout : Z)
    : list Event :=
  match n with
  | O => []
  | S n' =>
      (multicastOf env s resp
       ++ sendFailure env "[ERR] bonjour: failed to send announcement:" resp
       ++ [Sleep timeout]
       ++ announceRounds env s resp n' (int64 (timeout * 2)))%list
  end.

(** A method of the record that returns the name [name r], whatever
    has been cached so far. *)
Definition method (m : ServiceRecord -> string * ServiceRecord)
    (name : ServiceRecord -> string) : Prop :=
  forall r, coherent r = true ->
    exists r', m r = (name r, r') /\ blankRecord r' = blankRecord r /\ coherent r' = true.

Definition isAddress (rr : RR) : bool :=
  match rr with
  | A _ _ | AAAA _ _ => true
  | _ => false
  end.

Definition isLog (e : Event) : bool :=
  match e with
  | Log _ => true
  | _ => false
  end.

(** The port fields of the SRV records among [rrs]. *)
Definition srvPorts (rrs : list RR) : list Z :=
  flat_map (fun rr => match rr with SRV _ _ _ port _ => [port] | _ => [] end) rrs.

(** All the records of a message. *)
Definition records (m : Msg) : list RR := (Answer m ++ Ns m ++ Extra m)%list.

(** [r] with the port of its service replaced. *)
Definition withPort (port : Z) (r : result Server * list Event) : result Server * list Event :=
  match r with
  | (Ok s, logs) =>
      (Ok (set_Service s (option_map (fun e => set_Port e port) (Service' s))), logs)
  | (Err e, logs) => (Err e, logs)
  end.

(* ------------------------------------------------------------------ *)
(** ** A registration to run the responder on *)

Definition sampleAddr : IP := [Byte.x0a; Byte.x00; Byte.x00; Byte.x05].

(** A query with one question, of the given name and class. *)
Definition sampleQuery (name : string) (qclass : Z) : Msg :=
  mkMsg 1 false false [mkQuestion name TypePTR qclass] [] [] [].

(** A query with two questions: a browse that asks for a unicast
    response, then a name the responder does not serve. *)
Definition twoQuestions : Msg :=
  mkMsg 1 false false
        [mkQuestion "_http._tcp.local." TypePTR 32769;
         mkQuestion "other.local." TypePTR 1] [] [] [].

(** A decoder for the sample world: the first byte of a packet tells
    which of the sample queries it is. *)
Definition sampleUnpack (packet : list Byte.byte) : Msg * option error :=
  match packet with
  | Byte.x01 :: _ => (sampleQuery "_http._tcp.local." 32769, None)
  | Byte.x02 :: _ => (twoQuestions, None)
  | _ => (emptyMsg, Some "dns: overflow unpacking uint16")
  end.

Definition sampleEnv : Env :=
  mkEnv (fun m => Ok [if Response m then Byte.x84 else Byte.x00])
        sampleUnpack
        7
        (fun _ => None)
        (fun k => Z.of_nat k * 1000 + 13)
        (Ok "host")
        (Ok [IPNet sampleAddr [Byte.xff; Byte.xff; Byte.xff; Byte.x00]])
        (fun _ => false)
        (fun _ => true)
        (fun _ => Ok (Some (mkUDPConn 3)))
        (fun _ => Ok (Some (mkUDPConn 4))).

(** The same world, where every socket write fails. *)
Definition failingEnv : Env :=
  mkEnv (Pack sampleEnv) (Unpack sampleEnv) (dnsId sampleEnv)
        (fun _ => Some "network is unreachable")
        (entropy sampleEnv) (Hostname sampleEnv) (InterfaceAddrs sampleEnv)
        (IsLoopback sampleEnv) (IsGlobalUnicast sampleEnv)
        (joinUdp4Multicast sampleEnv) (joinUdp6Multicast sampleEnv).

Definition sampleEntry : ServiceEntry :=
  mkServiceEntry (NewServiceRecord "MyPage" "_http._tcp" "local")
                 "host.local." 8080 ["path=/"] 0 [sampleAddr] [].

Definition sampleServer : Server :=
  mkServer (Some sampleEntry) (Some (mkUDPConn 3)) (Some (mkUDPConn 4)) false 3200.

Definition sampleState : State := mkState sampleServer [].

(** The same server with its IPv4 socket only. *)
Definition sampleState4 : State :=
  mkState (mkServer (Some sampleEntry) (Some (mkUDPConn 3)) None false 3200) [].

Definition sampleFrom : UDPAddr :=
  mkUDPAddr [Byte.xc0; Byte.x00; Byte.x02; Byte.x0a] 54321.

(* ------------------------------------------------------------------ *)
(** ** Further notions for the properties of the code *)

(** [r] after assignments to its three public fields. *)
Definition withTriple (r : ServiceRecord) (instance service domain : string)
    : ServiceRecord :=
  mkServiceRecord instance service domain
                  (serviceName r) (serviceInstanceName r) (serviceTypeName r).

(** The IP addresses of the network addresses among [l], in order. *)
Definition networkIPs (l : list Addr) : list IP :=
  flat_map (fun a => match a with IPNet ip _ => [ip] | IPAddr _ => [] end) l.

Definition isIPv4 (ip : IP) : bool :=
  match To4 ip with Some _ => true | None => false end.

(** A 16-byte address that is not an IPv4 address in disguise. *)
Definition isIPv6 (ip : IP) : bool :=
  negb (isIPv4 ip) && match To16 ip with Some _ => true | None => false end.

(** The addresses all the given interfaces report, an interface whose
    addresses cannot be read counting for none. *)
Definition interfaceAddrs (ifaces : list Interface) : list Addr :=
  flat_map (fun ifi => match ifAddrs ifi with Ok l => l | Err _ => [] end) ifaces.

(** The interfaces whose name does not start with [docker]. *)
Definition notDocker (ifaces : list Interface) : list Interface :=
  filter (fun ifi => negb (HasPrefix (ifName ifi) "docker")) ifaces.

(** A network with two interfaces, one of them of docker, on which the
    IPv6 socket cannot be bound and the groups can be joined on the
    first interface only. *)
Definition sampleNet : Net :=
  mkNet (fun s => if (s =? "10.0.0.5")%string then Some sampleAddr
                  else if (s =? "::1")%string
                       then Some (repeat Byte.x00 15 ++ [Byte.x01])%list
                       else None)
        (Ok [mkInterface "eth0"
               (Ok [IPNet sampleAddr [Byte.xff; Byte.xff; Byte.xff; Byte.x00]]);
             mkInterface "docker0"
               (Ok [IPNet [Byte.xac; Byte.x11; Byte.x00; Byte.x01]
                          [Byte.xff; Byte.xff; Byte.x00; Byte.x00]])])
        (fun _ => false)
        (Ok (mkUDPConn 3))
        (Err "address family not supported by protocol")
        (fun c ifi _ =>
           match c with
           | Some _ => if (ifName ifi =? "eth0")%string then None
                       else Some "no such device"
           | None => Some "invalid argument"
           end).

(* ================================================================== *)
(** * Proofs *)

(** ** Strings: the pieces of a composed name *)

Lemma splitDots_cons s : exists l ls, splitDots s = l :: ls.
Proof.
  induction s as [|c r [l [ls IH]]]; simpl.
  - eauto.
  - destruct (isDot c); [eauto|]. rewrite IH. eauto.
Qed.

Lemma splitDots_app_dot a b :
  splitDots (a ++ String "." b) = (splitDots a ++ splitDots b)%list.
Proof.
  induction a as [|c a IH]; simpl.
  - reflexivity.
  - rewrite IH. destruct (isDot c); [reflexivity|].
    destruct (splitDots_cons a) as [l [ls E]]. rewrite E. reflexivity.
Qed.

Lemma allDots_app a b : allDots (a ++ b) = allDots a && allDots b.
Proof.
  induction a as [|c a IH]; simpl; [reflexivity|].
  rewrite IH. apply andb_assoc.
Qed.

Lemma length_app a b : String.length (a ++ b) = (String.length a + String.length b)%nat.
Proof. induction a as [|c a IH]; simpl; congruence. Qed.

Lemma trailingDots_app_dot a : trailingDots (a ++ ".") = S (trailingDots a).
Proof.
  induction a as [|c a IH]; simpl; [reflexivity|].
  rewrite allDots_app, length_app, IH. simpl.
  rewrite andb_true_r, Nat.add_1_r. destruct (isDot c && allDots a); reflexivity.
Qed.

Lemma trailingDots_app a b : allDots b = false -> trailingDots (a ++ b) = trailingDots b.
Proof.
  intros H. induction a as [|c a IH]; simpl; [reflexivity|].
  rewrite allDots_app, H, andb_false_r, andb_false_r. exact IH.
Qed.

(** A string that ends with a dot splits into a last piece that is empty. *)
Lemma trailingDots_pieces s :
  trailingDots s <> O -> existsb (fun l => (l =? "")%string) (tl (splitDots s)) = true.
Proof.
  induction s as [|c r IH]; simpl; [congruence|].
  destruct (isDot c) eqn:Ec; simpl.
  - destruct (allDots r) eqn:Er.
    + intros _. destruct r as [|d r']; [reflexivity|]. simpl in *.
      apply andb_true_iff in Er. destruct Er as [Ed _]. rewrite Ed. reflexivity.
    + intros H. specialize (IH H).
      destruct (splitDots r) as [|l ls]; [discriminate|]. simpl in *.
      rewrite IH. apply orb_true_r.
  - intros H. specialize (IH H).
    destruct (splitDots r) as [|l ls]; [discriminate|]. exact IH.
Qed.

Lemma forallb_existsb_nonEmpty l :
  forallb nonEmpty l = true -> existsb (fun l => (l =? "")%string) l = false.
Proof.
  induction l as [|x l IH]; simpl; [reflexivity|].
  unfold nonEmpty at 1. intros H. apply andb_true_iff in H. destruct H as [Hx Hl].
  apply negb_true_iff in Hx. rewrite Hx, IH; auto.
Qed.

Lemma forallb_tl {A} (f : A -> bool) l : forallb f l = true -> forallb f (tl l) = true.
Proof.
  destruct l; simpl; [auto|]. intros H. apply andb_true_iff in H. tauto.
Qed.

Lemma cleanLabels_trailingDots s : cleanLabels s = true -> trailingDots s = O.
Proof.
  unfold cleanLabels. intros H.
  destruct (trailingDots s) eqn:E; [reflexivity|].
  assert (X : existsb (fun l => (l =? "")%string) (tl (splitDots s)) = true).
  { apply trailingDots_pieces. congruence. }
  rewrite (forallb_existsb_nonEmpty _ (forallb_tl _ _ H)) in X. discriminate.
Qed.

Lemma cleanLabels_allDots s : cleanLabels s = true -> allDots s = false.
Proof.
  unfold cleanLabels. destruct s as [|c r]; simpl; [discriminate|].
  destruct (isDot c); simpl; [discriminate|reflexivity].
Qed.

(** No empty piece strictly inside: no two dots in a row. *)
Lemma adjacentDots_pieces s :
  forallb nonEmpty (removelast (tl (splitDots s))) = true -> adjacentDots s = false.
Proof.
  induction s as [|c r IH]; [reflexivity|].
  destruct r as [|d r'].
  { reflexivity. }
  change (adjacentDots (String c (String d r')))
    with ((isDot c && isDot d) || adjacentDots (String d r')).
  change (splitDots (String c (String d r')))
    with (if isDot c then "" :: splitDots (String d r')
          else match splitDots (String d r') with
               | l :: ls => String c l :: ls
               | [] => [String c ""]
               end).
  destruct (splitDots_cons (String d r')) as [l [ls E]].
  destruct (isDot c) eqn:Ec.
  - cbn [tl]. rewrite E in *. intros H.
    assert (Hd : isDot d = false).
    { simpl in E. destruct (isDot d); [|reflexivity].
      injection E as <- <-.
      destruct (splitDots_cons r') as [l' [ls' E']]. rewrite E' in H.
      simpl in H. discriminate. }
    rewrite Hd. simpl orb. apply IH. cbn [tl].
    destruct ls as [|x ls]; [reflexivity|].
    change (removelast (l :: x :: ls)) with (l :: removelast (x :: ls)) in H.
    simpl in H. apply andb_true_iff in H. tauto.
  - rewrite E in *. cbn [tl]. simpl andb. simpl orb. intros H. apply IH. exact H.
Qed.

Lemma wellFormed_parts n :
  wellFormedName n = true ->
  adjacentDots n = false /\ emptyLabel n = false /\ trailingDots n = 1%nat.
Proof.
  unfold wellFormedName. intros H.
  apply andb_true_iff in H. destruct H as [H H3].
  apply andb_true_iff in H. destruct H as [H1 H2].
  apply negb_true_iff in H1, H2. apply Nat.eqb_eq in H3. auto.
Qed.

Lemma existsb_forallb_nonEmpty l :
  existsb (fun l => (l =? "")%string) l = false -> forallb nonEmpty l = true.
Proof.
  induction l as [|x l IH]; simpl; [reflexivity|].
  intros H. apply orb_false_iff in H. destruct H as [Hx Hl].
  unfold nonEmpty at 1. rewrite Hx, IH; auto.
Qed.

Lemma wellFormed_base d : cleanLabels d = true -> wellFormedName (d ++ ".") = true.
Proof.
  intros H. unfold wellFormedName, emptyLabel, labels.
  assert (S : splitDots (d ++ ".") = (splitDots d ++ [""])%list).
  { apply (splitDots_app_dot d ""). }
  rewrite trailingDots_app_dot, (cleanLabels_trailingDots d H), S, removelast_last.
  rewrite (forallb_existsb_nonEmpty _ H).
  rewrite adjacentDots_pieces; [reflexivity|].
  rewrite S. destruct (splitDots_cons d) as [l [ls E]]. rewrite E in *.
  cbn [tl app]. rewrite removelast_last.
  unfold cleanLabels in H. rewrite E in H. simpl in H.
  apply andb_true_iff in H. tauto.
Qed.

Lemma wellFormed_cons a n :
  cleanLabels a = true -> wellFormedName n = true ->
  wellFormedName (a ++ "." ++ n) = true.
Proof.
  intros Ha Hn. destruct (wellFormed_parts n Hn) as (N1 & N2 & N3).
  unfold emptyLabel, labels in N2.
  assert (S : splitDots (a ++ "." ++ n) = (splitDots a ++ splitDots n)%list).
  { apply (splitDots_app_dot a n). }
  destruct (splitDots_cons n) as [ln [lsn En]].
  assert (Nn : splitDots n <> []) by (rewrite En; discriminate).
  assert (Dn : allDots n = false).
  { destruct (allDots n) eqn:E; [|reflexivity].
    destruct n as [|c r]; [discriminate|].
    simpl in E. apply andb_true_iff in E. destruct E as [Ec Er].
    simpl in N2. rewrite Ec in N2.
    destruct (splitDots_cons r) as [l' [ls' E']]. rewrite E' in N2.
    simpl in N2. discriminate. }
  unfold wellFormedName, emptyLabel, labels.
  assert (T : trailingDots (a ++ "." ++ n) = 1%nat).
  { change (a ++ "." ++ n) with (a ++ String "." n).
    rewrite trailingDots_app; [|simpl; rewrite Dn; reflexivity].
    simpl. rewrite Dn. exact N3. }
  rewrite T, S, removelast_app by exact Nn.
  rewrite existsb_app, (forallb_existsb_nonEmpty _ Ha), N2.
  rewrite adjacentDots_pieces; [reflexivity|].
  rewrite S. destruct (splitDots_cons a) as [l [ls E]]. rewrite E in *.
  cbn [tl app]. rewrite removelast_app by exact Nn.
  rewrite forallb_app. unfold cleanLabels in Ha. rewrite E in Ha. simpl in Ha.
  apply andb_true_iff in Ha. destruct Ha as [_ Ha]. rewrite Ha.
  apply existsb_forallb_nonEmpty. exact N2.
Qed.

(* ------------------------------------------------------------------ *)
(** ** The rules of the program logic *)

Section Rules.
Variable env : Env.

Lemma triple_ret {A} s0 (a : A) (Q : A -> Server -> list Event -> Prop) :
  Q a s0 [] -> triple env s0 (ret a) Q.
Proof.
  intros HQ st [Hb Hc]. exists a, st, []. rewrite app_nil_r, Hb. repeat split; auto.
Qed.

Lemma triple_bind {A B} s0 (m : M A) (k : A -> M B) Q1 Q :
  triple env s0 m Q1 ->
  (forall a s1 evs1, Q1 a s1 evs1 ->
     triple env s1 (k a) (fun b s2 evs2 => Q b s2 (evs1 ++ evs2)%list)) ->
  triple env s0 (bind m k) Q.
Proof.
  intros Hm Hk st HI.
  destruct (Hm st HI) as (a & st1 & evs1 & E1 & C1 & T1 & H1).
  destruct (Hk a _ evs1 H1 st1 (conj eq_refl C1)) as (b & st2 & evs2 & E2 & C2 & T2 & H2).
  exists b, st2, (evs1 ++ evs2)%list. unfold bind. rewrite E1.
  repeat split; auto. rewrite T2, T1, app_assoc. reflexivity.
Qed.

Lemma triple_conseq {A} s0 (m : M A) (Q Q' : A -> Server -> list Event -> Prop) :
  triple env s0 m Q -> (forall a s evs, Q a s evs -> Q' a s evs) -> triple env s0 m Q'.
Proof.
  intros Hm HQ st HI. destruct (Hm st HI) as (a & st1 & evs & E & C & T & H).
  exists a, st1, evs. repeat split; auto.
Qed.

Lemma bind_yields {A B} s0 (m : M A) (k : A -> M B) v Q :
  yields env s0 m v -> triple env s0 (k v) Q -> triple env s0 (bind m k) Q.
Proof.
  intros Hm Hk. eapply triple_bind; [exact Hm|].
  intros a s1 evs1 (-> & -> & ->). exact Hk.
Qed.

Lemma yields_ret {A} s0 (a : A) : yields env s0 (ret a) a.
Proof. apply triple_ret. auto. Qed.

Lemma yields_asks {A} s0 (f : Env -> A) : yields env s0 (asks f) (f env).
Proof.
  intros st [Hb Hc]. exists (f env), st, []. rewrite app_nil_r. repeat split; auto.
Qed.

Lemma yields_fld {A} s0 (f : Server -> A) v :
  (forall s, blankServer s = s0 -> f s = v) -> yields env s0 (fld f) v.
Proof.
  intros Hf st [Hb Hc]. exists (f (this st)), st, []. rewrite app_nil_r. repeat split; auto.
Qed.

Lemma Inv_service s0 e0 st :
  Service' s0 = Some e0 -> Inv s0 st ->
  exists e, Service' (this st) = Some e /\ blankEntry e = e0 /\ coherent (Rec e) = true.
Proof.
  intros Hs [Hb Hc]. subst s0. unfold coherentServer in Hc. simpl in Hs.
  destruct (Service' (this st)) as [e|]; [|discriminate].
  exists e. simpl in Hs. injection Hs as Hs. auto.
Qed.

Lemma yields_svc {A} s0 e0 (f : ServiceEntry -> A) v :
  Service' s0 = Some e0 ->
  (forall e, blankEntry e = e0 -> f e = v) -> yields env s0 (svc f) v.
Proof.
  intros Hs Hf st HI. destruct (Inv_service _ _ _ Hs HI) as (e & He & Hbe & Hce).
  destruct HI as [Hb Hc].
  exists (f e), st, []. unfold svc. rewrite He, app_nil_r. repeat split; auto.
Qed.

Lemma cached_true field value :
  cached field value = true -> field = "" \/ field = value.
Proof.
  unfold cached. intros H. apply orb_true_iff in H.
  destruct H as [H|H]; apply String.eqb_eq in H; auto.
Qed.

Lemma cached_refl v : cached v v = true.
Proof. unfold cached. rewrite String.eqb_refl. apply orb_true_r. Qed.

Lemma coherent_parts r :
  coherent r = true ->
  cached (serviceName r) (nameOfService r) = true
  /\ cached (serviceInstanceName r) (trimDot (Instance r) ++ "." ++ nameOfService r) = true
  /\ cached (serviceTypeName r) (nameOfType r) = true.
Proof.
  unfold coherent. intros H.
  apply andb_true_iff in H. destruct H as [H H3].
  apply andb_true_iff in H. destruct H as [H1 H2]. auto.
Qed.

Lemma coherent_set_serviceName r v :
  coherent (set_serviceName r v)
  = cached v (nameOfService r)
    && cached (serviceInstanceName r) (trimDot (Instance r) ++ "." ++ nameOfService r)
    && cached (serviceTypeName r) (nameOfType r).
Proof. reflexivity. Qed.

Lemma coherent_set_serviceInstanceName r v :
  coherent (set_serviceInstanceName r v)
  = cached (serviceName r) (nameOfService r)
    && cached v (trimDot (Instance r) ++ "." ++ nameOfService r)
    && cached (serviceTypeName r) (nameOfType r).
Proof. reflexivity. Qed.

Lemma coherent_set_serviceTypeName r v :
  coherent (set_serviceTypeName r v)
  = cached (serviceName r) (nameOfService r)
    && cached (serviceInstanceName r) (trimDot (Instance r) ++ "." ++ nameOfService r)
    && cached v (nameOfType r).
Proof. reflexivity. Qed.

Lemma ServiceName_spec r :
  coherent r = true ->
  exists r', ServiceName r = (nameOfService r, r')
             /\ blankRecord r' = blankRecord r /\ coherent r' = true.
Proof.
  intros H. destruct (coherent_parts r H) as (H1 & H2 & H3).
  unfold ServiceName.
  destruct (serviceName r =? "")%string eqn:E.
  - eexists. split; [reflexivity|]. split; [reflexivity|].
    rewrite coherent_set_serviceName, cached_refl, H2, H3. reflexivity.
  - destruct (cached_true _ _ H1) as [H0|H0].
    + rewrite H0 in E. discriminate.
    + exists r. rewrite H0 at 1. auto.
Qed.

Lemma ServiceInstanceName_spec r :
  coherent r = true ->
  exists r', ServiceInstanceName r = (nameOfInstance r, r')
             /\ blankRecord r' = blankRecord r /\ coherent r' = true.
Proof.
  intros H. unfold ServiceInstanceName, nameOfInstance.
  destruct (Instance r =? "")%string eqn:EI.
  - exists r. auto.
  - destruct (serviceInstanceName r =? "")%string eqn:E.
    + destruct (ServiceName_spec r H) as (r1 & E1 & B1 & C1).
      rewrite E1. eexists. split; [|split].
      * simpl. replace (Instance r1) with (Instance r); [reflexivity|].
        exact (f_equal Instance (eq_sym B1)).
      * exact B1.
      * destruct (coherent_parts r1 C1) as (H1 & H2 & H3).
        rewrite coherent_set_serviceInstanceName, H1, H3.
        replace (Instance r1) with (Instance r) by exact (f_equal Instance (eq_sym B1)).
        replace (nameOfService r1) with (nameOfService r).
        -- rewrite cached_refl. reflexivity.
        -- change (nameOfService (blankRecord r) = nameOfService (blankRecord r1)).
           rewrite B1. reflexivity.
    + destruct (coherent_parts r H) as (H1 & H2 & H3).
      destruct (cached_true _ _ H2) as [H0|H0].
      * rewrite H0 in E. discriminate.
      * exists r. rewrite H0 at 1. auto.
Qed.

Lemma ServiceTypeName_spec r :
  coherent r = true ->
  exists r', ServiceTypeName r = (nameOfType r, r')
             /\ blankRecord r' = blankRecord r /\ coherent r' = true.
Proof.
  intros H. destruct (coherent_parts r H) as (H1 & H2 & H3).
  unfold ServiceTypeName.
  destruct (serviceTypeName r =? "")%string eqn:E.
  - eexists. split; [reflexivity|]. split; [reflexivity|].
    rewrite coherent_set_serviceTypeName, H1, H2.
    fold (nameOfType r). rewrite cached_refl. reflexivity.
  - destruct (cached_true _ _ H3) as [H0|H0].
    + rewrite H0 in E. discriminate.
    + exists r. rewrite H0 at 1. auto.
Qed.

Lemma yields_call s0 e0 m name :
  method m name -> Service' s0 = Some e0 ->
  (forall r, name r = name (blankRecord r)) ->
  yields env s0 (call m) (name (Rec e0)).
Proof.
  intros Hm Hs Hn st HI.
  destruct (Inv_service _ _ _ Hs HI) as (e & He & Hbe & Hce).
  destruct HI as [Hb Hc].
  destruct (Hm (Rec e) Hce) as (r' & Er & Br & Cr).
  unfold call. rewrite He, Er.
  eexists _, _, []. split; [reflexivity|]. simpl. rewrite app_nil_r.
  repeat split; auto.
  - subst e0. simpl. rewrite Hn. reflexivity.
  - rewrite <- Hb. unfold blankServer. simpl. rewrite He. simpl.
    unfold blankEntry. simpl. rewrite Br. reflexivity.
Qed.


Lemma bind_emit {B} s0 (e : Event) (k : unit -> M B) Q :
  triple env s0 (k tt) (fun b s evs => Q b s (e :: evs)) ->
  triple env s0 (bind (emit e) k) Q.
Proof.
  intros Hk. eapply triple_bind with (Q1 := fun a s evs => s = s0 /\ evs = [e]).
  - intros st [Hb Hc]. exists tt, (mkState (this st) (trace st ++ [e])), [e].
    repeat split; auto.
  - intros [] s1 evs1 (-> & ->). exact Hk.
Qed.

Lemma triple_emit s0 (e : Event) (Q : unit -> Server -> list Event -> Prop) :
  Q tt s0 [e] -> triple env s0 (emit e) Q.
Proof.
  intros HQ st [Hb Hc]. exists tt, (mkState (this st) (trace st ++ [e])), [e].
  simpl. rewrite Hb. repeat split; auto.
Qed.

Lemma bind_WriteTo {B} s0 c buf to (k : option error -> M B) Q :
  (forall err, triple env s0 (k err) (fun b s evs => Q b s (Write c buf to err :: evs))) ->
  triple env s0 (bind (WriteTo c buf to) k) Q.
Proof.
  intros Hk.
  eapply triple_bind
    with (Q1 := fun a s evs => s = s0 /\ evs = [Write c buf to a]).
  - intros st [Hb Hc]. eexists _, _, _. split; [reflexivity|]. simpl.
    repeat split; auto.
  - intros err s1 evs1 (-> & ->). apply Hk.
Qed.

Lemma bind_assign {B} s0 s1 (upd : Server -> Server) (k : unit -> M B) Q :
  (forall s, blankServer s = s0 -> coherentServer s = true ->
     blankServer (upd s) = s1 /\ coherentServer (upd s) = true) ->
  triple env s1 (k tt) Q ->
  triple env s0 (bind (assign upd) k) Q.
Proof.
  intros Hu Hk.
  eapply triple_bind with (Q1 := fun a s evs => s = s1 /\ evs = []).
  - intros st [Hb Hc]. destruct (Hu _ Hb Hc) as [Hb' Hc'].
    exists tt, (mkState (upd (this st)) (trace st)), []. simpl.
    rewrite app_nil_r. repeat split; auto.
  - intros [] s2 evs1 (-> & ->). exact Hk.
Qed.

Lemma bind_bind {A B C} s0 (m : M A) (f : A -> M B) (k : B -> M C) Q :
  triple env s0 (bind m (fun x => bind (f x) k)) Q ->
  triple env s0 (bind (bind m f) k) Q.
Proof.
  intros H st HI. destruct (H st HI) as (a & st' & evs & E & R).
  exists a, st', evs. split; [|exact R].
  unfold bind in *. destruct (m env st) as [[x st1]|]; exact E.
Qed.

Lemma bind_ret {A B} s0 (a : A) (k : A -> M B) Q :
  triple env s0 (k a) Q -> triple env s0 (bind (ret a) k) Q.
Proof. intros H st HI. exact (H st HI). Qed.

Lemma yields_forEach {X S} s0 (l : list X) (body : S -> X -> M S) (f : S -> X -> S) :
  (forall acc x, yields env s0 (body acc x) (f acc x)) ->
  forall acc, yields env s0 (forEach l acc body) (fold_left f l acc).
Proof.
  intros Hb. induction l as [|x l IH]; intros acc; simpl.
  - apply yields_ret.
  - eapply bind_yields; [apply Hb|]. apply IH.
Qed.


Lemma yields_eq {A} s0 (m : M A) v v' :
  yields env s0 m v -> v = v' -> yields env s0 m v'.
Proof. intros H <-. exact H. Qed.

Lemma yields_field {A} s0 (f : Server -> A) :
  (forall s, f s = f (blankServer s)) -> yields env s0 (fld f) (f s0).
Proof.
  intros Hf. apply yields_fld. intros s <-. apply Hf.
Qed.

Lemma yields_service {A} s0 e0 (f : ServiceEntry -> A) :
  Service' s0 = Some e0 ->
  (forall e, f e = f (blankEntry e)) -> yields env s0 (svc f) (f e0).
Proof.
  intros Hs Hf. apply (yields_svc s0 e0 f (f e0) Hs). intros e <-. apply Hf.
Qed.

Lemma yields_ServiceName s0 e0 :
  Service' s0 = Some e0 -> yields env s0 (call ServiceName) (nameOfService (Rec e0)).
Proof.
  intros Hs. apply (yields_call s0 e0 ServiceName nameOfService); auto.
  exact ServiceName_spec.
Qed.

Lemma yields_ServiceInstanceName s0 e0 :
  Service' s0 = Some e0 ->
  yields env s0 (call ServiceInstanceName) (nameOfInstance (Rec e0)).
Proof.
  intros Hs. apply (yields_call s0 e0 ServiceInstanceName nameOfInstance); auto.
  exact ServiceInstanceName_spec.
Qed.

Lemma yields_ServiceTypeName s0 e0 :
  Service' s0 = Some e0 -> yields env s0 (call ServiceTypeName) (nameOfType (Rec e0)).
Proof.
  intros Hs. apply (yields_call s0 e0 ServiceTypeName nameOfType); auto.
  exact ServiceTypeName_spec.
Qed.

End Rules.

(** One step of a method that only reads. *)
Ltac on_program tac :=
  lazymatch goal with
  | |- triple _ _ ?m _ => tac m
  | |- yields _ _ ?m _ => tac m
  end.

Ltac read Hs :=
  on_program ltac:(fun m =>
    lazymatch m with
    | bind (call ServiceName) _ =>
        eapply bind_yields; [apply (yields_ServiceName _ _ _ Hs)|]
    | bind (call ServiceInstanceName) _ =>
        eapply bind_yields; [apply (yields_ServiceInstanceName _ _ _ Hs)|]
    | bind (call ServiceTypeName) _ =>
        eapply bind_yields; [apply (yields_ServiceTypeName _ _ _ Hs)|]
    | bind (svc _) _ =>
        eapply bind_yields; [apply (yields_service _ _ _ _ Hs); intro; reflexivity|]
    | bind (fld _) _ =>
        eapply bind_yields; [apply yields_field; intro; reflexivity|]
    | bind (asks _) _ => eapply bind_yields; [apply yields_asks|]
    | bind (ret _) _ => eapply bind_yields; [apply yields_ret|]
    end);
  cbv beta.

Ltac reads Hs := repeat (read Hs).

Lemma fold_appendExtra {X} (f : X -> RR) l resp :
  fold_left (fun resp x => appendExtra resp [f x]) l resp = appendExtra resp (map f l).
Proof.
  revert resp. induction l as [|x l IH]; intros resp; simpl.
  - unfold appendExtra. rewrite app_nil_r. destruct resp; reflexivity.
  - rewrite IH. unfold appendExtra, set_Extra. simpl.
    rewrite <- app_assoc. reflexivity.
Qed.

Lemma fold_appendAnswer {X} (f : X -> RR) l resp :
  fold_left (fun resp x => appendAnswer resp [f x]) l resp = appendAnswer resp (map f l).
Proof.
  revert resp. induction l as [|x l IH]; intros resp; simpl.
  - unfold appendAnswer. rewrite app_nil_r. destruct resp; reflexivity.
  - rewrite IH. unfold appendAnswer, set_Answer. simpl.
    rewrite <- app_assoc. reflexivity.
Qed.

Section Answers.
Variable env : Env.
Variables (s0 : Server) (e0 : ServiceEntry).
Hypothesis Hs : Service' s0 = Some e0.

Lemma composeBrowsingAnswers_spec resp t :
  yields env s0 (composeBrowsingAnswers resp t) (browsingAnswers e0 resp t).
Proof.
  eapply yields_eq.
  - unfold composeBrowsingAnswers. reads Hs.
    eapply bind_yields.
    { apply yields_forEach. intros acc x. read Hs. apply yields_ret. }
    read Hs.
    apply yields_forEach. intros acc x. read Hs. apply yields_ret.
  - rewrite !fold_appendExtra.
    unfold browsingAnswers, addrRecords, appendExtra, appendAnswer, set_Extra, set_Answer.
    simpl. rewrite <- !app_assoc. reflexivity.
Qed.

Lemma serviceTypeName_spec resp t :
  yields env s0 (serviceTypeName' resp t) (typeAnswers e0 resp t).
Proof.
  unfold serviceTypeName'. reads Hs. apply yields_ret.
Qed.

Lemma Multi_composeLookupAnswers_spec resp t :
  yields env s0 (Multi.composeLookupAnswers resp t) (lookupAnswersMulti e0 resp t).
Proof.
  eapply yields_eq.
  - unfold Multi.composeLookupAnswers. cbv zeta. reads Hs.
    eapply bind_yields.
    { apply yields_forEach. intros acc x. read Hs. apply yields_ret. }
    read Hs.
    apply yields_forEach. intros acc x. read Hs. apply yields_ret.
  - rewrite !fold_appendAnswer.
    unfold lookupAnswersMulti, addrRecords, appendExtra, appendAnswer, set_Extra, set_Answer.
    simpl. rewrite <- !app_assoc. reflexivity.
Qed.

Lemma Single_composeLookupAnswers_spec resp t :
  yields env s0 (Single.composeLookupAnswers resp t) (lookupAnswersSingle e0 resp t).
Proof.
  eapply yields_eq.
  - unfold Single.composeLookupAnswers. cbv zeta. reads Hs.
    eapply bind_yields.
    { apply yields_forEach. intros acc x. read Hs. apply yields_ret. }
    read Hs.
    apply yields_forEach. intros acc x. read Hs. apply yields_ret.
  - rewrite !fold_appendExtra.
    unfold lookupAnswersSingle, addrRecords, appendExtra, appendAnswer, set_Extra, set_Answer.
    simpl. rewrite <- !app_assoc. reflexivity.
Qed.

End Answers.

(** One step of a method that writes, logs or sleeps. *)
Ltac effect :=
  on_program ltac:(fun m =>
    lazymatch m with
    | bind (bind _ _) _ => apply bind_bind
    | bind (ret _) _ => apply bind_ret
    | bind (emit _) _ => apply bind_emit
    | bind (log_Println _) _ => apply bind_emit
    | bind (log_Printf _ _) _ => apply bind_emit
    | bind (time_Sleep _) _ => apply bind_emit
    | bind (WriteTo _ _ _) _ => apply bind_WriteTo; intro
    end).

Lemma triple_WriteTo env s0 c buf to (Q : option error -> Server -> list Event -> Prop) :
  (forall err, Q err s0 [Write c buf to err]) -> triple env s0 (WriteTo c buf to) Q.
Proof.
  intros HQ st [Hb Hc]. eexists _, _, _. split; [reflexivity|]. simpl.
  rewrite Hb. repeat split; auto.
Qed.

Lemma isUnicastQuestion_bit q : isUnicastQuestion q = Z.testbit (Qclass q) 15.
Proof.
  unfold isUnicastQuestion. change (Z.shiftl 1 15) with (2 ^ 15).
  rewrite Z.land_comm.
  destruct (Z.testbit (Qclass q) 15) eqn:E.
  - assert (H : Z.testbit (Z.land (2 ^ 15) (Qclass q)) 15 = true).
    { rewrite Z.land_spec, E, Z.pow2_bits_true by lia. reflexivity. }
    destruct (Z.eqb_spec (Z.land (2 ^ 15) (Qclass q)) 0) as [E0|]; [|reflexivity].
    rewrite E0 in H. rewrite Z.bits_0 in H. discriminate.
  - replace (Z.land (2 ^ 15) (Qclass q)) with 0; [reflexivity|].
    symmetry. apply Z.bits_inj'. intros n Hn.
    rewrite Z.land_spec, Z.bits_0.
    destruct (Z.eq_dec n 15) as [->|Hne].
    + rewrite E. apply andb_false_r.
    + rewrite Z.pow2_bits_false by lia. reflexivity.
Qed.

Section Sends.
Variable env : Env.
Variable s0 : Server.

Lemma multicastResponse_spec msg :
  triple env s0 (multicastResponse msg)
    (fun err s evs =>
       s = s0
       /\ err = match Pack env msg with Err e => Some e | Ok _ => None end
       /\ map attempt evs = multicastOf env s0 msg).
Proof.
  unfold multicastResponse, multicastOf, multicast, log_Println.
  eapply bind_yields; [apply yields_asks|]. cbv beta.
  destruct (Pack env msg) as [buf|e].
  - eapply bind_yields; [apply yields_field; intro; reflexivity|].
    destruct (ipv4conn s0) as [c4|].
    + repeat effect.
      eapply bind_yields; [apply yields_field; intro; reflexivity|].
      destruct (ipv6conn s0) as [c6|].
      * repeat effect. apply triple_ret. auto.
      * repeat effect. apply triple_ret. auto.
    + repeat effect.
      eapply bind_yields; [apply yields_field; intro; reflexivity|].
      destruct (ipv6conn s0) as [c6|].
      * repeat effect. apply triple_ret. auto.
      * repeat effect. apply triple_ret. auto.
  - repeat effect. apply triple_ret. auto.
Qed.

Lemma unicastResponse_spec resp from :
  triple env s0 (unicastResponse resp from)
    (fun err s evs =>
       s = s0
       /\ match Pack env resp with
          | Err e => err = Some e /\ evs = []
          | Ok buf => map attempt evs = unicast s0 buf from
          end).
Proof.
  unfold unicastResponse, unicast.
  eapply bind_yields; [apply yields_asks|]. cbv beta.
  destruct (Pack env resp) as [buf|e].
  - destruct (To4 (addrIP from)).
    + eapply bind_yields; [apply yields_field; intro; reflexivity|].
      destruct (ipv4conn s0) as [c|]; simpl.
      * apply triple_WriteTo. auto.
      * apply triple_ret. auto.
    + eapply bind_yields; [apply yields_field; intro; reflexivity|].
      destruct (ipv6conn s0) as [c|]; simpl.
      * apply triple_WriteTo. auto.
      * apply triple_ret. auto.
  - apply triple_ret. auto.
Qed.

Lemma datagrams_app a b : datagrams (a ++ b) = (datagrams a ++ datagrams b)%list.
Proof. unfold datagrams. rewrite filter_app, map_app. reflexivity. Qed.

Lemma datagrams_multicast evs buf :
  map attempt evs = multicast s0 buf -> datagrams evs = multicast s0 buf.
Proof.
  unfold datagrams. intros H.
  assert (F : filter isWrite evs = evs).
  { apply forallb_filter_id. apply forallb_forall. intros x Hx.
    assert (Hin : In (attempt x) (multicast s0 buf)).
    { rewrite <- H. apply in_map. exact Hx. }
    unfold multicast in Hin.
    destruct x; try reflexivity; simpl in Hin;
      destruct (ipv4conn s0), (ipv6conn s0); simpl in Hin;
      intuition discriminate. }
  rewrite F. exact H.
Qed.

Lemma datagrams_unicast evs buf from :
  map attempt evs = unicast s0 buf from -> datagrams evs = unicast s0 buf from.
Proof.
  unfold datagrams. intros H.
  assert (F : filter isWrite evs = evs).
  { apply forallb_filter_id. apply forallb_forall. intros x Hx.
    assert (Hin : In (attempt x) (unicast s0 buf from)).
    { rewrite <- H. apply in_map. exact Hx. }
    unfold unicast in Hin.
    destruct x; try reflexivity; simpl in Hin;
      destruct (match To4 (addrIP from) with Some _ => ipv4conn s0 | None => ipv6conn s0 end);
      simpl in Hin; intuition discriminate. }
  rewrite F. exact H.
Qed.

Lemma answerQuestion_spec hq (reply : Question -> Msg -> Msg) query from err q :
  (forall q resp, yields env s0 (hq q resp) (reply q resp, None)) ->
  triple env s0 (answerQuestion hq query from err q)
    (fun _ s evs =>
       s = s0
       /\ datagrams evs = datagramsFor env s0 from (reply q (newReply query)) q
       /\ (Answer (reply q (newReply query)) = [] -> evs = [])).
Proof.
  intros Hq. unfold answerQuestion, datagramsFor.
  eapply bind_yields; [apply Hq|]. cbv beta iota.
  rewrite isUnicastQuestion_bit.
  destruct (Answer (reply q (newReply query))) as [|rr rrs] eqn:EA.
  - apply triple_ret. auto.
  - change (0 <? List.length (rr :: rrs))%nat with true. cbv iota.
    destruct (Z.testbit (Qclass q) 15).
    + eapply triple_bind; [apply unicastResponse_spec|].
      intros e s1 evs1 (-> & H).
      assert (D : datagrams evs1
                  = match Pack env (reply q (newReply query)) with
                    | Ok buf => unicast s0 buf from
                    | Err _ => []
                    end).
      { destruct (Pack env (reply q (newReply query))).
        - apply datagrams_unicast. exact H.
        - destruct H as [_ ->]. reflexivity. }
      destruct e; apply triple_ret; rewrite app_nil_r;
        (split; [reflexivity|split; [exact D|discriminate]]).
    + eapply triple_bind; [apply multicastResponse_spec|].
      intros e s1 evs1 (-> & _ & H).
      assert (D : datagrams evs1
                  = match Pack env (reply q (newReply query)) with
                    | Ok buf => multicast s0 buf
                    | Err _ => []
                    end).
      { unfold multicastOf in H. destruct (Pack env (reply q (newReply query))).
        - apply datagrams_multicast. exact H.
        - destruct evs1 as [|x [|y l]]; try discriminate.
          destruct x; try discriminate. reflexivity. }
      destruct e; apply triple_ret; rewrite app_nil_r;
        (split; [reflexivity|split; [exact D|discriminate]]).
Qed.

Lemma handleQueryWith_spec hq (reply : Question -> Msg -> Msg) query from :
  (forall q resp, yields env s0 (hq q resp) (reply q resp, None)) ->
  Answer query = [] -> Ns query = [] ->
  triple env s0 (handleQueryWith hq query from)
    (fun _ s evs =>
       s = s0
       /\ datagrams evs
          = flat_map (fun q => datagramsFor env s0 from (reply q (newReply query)) q)
                     (Questions query)
       /\ (Forall (fun q => Answer (reply q (newReply query)) = []) (Questions query)
           -> evs = [])).
Proof.
  intros Hq HA HN. unfold handleQueryWith. rewrite HA, HN. simpl.
  assert (L : forall qs err,
             triple env s0 (forEach qs err (answerQuestion hq query from))
               (fun _ s evs =>
                  s = s0
                  /\ datagrams evs
                     = flat_map (fun q => datagramsFor env s0 from
                                            (reply q (newReply query)) q) qs
                  /\ (Forall (fun q => Answer (reply q (newReply query)) = []) qs
                      -> evs = []))).
  { induction qs as [|q qs IH]; intros err; simpl.
    - apply triple_ret. auto.
    - eapply triple_bind; [apply (answerQuestion_spec hq reply); exact Hq|].
      intros a s1 evs1 (-> & D1 & N1). cbv beta.
      eapply triple_conseq; [apply IH|].
      intros b s evs (-> & D & N). split; [reflexivity|]. split.
      + rewrite datagrams_app, D1, D. reflexivity.
      + intros F. inversion F; subst. rewrite N1, N; auto. }
  destruct (Questions query) as [|q qs] eqn:EQ.
  - simpl. apply triple_ret. auto.
  - change (0 <? List.length (q :: qs))%nat with true. cbv iota. apply L.
Qed.

End Sends.

Section Dispatch.
Variable env : Env.
Variables (s0 : Server) (e0 : ServiceEntry).
Hypothesis Hs : Service' s0 = Some e0.

Lemma read_Service {B} (k : option ServiceEntry -> M B) Q :
  (forall e, triple env s0 (k (Some e)) Q) ->
  triple env s0 (bind (fld Service') k) Q.
Proof.
  intros Hk.
  eapply triple_bind
    with (Q1 := fun a s evs => (exists e, a = Some e) /\ s = s0 /\ evs = []).
  - intros st HI. destruct (Inv_service _ _ _ Hs HI) as (e & He & _).
    destruct HI as [Hb Hc]. exists (Some e), st, []. unfold fld.
    rewrite He, app_nil_r. repeat split; eauto.
  - intros a s1 evs1 ((e & ->) & -> & ->). apply Hk.
Qed.

Lemma Multi_handleQuestion_spec q resp :
  yields env s0 (Multi.handleQuestion q resp) (answerMulti e0 (ttl s0) q resp, None).
Proof.
  unfold Multi.handleQuestion, answerMulti. apply read_Service. intros _.
  read Hs. destruct (Qname q =? nameOfService (Rec e0))%string.
  { read Hs. eapply bind_yields; [apply (composeBrowsingAnswers_spec env s0 e0 Hs)|].
    apply yields_ret. }
  read Hs. destruct (Qname q =? nameOfInstance (Rec e0))%string.
  { read Hs. eapply bind_yields; [apply (Multi_composeLookupAnswers_spec env s0 e0 Hs)|].
    apply yields_ret. }
  read Hs. destruct (Qname q =? HostName e0)%string.
  { read Hs. eapply bind_yields; [apply (Multi_composeLookupAnswers_spec env s0 e0 Hs)|].
    apply yields_ret. }
  read Hs. destruct (Qname q =? nameOfType (Rec e0))%string.
  { read Hs. eapply bind_yields; [apply (serviceTypeName_spec env s0 e0 Hs)|].
    apply yields_ret. }
  apply yields_ret.
Qed.

Lemma Single_handleQuestion_spec q resp :
  yields env s0 (Single.handleQuestion q resp) (answerSingle e0 (ttl s0) q resp, None).
Proof.
  unfold Single.handleQuestion, answerSingle. apply read_Service. intros _.
  read Hs. destruct (Qname q =? nameOfService (Rec e0))%string.
  { read Hs. eapply bind_yields; [apply (composeBrowsingAnswers_spec env s0 e0 Hs)|].
    apply yields_ret. }
  read Hs. destruct (Qname q =? nameOfInstance (Rec e0))%string.
  { read Hs. eapply bind_yields; [apply (Single_composeLookupAnswers_spec env s0 e0 Hs)|].
    apply yields_ret. }
  read Hs. destruct (Qname q =? nameOfType (Rec e0))%string.
  { read Hs. eapply bind_yields; [apply (serviceTypeName_spec env s0 e0 Hs)|].
    apply yields_ret. }
  apply yields_ret.
Qed.

Lemma probeQuery_spec : yields env s0 probeQuery (probeMsg env e0 (ttl s0)).
Proof. unfold probeQuery. reads Hs. apply yields_ret. Qed.

Lemma probeRound_spec q k (x : nat) :
  triple env s0
    (err <- multicastResponse q ;;
     match err with
     | Some e => log_Println ["[ERR] bonjour: failed to send probe:"; e]
     | None => ret tt
     end ;;
     r <- asks (fun env => Intn env k 250) ;;
     time_Sleep (int64 (r * Millisecond)) ;;
     ret (S k))
    (fun a s evs => a = S k /\ s = s0 /\ map attempt evs = probeRound env s0 q k).
Proof.
  unfold probeRound, sendFailure, log_Println, time_Sleep.
  eapply triple_bind; [apply multicastResponse_spec|].
  intros err s1 evs1 (-> & -> & H). cbv beta.
  destruct (Pack env q) as [buf|e].
  - effect. eapply bind_yields; [apply yields_asks|]. cbv beta.
    effect. apply triple_ret.
    repeat split. rewrite map_app, H. reflexivity.
  - effect. eapply bind_yields; [apply yields_asks|]. cbv beta.
    effect. apply triple_ret.
    repeat split. rewrite map_app, H. reflexivity.
Qed.

Lemma probeLoop_spec q n :
  triple env s0 (probeLoop n q)
    (fun _ s evs =>
       s = s0 /\ map attempt evs = flat_map (probeRound env s0 q) (seq 0 n)).
Proof.
  unfold probeLoop.
  assert (L : forall n i k,
             triple env s0
               (forEach (seq i n) k (fun k _ =>
                  err <- multicastResponse q ;;
                  match err with
                  | Some e => log_Println ["[ERR] bonjour: failed to send probe:"; e]
                  | None => ret tt
                  end ;;
                  r <- asks (fun env => Intn env k 250) ;;
                  time_Sleep (int64 (r * Millisecond)) ;;
                  ret (S k)))
               (fun _ s evs =>
                  s = s0 /\ map attempt evs = flat_map (probeRound env s0 q) (seq k n))).
  { clear n. induction n as [|n IH]; intros i k; simpl.
    - apply triple_ret. auto.
    - eapply triple_bind; [apply (probeRound_spec q k i)|].
      intros a s1 evs1 (-> & -> & H1). cbv beta.
      eapply triple_conseq; [apply IH|].
      intros b s evs (-> & H). split; [reflexivity|].
      rewrite map_app, H1, H. reflexivity. }
  eapply triple_bind; [apply L|].
  intros a s1 evs1 (-> & H). apply triple_ret. rewrite app_nil_r. auto.
Qed.

Lemma announceLoop_spec resp n :
  triple env s0 (announceLoop n resp)
    (fun _ s evs =>
       s = s0 /\ map attempt evs = announceRounds env s0 resp n (int64 (1 * Second))).
Proof.
  unfold announceLoop.
  generalize (int64 (1 * Second)). intros t0.
  assert (L : forall n i timeout,
             triple env s0
               (forEach (seq i n) timeout (fun timeout _ =>
                  err <- multicastResponse resp ;;
                  match err with
                  | Some e =>
                      log_Println ["[ERR] bonjour: failed to send announcement:"; e]
                  | None => ret tt
                  end ;;
                  time_Sleep timeout ;;
                  ret (int64 (timeout * 2))))
               (fun _ s evs =>
                  s = s0 /\ map attempt evs = announceRounds env s0 resp n timeout)).
  { clear n. induction n as [|n IH]; intros i timeout; simpl.
    - apply triple_ret. auto.
    - unfold sendFailure, log_Println, time_Sleep.
      apply bind_bind.
      eapply triple_bind; [apply multicastResponse_spec|].
      intros err s1 evs1 (-> & -> & H1). cbv beta.
      destruct (Pack env resp) as [buf|e] eqn:EP; cbv beta iota.
      + repeat effect.
        eapply triple_conseq; [apply IH|].
        intros b s evs (-> & H). split; [reflexivity|].
        rewrite map_app, H1. simpl. rewrite H. reflexivity.
      + repeat effect.
        eapply triple_conseq; [apply IH|].
        intros b s evs (-> & H). split; [reflexivity|].
        rewrite map_app, H1. simpl. rewrite H. reflexivity. }
  eapply triple_bind; [apply L|].
  intros a s1 evs1 (-> & H). apply triple_ret. rewrite app_nil_r. auto.
Qed.

Lemma Multi_probe_spec :
  triple env s0 Multi.probe
    (fun _ s evs =>
       s = s0
       /\ map attempt evs
          = (flat_map (probeRound env s0 (probeMsg env e0 (ttl s0))) (seq 0 2)
             ++ announceRounds env s0 (lookupAnswersMulti e0 emptyResponse (ttl s0))
                  2 (int64 (1 * Second)))%list).
Proof.
  unfold Multi.probe, Multi.announcement.
  eapply bind_yields; [apply probeQuery_spec|].
  eapply triple_bind; [apply probeLoop_spec|].
  intros a s1 evs1 (-> & H1). cbv beta.
  apply bind_bind. read Hs.
  eapply bind_yields; [apply (Multi_composeLookupAnswers_spec env s0 e0 Hs)|].
  eapply triple_conseq; [apply announceLoop_spec|].
  intros b s evs (-> & H). split; [reflexivity|].
  rewrite map_app, H1, H. reflexivity.
Qed.

Lemma Single_probe_spec :
  triple env s0 Single.probe
    (fun _ s evs =>
       s = s0
       /\ map attempt evs
          = (flat_map (probeRound env s0 (probeMsg env e0 (ttl s0))) (seq 0 3)
             ++ announceRounds env s0 (lookupAnswersSingle e0 emptyResponse (ttl s0))
                  3 (int64 (1 * Second)))%list).
Proof.
  unfold Single.probe, Single.announcement.
  eapply bind_yields; [apply probeQuery_spec|].
  eapply triple_bind; [apply probeLoop_spec|].
  intros a s1 evs1 (-> & H1). cbv beta.
  apply bind_bind. read Hs.
  eapply bind_yields; [apply (Single_composeLookupAnswers_spec env s0 e0 Hs)|].
  eapply triple_conseq; [apply announceLoop_spec|].
  intros b s evs (-> & H). split; [reflexivity|].
  rewrite map_app, H1, H. reflexivity.
Qed.

End Dispatch.

Section Goodbye.
Variable env : Env.
Variables (s0 : Server) (e0 : ServiceEntry).
Hypothesis Hs : Service' s0 = Some e0.
Hypothesis Hup : shuttingDown s0 = false.

Lemma closeConn_spec {B} s c (k : unit -> M B) Q :
  triple env s (k tt)
    (fun b s' evs =>
       Q b s' (match c with Some c => [Close c] | None => [] end ++ evs)%list) ->
  triple env s (bind (closeConn c) k) Q.
Proof.
  destruct c as [c|]; simpl.
  - apply bind_emit.
  - apply bind_ret.
Qed.

Lemma shutdownWith_spec unregister msg :
  (forall s, Service' s = Some e0 ->
     ipv4conn s = ipv4conn s0 -> ipv6conn s = ipv6conn s0 ->
     triple env s unregister
       (fun _ s' evs => s' = s /\ map attempt evs = multicastOf env s0 msg)) ->
  triple env s0 (shutdownWith unregister)
    (fun err s evs =>
       err = None /\ s = set_shuttingDown s0 true
       /\ map attempt evs = (multicastOf env s0 msg ++ closes s0)%list).
Proof.
  intros Hu. unfold shutdownWith.
  eapply bind_yields; [apply yields_field; intro; reflexivity|].
  rewrite Hup.
  apply bind_assign with (s1 := set_shuttingDown s0 true).
  { intros s <- Hc. split; [reflexivity|exact Hc]. }
  eapply triple_bind.
  { apply Hu; try reflexivity. exact Hs. }
  intros a s1 evs1 (-> & H1). cbv beta.
  eapply bind_yields; [apply yields_field; intro; reflexivity|].
  apply closeConn_spec.
  eapply bind_yields; [apply yields_field; intro; reflexivity|].
  apply closeConn_spec.
  apply triple_ret. repeat split.
  rewrite map_app, H1. unfold closes. simpl.
  destruct (ipv4conn s0), (ipv6conn s0); reflexivity.
Qed.

End Goodbye.

Lemma shutdownWith_again unregister env st :
  shuttingDown (this st) = true -> shutdownWith unregister env st = Some (None, st).
Proof.
  intros H. unfold shutdownWith, bind, fld. rewrite H. reflexivity.
Qed.

Lemma blank_service s e :
  Service' s = Some e -> Service' (blankServer s) = Some (blankEntry e).
Proof. intros H. simpl. rewrite H. reflexivity. Qed.

(** From a state of the server itself. *)
Lemma run {A} env st e (m : M A) Q :
  Service' (this st) = Some e -> coherent (Rec e) = true ->
  triple env (blankServer (this st)) m Q ->
  exists a st' evs,
    m env st = Some (a, st')
    /\ trace st' = (trace st ++ evs)%list
    /\ Q a (blankServer (this st')) evs.
Proof.
  intros Hs Hc Hm.
  destruct (Hm st) as (a & st' & evs & E & _ & T & H).
  { split; [reflexivity|]. unfold coherentServer. rewrite Hs. exact Hc. }
  exists a, st', evs. auto.
Qed.

Lemma run_yields {A} env st e (m : M A) v :
  Service' (this st) = Some e -> coherent (Rec e) = true ->
  yields env (blankServer (this st)) m v ->
  exists st', m env st = Some (v, st') /\ trace st' = trace st.
Proof.
  intros Hs Hc Hm.
  destruct (run env st e m _ Hs Hc Hm) as (a & st' & evs & E & T & -> & _ & ->).
  exists st'. rewrite app_nil_r in T. auto.
Qed.


(* ------------------------------------------------------------------ *)
(** ** The names of a service record *)

(** C7, as the claim states it, fails: with an empty service and an
    empty domain [ServiceName()] is [".."], two dots in a row around an
    empty label. *)
Lemma ServiceName_of_empty_labels :
  fst (ServiceName (NewServiceRecord "" "" "")) = ".."
  /\ wellFormedName (fst (ServiceName (NewServiceRecord "" "" ""))) = false.
Proof. split; reflexivity. Qed.

(** C7, amended: when the service and the domain, once trimmed, are
    sequences of non-empty labels, [ServiceName()] has no adjacent dots
    and no empty label and ends with exactly one dot;
    [ServiceInstanceName()] is empty for an empty instance, and has the
    same three properties when the trimmed instance is a sequence of
    non-empty labels too. *)
Theorem names_well_formed (instance service domain : string) :
  cleanLabels (trimDot service) = true ->
  cleanLabels (trimDot domain) = true ->
  let r := NewServiceRecord instance service domain in
  wellFormedName (fst (ServiceName r)) = true
  /\ (instance = "" -> fst (ServiceInstanceName r) = "")
  /\ (cleanLabels (trimDot instance) = true ->
      wellFormedName (fst (ServiceInstanceName r)) = true).
Proof.
  intros Hsvc Hdom r.
  assert (N : wellFormedName (trimDot service ++ "." ++ trimDot domain ++ ".") = true).
  { apply wellFormed_cons; [exact Hsvc|]. apply wellFormed_base. exact Hdom. }
  split; [exact N|]. split.
  - intros ->. reflexivity.
  - intros Hin. unfold ServiceInstanceName. simpl.
    destruct (instance =? "")%string eqn:E.
    + apply String.eqb_eq in E. subst instance. discriminate.
    + simpl. apply wellFormed_cons; assumption.
Qed.

Lemma names_well_formed_witness :
  cleanLabels (trimDot "_http._tcp.") = true
  /\ cleanLabels (trimDot "local") = true
  /\ wellFormedName (fst (ServiceName (NewServiceRecord "My.Page" "_http._tcp." "local"))) = true.
Proof.
  split; [reflexivity|]. split; [reflexivity|].
  exact (proj1 (names_well_formed "My.Page" "_http._tcp." "local" eq_refl eq_refl)).
Defined.

(* ------------------------------------------------------------------ *)
(** ** The answers the responder composes *)

Lemma lookup_flags (e : ServiceEntry) (t : Z) :
  Forall (fun rr => cacheFlush rr = true)
         (srvRecord e flushed t :: txtRecord e flushed t :: addrRecords e flushed t)
  /\ cacheFlush (ptrRecord e t) = false
  /\ cacheFlush (dnssdRecord e t) = false.
Proof.
  split; [|split; reflexivity].
  repeat constructor. unfold addrRecords. apply Forall_app. split.
  - apply Forall_map. apply Forall_forall. reflexivity.
  - apply Forall_map. apply Forall_forall. reflexivity.
Qed.

(** C1, as the claim states it, fails on the single-interface revision:
    the one address record of the sample registration is in the
    Additional section, and the Answer section holds no address record. *)
Lemma single_lookup_addresses_are_additional :
  exists resp st',
    Single.composeLookupAnswers emptyResponse 3200 sampleEnv sampleState
    = Some (resp, st')
    /\ AddrIPv4 sampleEntry = [sampleAddr]
    /\ filter isAddress (Answer resp) = []
    /\ Extra resp = [A (mkHdr "host.local." TypeA 32769 120) sampleAddr].
Proof. eexists _, _. split; [vm_compute; reflexivity|]. repeat split. Qed.

(** C1, amended: in both revisions a lookup answer has in its Answer
    section the SRV record (priority 0, weight 0, the port as 16 bits,
    the host name) and the TXT record, both with the cache-flush bit,
    and the PTR records from ServiceName to ServiceInstanceName and from
    ServiceTypeName to ServiceName, both without it; it has one A or
    AAAA record with the cache-flush bit for each registered address,
    which the multi-interface revision puts in the Answer section and
    the single-interface revision in the Additional section. *)
Theorem lookup_answers_records env st e resp t :
  Service' (this st) = Some e -> coherent (Rec e) = true ->
  (exists st',
     Multi.composeLookupAnswers resp t env st
     = Some (appendAnswer resp
               (srvRecord e flushed t :: txtRecord e flushed t :: ptrRecord e t
                :: dnssdRecord e t :: addrRecords e flushed t), st')
     /\ trace st' = trace st)
  /\ (exists st',
        Single.composeLookupAnswers resp t env st
        = Some (appendExtra
                  (appendAnswer resp
                     [srvRecord e flushed t; txtRecord e flushed t; ptrRecord e t;
                      dnssdRecord e t])
                  (addrRecords e flushed 120), st')
        /\ trace st' = trace st)
  /\ Forall (fun rr => cacheFlush rr = true)
            (srvRecord e flushed t :: txtRecord e flushed t :: addrRecords e flushed t)
  /\ cacheFlush (ptrRecord e t) = false
  /\ cacheFlush (dnssdRecord e t) = false
  /\ (forall class t', map isAddress (addrRecords e class t')
                       = map (fun _ => true) (AddrIPv4 e ++ AddrIPv6 e)%list).
Proof.
  intros Hs Hc. split; [|split].
  - apply (run_yields env st e _ _ Hs Hc).
    apply (Multi_composeLookupAnswers_spec env _ _ (blank_service _ _ Hs)).
  - apply (run_yields env st e _ _ Hs Hc).
    apply (Single_composeLookupAnswers_spec env _ _ (blank_service _ _ Hs)).
  - destruct (lookup_flags e t) as (F & P & D). repeat split; auto.
    intros class t'. unfold addrRecords. rewrite !map_app, !map_map. reflexivity.
Qed.

Lemma lookup_answers_records_witness :
  Service' (this sampleState) = Some sampleEntry
  /\ coherent (Rec sampleEntry) = true
  /\ exists st',
       Multi.composeLookupAnswers emptyResponse 3200 sampleEnv sampleState
       = Some (appendAnswer emptyResponse
                 (srvRecord sampleEntry flushed 3200 :: txtRecord sampleEntry flushed 3200
                  :: ptrRecord sampleEntry 3200 :: dnssdRecord sampleEntry 3200
                  :: addrRecords sampleEntry flushed 3200), st').
Proof.
  split; [reflexivity|]. split; [reflexivity|].
  destruct (lookup_answers_records sampleEnv sampleState sampleEntry emptyResponse 3200
              eq_refl eq_refl) as [(st' & H & _) _].
  exists st'. exact H.
Defined.

(** C2, as the claim states it, fails on the single-interface revision:
    in the goodbye of the sample registration the address record keeps
    a TTL of 120, after four records with a TTL of 0. *)
Lemma single_goodbye_keeps_address_ttl :
  exists resp st',
    Single.goodbye sampleEnv sampleState = Some (resp, st')
    /\ map (fun rr => Ttl (Header rr)) (records resp) = [0; 0; 0; 0; 120].
Proof. eexists _, _. split; [vm_compute; reflexivity|]. reflexivity. Qed.

Lemma addrRecords_ttl e class t :
  Forall (fun rr => Ttl (Header rr) = t) (addrRecords e class t).
Proof.
  unfold addrRecords. apply Forall_app. split.
  - apply Forall_map. apply Forall_forall. reflexivity.
  - apply Forall_map. apply Forall_forall. reflexivity.
Qed.

(** C2, amended: in the multi-interface revision every record that
    lookup-answer composition with a TTL [t] adds carries the TTL [t],
    the address records included, so that every record of its goodbye
    has a TTL of 0; in the single-interface revision the SRV, TXT and
    PTR records carry [t] and every address record carries 120,
    whatever [t] is. *)
Theorem lookup_answers_ttl env st e resp t :
  Service' (this st) = Some e -> coherent (Rec e) = true ->
  (exists r st' new,
     Multi.composeLookupAnswers resp t env st = Some (r, st')
     /\ Answer r = (Answer resp ++ new)%list /\ Ns r = Ns resp /\ Extra r = Extra resp
     /\ Forall (fun rr => Ttl (Header rr) = t) new)
  /\ (exists r st',
        Multi.goodbye env st = Some (r, st')
        /\ Forall (fun rr => Ttl (Header rr) = 0) (records r))
  /\ (exists r st' new addrs,
        Single.composeLookupAnswers resp t env st = Some (r, st')
        /\ Answer r = (Answer resp ++ new)%list /\ Ns r = Ns resp
        /\ Extra r = (Extra resp ++ addrs)%list
        /\ Forall (fun rr => Ttl (Header rr) = t) new
        /\ Forall (fun rr => isAddress rr = false) new
        /\ Forall (fun rr => Ttl (Header rr) = 120) addrs
        /\ map isAddress addrs = map (fun _ => true) (AddrIPv4 e ++ AddrIPv6 e)%list).
Proof.
  intros Hs Hc. pose proof (blank_service _ _ Hs) as Hb.
  destruct (run_yields env st e _ _ Hs Hc
              (Multi_composeLookupAnswers_spec env _ _ Hb resp t)) as (st1 & E1 & _).
  destruct (run_yields env st e _ _ Hs Hc
              (Single_composeLookupAnswers_spec env _ _ Hb resp t)) as (st2 & E2 & _).
  destruct (run_yields env st e _ _ Hs Hc
              (Multi_composeLookupAnswers_spec env _ _ Hb emptyResponse 0))
    as (st3 & E3 & _).
  split; [|split].
  - eexists _, st1, _. split; [exact E1|]. repeat split.
    repeat constructor. apply addrRecords_ttl.
  - eexists _, st3. split; [exact E3|]. unfold records. simpl.
    repeat constructor. rewrite app_nil_r. apply addrRecords_ttl.
  - eexists _, st2, _, _. split; [exact E2|]. repeat split.
    + repeat constructor.
    + repeat constructor.
    + apply addrRecords_ttl.
    + unfold addrRecords. rewrite !map_app, !map_map. reflexivity.
Qed.

Lemma lookup_answers_ttl_witness :
  Service' (this sampleState) = Some sampleEntry
  /\ coherent (Rec sampleEntry) = true
  /\ exists r st',
       Multi.goodbye sampleEnv sampleState = Some (r, st')
       /\ Forall (fun rr => Ttl (Header rr) = 0) (records r).
Proof.
  split; [reflexivity|]. split; [reflexivity|].
  exact (proj1 (proj2 (lookup_answers_ttl sampleEnv sampleState sampleEntry
                         emptyResponse 3200 eq_refl eq_refl))).
Defined.

(** C5: a browsing answer has the one PTR record from ServiceName to
    ServiceInstanceName in its Answer section and, in its Additional
    section, the SRV record (priority 0, weight 0, the port as 16 bits,
    the host name), the TXT record and one A or AAAA record for each
    registered address; no record of it has the cache-flush bit.  The
    reply is the one [handleQuery] prepares, with both sections empty. *)
Theorem browsing_answers_records env st e query t :
  Service' (this st) = Some e -> coherent (Rec e) = true ->
  exists r st',
    composeBrowsingAnswers (newReply query) t env st = Some (r, st')
    /\ trace st' = trace st
    /\ Answer r
       = [PTR (mkHdr (nameOfService (Rec e)) TypePTR ClassINET t)
              (nameOfInstance (Rec e))]
    /\ Extra r
       = SRV (mkHdr (nameOfInstance (Rec e)) TypeSRV ClassINET t)
             0 0 (uint16 (Port e)) (HostName e)
         :: TXT (mkHdr (nameOfInstance (Rec e)) TypeTXT ClassINET t) (Text e)
         :: (map (A (mkHdr (HostName e) TypeA ClassINET t)) (AddrIPv4 e)
             ++ map (AAAA (mkHdr (HostName e) TypeAAAA ClassINET t)) (AddrIPv6 e))%list
    /\ Ns r = []
    /\ Forall (fun rr => cacheFlush rr = false) (records r).
Proof.
  intros Hs Hc.
  destruct (run_yields env st e (composeBrowsingAnswers (newReply query) t)
              (browsingAnswers e (newReply query) t) Hs Hc) as (st' & E & T).
  { apply (composeBrowsingAnswers_spec env _ _ (blank_service _ _ Hs)). }
  eexists _, st'. split; [exact E|]. split; [exact T|]. repeat split.
  unfold records. simpl. repeat constructor.
  apply Forall_app. split.
  - apply Forall_map. apply Forall_forall. reflexivity.
  - apply Forall_map. apply Forall_forall. reflexivity.
Qed.

Lemma browsing_answers_records_witness :
  Service' (this sampleState) = Some sampleEntry
  /\ coherent (Rec sampleEntry) = true
  /\ exists r st',
       composeBrowsingAnswers (newReply (sampleQuery "_http._tcp.local." 1)) 3200
         sampleEnv sampleState = Some (r, st')
       /\ Forall (fun rr => cacheFlush rr = false) (records r).
Proof.
  split; [reflexivity|]. split; [reflexivity|].
  destruct (browsing_answers_records sampleEnv sampleState sampleEntry
              (sampleQuery "_http._tcp.local." 1) 3200 eq_refl eq_refl)
    as (r & st' & E & _ & _ & _ & _ & F).
  exists r, st'. split; assumption.
Defined.

(* ------------------------------------------------------------------ *)
(** ** Queries *)

Lemma Multi_handleQuery_spec env st e query from :
  Service' (this st) = Some e -> Answer query = [] -> Ns query = [] ->
  triple env (blankServer (this st)) (Multi.handleQuery query from)
    (fun _ s evs =>
       s = blankServer (this st)
       /\ datagrams evs
          = flat_map (fun q => datagramsFor env (blankServer (this st)) from
                                 (answerMulti (blankEntry e) (ttl (this st)) q
                                    (newReply query)) q)
                     (Questions query)
       /\ (Forall (fun q => Answer (answerMulti (blankEntry e) (ttl (this st)) q
                                      (newReply query)) = []) (Questions query)
           -> evs = [])).
Proof.
  intros Hs HA HN.
  apply (handleQueryWith_spec env _ Multi.handleQuestion
           (answerMulti (blankEntry e) (ttl (this st)))); auto.
  intros q0 resp0. apply (Multi_handleQuestion_spec env _ _ (blank_service _ _ Hs)).
Qed.

Lemma Single_handleQuery_spec env st e query from :
  Service' (this st) = Some e -> Answer query = [] -> Ns query = [] ->
  triple env (blankServer (this st)) (Single.handleQuery query from)
    (fun _ s evs =>
       s = blankServer (this st)
       /\ datagrams evs
          = flat_map (fun q => datagramsFor env (blankServer (this st)) from
                                 (answerSingle (blankEntry e) (ttl (this st)) q
                                    (newReply query)) q)
                     (Questions query)
       /\ (Forall (fun q => Answer (answerSingle (blankEntry e) (ttl (this st)) q
                                      (newReply query)) = []) (Questions query)
           -> evs = [])).
Proof.
  intros Hs HA HN.
  apply (handleQueryWith_spec env _ Single.handleQuestion
           (answerSingle (blankEntry e) (ttl (this st)))); auto.
  intros q0 resp0. apply (Single_handleQuestion_spec env _ _ (blank_service _ _ Hs)).
Qed.

(** C3, as the claim states it, fails on the single-interface revision:
    a question on the registered host name gets no answer, and nothing
    is sent. *)
Lemma single_host_question_unanswered :
  HostName sampleEntry = "host.local."
  /\ exists st',
       Single.handleQuery (sampleQuery "host.local." 1) sampleFrom sampleEnv sampleState
       = Some (None, st')
       /\ trace st' = [].
Proof. split; [reflexivity|]. eexists. split; vm_compute; reflexivity. Qed.

(** C3, amended: the question name is compared with ServiceName,
    ServiceInstanceName, the host name (in the multi-interface revision
    only) and ServiceTypeName in this order, and the first that equals
    it decides: browsing answers, lookup answers, lookup answers, the
    one PTR record from ServiceTypeName to ServiceName; a name that
    equals none of them gets no answer, and a query of such questions
    no response. *)
Theorem question_dispatch env st e q resp :
  Service' (this st) = Some e -> coherent (Rec e) = true ->
  let name := Qname q in
  let t := ttl (this st) in
  (exists st',
     Multi.handleQuestion q resp env st
     = Some ((if (name =? nameOfService (Rec e))%string then browsingAnswers e resp t
              else if (name =? nameOfInstance (Rec e))%string
                   then lookupAnswersMulti e resp t
              else if (name =? HostName e)%string then lookupAnswersMulti e resp t
              else if (name =? nameOfType (Rec e))%string
                   then appendAnswer resp
                          [PTR (mkHdr (nameOfType (Rec e)) TypePTR ClassINET t)
                               (nameOfService (Rec e))]
              else resp, None), st')
     /\ trace st' = trace st)
  /\ (exists st',
        Single.handleQuestion q resp env st
        = Some ((if (name =? nameOfService (Rec e))%string then browsingAnswers e resp t
                 else if (name =? nameOfInstance (Rec e))%string
                      then lookupAnswersSingle e resp t
                 else if (name =? nameOfType (Rec e))%string
                      then appendAnswer resp
                             [PTR (mkHdr (nameOfType (Rec e)) TypePTR ClassINET t)
                                  (nameOfService (Rec e))]
                 else resp, None), st')
        /\ trace st' = trace st)
  /\ (forall query from,
        Answer query = [] -> Ns query = [] ->
        Forall (fun q => Qname q <> nameOfService (Rec e)
                         /\ Qname q <> nameOfInstance (Rec e)
                         /\ Qname q <> HostName e
                         /\ Qname q <> nameOfType (Rec e)) (Questions query) ->
        exists err st',
          Multi.handleQuery query from env st = Some (err, st')
          /\ trace st' = trace st)
  /\ (forall query from,
        Answer query = [] -> Ns query = [] ->
        Forall (fun q => Qname q <> nameOfService (Rec e)
                         /\ Qname q <> nameOfInstance (Rec e)
                         /\ Qname q <> nameOfType (Rec e)) (Questions query) ->
        exists err st',
          Single.handleQuery query from env st = Some (err, st')
          /\ trace st' = trace st).
Proof.
  intros Hs Hc name t. split; [|split; [|split]].
  - apply (run_yields env st e _ _ Hs Hc).
    apply (Multi_handleQuestion_spec env _ _ (blank_service _ _ Hs)).
  - apply (run_yields env st e _ _ Hs Hc).
    apply (Single_handleQuestion_spec env _ _ (blank_service _ _ Hs)).
  - intros query from HA HN HQ.
    destruct (run env st e _ _ Hs Hc (Multi_handleQuery_spec env st e query from Hs HA HN))
      as (err & st' & evs & E & T & _ & _ & N).
    exists err, st'. split; [exact E|]. rewrite T, N, app_nil_r; [reflexivity|].
    eapply Forall_impl; [|exact HQ]. intros q0 (N1 & N2 & N3 & N4).
    change (answerMulti (blankEntry e) (ttl (this st)) q0 (newReply query))
      with (answerMulti e (ttl (this st)) q0 (newReply query)).
    unfold answerMulti.
    apply String.eqb_neq in N1, N2, N3, N4. rewrite N1, N2, N3, N4. reflexivity.
  - intros query from HA HN HQ.
    destruct (run env st e _ _ Hs Hc (Single_handleQuery_spec env st e query from Hs HA HN))
      as (err & st' & evs & E & T & _ & _ & N).
    exists err, st'. split; [exact E|]. rewrite T, N, app_nil_r; [reflexivity|].
    eapply Forall_impl; [|exact HQ]. intros q0 (N1 & N2 & N4).
    change (answerSingle (blankEntry e) (ttl (this st)) q0 (newReply query))
      with (answerSingle e (ttl (this st)) q0 (newReply query)).
    unfold answerSingle.
    apply String.eqb_neq in N1, N2, N4. rewrite N1, N2, N4. reflexivity.
Qed.

Lemma question_dispatch_witness :
  Service' (this sampleState) = Some sampleEntry
  /\ coherent (Rec sampleEntry) = true
  /\ exists st',
       Multi.handleQuestion (mkQuestion "host.local." TypeA 1) emptyResponse
         sampleEnv sampleState
       = Some ((lookupAnswersMulti sampleEntry emptyResponse 3200, None), st').
Proof.
  split; [reflexivity|]. split; [reflexivity|].
  destruct (question_dispatch sampleEnv sampleState sampleEntry
              (mkQuestion "host.local." TypeA 1) emptyResponse eq_refl eq_refl)
    as [(st' & H & _) _].
  exists st'. exact H.
Defined.

Lemma unicast_to_from s buf from :
  Forall (fun ev => exists c, ev = Write c buf from None) (unicast s buf from).
Proof.
  unfold unicast.
  destruct (match To4 (addrIP from) with Some _ => ipv4conn s | None => ipv6conn s end);
    repeat constructor. eauto.
Qed.

Lemma multicast_to_groups s buf :
  Forall (fun ev => exists c to, ev = Write c buf to None
                                 /\ (to = ipv4Addr \/ to = ipv6Addr))
         (multicast s buf).
Proof.
  unfold multicast. destruct (ipv4conn s), (ipv6conn s); repeat constructor; eauto.
Qed.

(** C6: a query with a non-empty Answer or Authority section gets no
    response.  Of any other query each question whose composed reply
    has a non-empty Answer section is answered with that reply: by one
    datagram to the source address of the query when bit 15 (0x8000) of
    its QCLASS is set, and by the datagrams of a multicast, to the two
    groups, when it is not; the other questions are not answered.  (A
    reply that the codec cannot pack is not sent, and a datagram needs
    the socket of its family.) *)
Theorem query_responses env st e query from :
  Service' (this st) = Some e -> coherent (Rec e) = true ->
  (Answer query <> [] \/ Ns query <> [] ->
   Multi.handleQuery query from env st = Some (None, st))
  /\ (Answer query = [] -> Ns query = [] ->
      exists err st' evs,
        Multi.handleQuery query from env st = Some (err, st')
        /\ trace st' = (trace st ++ evs)%list
        /\ datagrams evs
           = flat_map
               (fun q =>
                  let reply := answerMulti e (ttl (this st)) q (newReply query) in
                  match Answer reply with
                  | [] => []
                  | _ :: _ =>
                      match Pack env reply with
                      | Err _ => []
                      | Ok buf =>
                          if Z.testbit (Qclass q) 15 then unicast (this st) buf from
                          else multicast (this st) buf
                      end
                  end)
               (Questions query))
  /\ (forall q, isUnicastQuestion q = Z.testbit (Qclass q) 15)
  /\ (forall buf,
        Forall (fun ev => exists c, ev = Write c buf from None)
               (unicast (this st) buf from)
        /\ Forall (fun ev => exists c to, ev = Write c buf to None
                                          /\ (to = ipv4Addr \/ to = ipv6Addr))
                  (multicast (this st) buf)).
Proof.
  intros Hs Hc. split; [|split; [|split]].
  - intros H. unfold Multi.handleQuery, handleQueryWith.
    destruct (Answer query) as [|a l]; [|reflexivity].
    destruct (Ns query) as [|n l]; [|reflexivity].
    destruct H as [H|H]; congruence.
  - intros HA HN.
    destruct (run env st e _ _ Hs Hc (Multi_handleQuery_spec env st e query from Hs HA HN))
      as (err & st' & evs & E & T & _ & D & _).
    exists err, st', evs. split; [exact E|]. split; [exact T|]. exact D.
  - exact isUnicastQuestion_bit.
  - intros buf. split; [apply unicast_to_from|apply multicast_to_groups].
Qed.

(** A browse with a QCLASS of 0x8001 from 192.0.2.10 gets one datagram,
    to that address. *)
Lemma query_responses_witness :
  Service' (this sampleState) = Some sampleEntry
  /\ coherent (Rec sampleEntry) = true
  /\ Answer (sampleQuery "_http._tcp.local." 32769) = []
  /\ Ns (sampleQuery "_http._tcp.local." 32769) = []
  /\ exists err st' evs,
       Multi.handleQuery (sampleQuery "_http._tcp.local." 32769) sampleFrom
         sampleEnv sampleState = Some (err, st')
       /\ trace st' = ([] ++ evs)%list
       /\ datagrams evs = [Write (mkUDPConn 3) [Byte.x84] sampleFrom None].
Proof.
  split; [reflexivity|]. split; [reflexivity|].
  split; [reflexivity|]. split; [reflexivity|].
  exact (proj1 (proj2 (query_responses sampleEnv sampleState sampleEntry
                         (sampleQuery "_http._tcp.local." 32769) sampleFrom
                         eq_refl eq_refl)) eq_refl eq_refl).
Defined.

(* ------------------------------------------------------------------ *)
(** ** Probing and announcing *)

Lemma Intn_bound env k n : 0 < n -> 0 <= Intn env k n < n.
Proof. intros H. unfold Intn. apply Z.mod_pos_bound. exact H. Qed.

Lemma int64_small x : 0 <= x < 2 ^ 63 -> int64 x = x.
Proof.
  intros H. unfold int64.
  rewrite Z.mod_small; lia.
Qed.

Lemma jitter env k : int64 (Intn env k 250 * Millisecond) = Intn env k 250 * Millisecond.
Proof.
  apply int64_small. pose proof (Intn_bound env k 250 eq_refl) as B.
  unfold Millisecond. lia.
Qed.

(** C4, as the claim states it, fails on the single-interface revision:
    with its IPv4 socket alone the sample registration writes the probe
    (first byte 00) three times and the announcement (first byte 84)
    three times, the last pause being of four seconds. *)
Lemma single_probe_sends_three :
  exists st',
    Single.probe sampleEnv sampleState4 = Some (tt, st')
    /\ trace st'
       = [Write (mkUDPConn 3) [Byte.x00] ipv4Addr None; Sleep 13000000;
          Write (mkUDPConn 3) [Byte.x00] ipv4Addr None; Sleep 13000000;
          Write (mkUDPConn 3) [Byte.x00] ipv4Addr None; Sleep 13000000;
          Write (mkUDPConn 3) [Byte.x84] ipv4Addr None; Sleep 1000000000;
          Write (mkUDPConn 3) [Byte.x84] ipv4Addr None; Sleep 2000000000;
          Write (mkUDPConn 3) [Byte.x84] ipv4Addr None; Sleep 4000000000].
Proof. eexists. split; vm_compute; reflexivity. Qed.

(** C4, amended: the driver multicasts the probe and pauses after each
    send for the drawn number of milliseconds, a number from 0 to 249,
    then multicasts the lookup-answer announcement and pauses after each
    send, for one second after the first and twice the pause before
    after each other; the multi-interface revision sends each of the two
    2 times, the single-interface revision 3 times.  (How the numbers
    drawn are distributed is not part of the model.) *)
Theorem probe_schedule env st e :
  Service' (this st) = Some e -> coherent (Rec e) = true ->
  let s := this st in
  let q := probeMsg env e (ttl s) in
  let probe := (multicastOf env s q
                ++ sendFailure env "[ERR] bonjour: failed to send probe:" q)%list in
  let announce a :=
    (multicastOf env s a
     ++ sendFailure env "[ERR] bonjour: failed to send announcement:" a)%list in
  (exists st' evs,
     Multi.probe env st = Some (tt, st')
     /\ trace st' = (trace st ++ evs)%list
     /\ map attempt evs
        = (probe ++ [Sleep (Intn env 0 250 * Millisecond)]
           ++ probe ++ [Sleep (Intn env 1 250 * Millisecond)]
           ++ announce (lookupAnswersMulti e emptyResponse (ttl s)) ++ [Sleep (1 * Second)]
           ++ announce (lookupAnswersMulti e emptyResponse (ttl s)) ++ [Sleep (2 * Second)]
          )%list)
  /\ (exists st' evs,
        Single.probe env st = Some (tt, st')
        /\ trace st' = (trace st ++ evs)%list
        /\ map attempt evs
           = (probe ++ [Sleep (Intn env 0 250 * Millisecond)]
              ++ probe ++ [Sleep (Intn env 1 250 * Millisecond)]
              ++ probe ++ [Sleep (Intn env 2 250 * Millisecond)]
              ++ announce (lookupAnswersSingle e emptyResponse (ttl s))
              ++ [Sleep (1 * Second)]
              ++ announce (lookupAnswersSingle e emptyResponse (ttl s))
              ++ [Sleep (2 * Second)]
              ++ announce (lookupAnswersSingle e emptyResponse (ttl s))
              ++ [Sleep (4 * Second)])%list)
  /\ (forall k, 0 <= Intn env k 250 < 250)
  /\ Multi.multicastRepitions = 2.
Proof.
  intros Hs Hc s q probe announce.
  pose proof (blank_service _ _ Hs) as Hb.
  split; [|split; [|split]].
  - destruct (run env st e _ _ Hs Hc (Multi_probe_spec env _ _ Hb))
      as ([] & st' & evs & E & T & _ & H).
    exists st', evs. split; [exact E|]. split; [exact T|].
    rewrite H. cbn [flat_map seq announceRounds]. unfold probeRound.
    rewrite !jitter. subst probe announce q s. cbv beta.
    rewrite <- !app_assoc. reflexivity.
  - destruct (run env st e _ _ Hs Hc (Single_probe_spec env _ _ Hb))
      as ([] & st' & evs & E & T & _ & H).
    exists st', evs. split; [exact E|]. split; [exact T|].
    rewrite H. cbn [flat_map seq announceRounds]. unfold probeRound.
    rewrite !jitter. subst probe announce q s. cbv beta.
    rewrite <- !app_assoc. reflexivity.
  - intros k. apply Intn_bound. reflexivity.
  - reflexivity.
Qed.

Lemma probe_schedule_witness :
  Service' (this sampleState4) = Some sampleEntry
  /\ coherent (Rec sampleEntry) = true
  /\ exists st' evs,
       Multi.probe sampleEnv sampleState4 = Some (tt, st')
       /\ trace st' = ([] ++ evs)%list
       /\ map attempt evs
          = [Write (mkUDPConn 3) [Byte.x00] ipv4Addr None; Sleep 13000000;
             Write (mkUDPConn 3) [Byte.x00] ipv4Addr None; Sleep 13000000;
             Write (mkUDPConn 3) [Byte.x84] ipv4Addr None; Sleep 1000000000;
             Write (mkUDPConn 3) [Byte.x84] ipv4Addr None; Sleep 2000000000].
Proof.
  split; [reflexivity|]. split; [reflexivity|].
  exact (proj1 (probe_schedule sampleEnv sampleState4 sampleEntry eq_refl eq_refl)).
Defined.

(** C8 fails on the code: [multicastResponse] drops what its two writes
    return.  In a world where every write fails, the multicast of the
    probe from the sample registration records the failed write, returns
    no error and logs nothing; the whole of [probe()] makes four failed
    writes and logs nothing.  The failed write of a unicast response is
    logged by [recv] when its question is the last of the packet, and is
    lost when another question follows, as [handleQuery] assigns the
    result of [handleQuestion] to the same variable. *)
Theorem multicast_write_failure_unreported :
  (exists st',
     multicastResponse (probeMsg failingEnv sampleEntry 3200) failingEnv sampleState4
     = Some (None, st')
     /\ trace st'
        = [Write (mkUDPConn 3) [Byte.x00] ipv4Addr (Some "network is unreachable")])
  /\ (exists st',
        Multi.probe failingEnv sampleState4 = Some (tt, st')
        /\ filter isLog (trace st') = []
        /\ map (fun ev => match ev with Write _ _ _ err => err | _ => None end)
               (filter isWrite (trace st'))
           = [Some "network is unreachable"; Some "network is unreachable";
              Some "network is unreachable"; Some "network is unreachable"])
  /\ (exists st',
        Multi.recv (Some (mkUDPConn 3)) [ReadOk [Byte.x01] sampleFrom]
          failingEnv sampleState4 = Some (tt, st')
        /\ trace st'
           = [Write (mkUDPConn 3) [Byte.x84] sampleFrom (Some "network is unreachable");
              Log ["[ERR] bonjour: Failed to handle query: %v";
                   "network is unreachable"]])
  /\ (exists st',
        Multi.recv (Some (mkUDPConn 3)) [ReadOk [Byte.x02] sampleFrom]
          failingEnv sampleState4 = Some (tt, st')
        /\ trace st'
           = [Write (mkUDPConn 3) [Byte.x84] sampleFrom
                (Some "network is unreachable")]).
Proof.
  split; [|split; [|split]].
  - eexists. split; vm_compute; reflexivity.
  - eexists. split; [vm_compute; reflexivity|]. split; reflexivity.
  - eexists. split; vm_compute; reflexivity.
  - eexists. split; vm_compute; reflexivity.
Qed.

(* ------------------------------------------------------------------ *)
(** ** Shutdown *)

Lemma Multi_unregister_spec env s0 s e0 :
  Service' s = Some e0 -> ipv4conn s = ipv4conn s0 -> ipv6conn s = ipv6conn s0 ->
  triple env s Multi.unregister
    (fun _ s' evs =>
       s' = s
       /\ map attempt evs = multicastOf env s0 (lookupAnswersMulti e0 emptyResponse 0)).
Proof.
  intros Hs H4 H6. unfold Multi.unregister, Multi.goodbye.
  eapply bind_yields; [apply (Multi_composeLookupAnswers_spec env s e0 Hs)|].
  eapply triple_conseq; [apply multicastResponse_spec|].
  intros err s' evs (-> & _ & H). split; [reflexivity|].
  rewrite H. unfold multicastOf, multicast. rewrite H4, H6. reflexivity.
Qed.

(** C9: the first call of [shutdown] sets the flag, multicasts the
    goodbye (the lookup answers with a TTL of 0), closes the sockets the
    server has and returns no error; a call on a server whose flag is
    set returns no error and leaves the server and the world as they
    are, so the second call and every later one do nothing. *)
Theorem shutdown_once env st e :
  Service' (this st) = Some e -> coherent (Rec e) = true ->
  shuttingDown (this st) = false ->
  (exists st1 evs,
     Multi.shutdown env st = Some (None, st1)
     /\ shuttingDown (this st1) = true
     /\ ipv4conn (this st1) = ipv4conn (this st)
     /\ ipv6conn (this st1) = ipv6conn (this st)
     /\ trace st1 = (trace st ++ evs)%list
     /\ map attempt evs
        = (multicastOf env (this st) (lookupAnswersMulti e emptyResponse 0)
           ++ closes (this st))%list
     /\ Multi.shutdown env st1 = Some (None, st1))
  /\ (forall env' st2,
        shuttingDown (this st2) = true -> Multi.shutdown env' st2 = Some (None, st2)).
Proof.
  intros Hs Hc Hup.
  assert (Again : forall env' st2,
             shuttingDown (this st2) = true ->
             Multi.shutdown env' st2 = Some (None, st2)).
  { intros env' st2 H. apply shutdownWith_again. exact H. }
  split; [|exact Again].
  pose proof (blank_service _ _ Hs) as Hb.
  destruct (run env st e Multi.shutdown _ Hs Hc
              (shutdownWith_spec env (blankServer (this st)) (blankEntry e) Hb Hup
                 Multi.unregister (lookupAnswersMulti (blankEntry e) emptyResponse 0)
                 (fun s H H4 H6 => Multi_unregister_spec env _ s _ H H4 H6)))
    as (err & st1 & evs & E & T & -> & B & H).
  assert (D : shuttingDown (this st1) = true).
  { exact (f_equal shuttingDown B). }
  exists st1, evs. split; [exact E|]. split; [exact D|].
  split; [exact (f_equal ipv4conn B)|]. split; [exact (f_equal ipv6conn B)|].
  split; [exact T|]. split; [exact H|]. apply Again. exact D.
Qed.

Lemma shutdown_once_witness :
  Service' (this sampleState) = Some sampleEntry
  /\ coherent (Rec sampleEntry) = true
  /\ shuttingDown (this sampleState) = false
  /\ exists st1 evs,
       Multi.shutdown sampleEnv sampleState = Some (None, st1)
       /\ trace st1 = ([] ++ evs)%list
       /\ map attempt evs
          = [Write (mkUDPConn 3) [Byte.x84] ipv4Addr None;
             Write (mkUDPConn 4) [Byte.x84] ipv6Addr None;
             Close (mkUDPConn 3); Close (mkUDPConn 4)]
       /\ Multi.shutdown sampleEnv st1 = Some (None, st1).
Proof.
  split; [reflexivity|]. split; [reflexivity|]. split; [reflexivity|].
  destruct (shutdown_once sampleEnv sampleState sampleEntry eq_refl eq_refl eq_refl)
    as [(st1 & evs & E & _ & _ & _ & T & H & A) _].
  exists st1, evs. repeat split; assumption.
Defined.

(* ------------------------------------------------------------------ *)
(** ** Registration and the port *)

Lemma selectAddr_port env p l e logs :
  fold_left (Multi.selectAddr env) l (set_Port e p, logs)
  = let (e', logs') := fold_left (Multi.selectAddr env) l (e, logs) in
    (set_Port e' p, logs').
Proof.
  revert e logs. induction l as [|a l IH]; intros e logs; simpl; [reflexivity|].
  destruct a as [ip mask|ip]; [|apply IH].
  destruct (IsLoopback env ip); simpl; [apply IH|].
  destruct (To4 ip); [apply (IH (set_AddrIPv4 e (AddrIPv4 e ++ [ip])%list))|].
  destruct (To16 ip); [|apply IH].
  destruct (IsGlobalUnicast env ip); [|apply IH].
  apply (IH (set_AddrIPv6 e (AddrIPv6 e ++ [ip])%list)).
Qed.

Ltac entry_fields :=
  cbn [Instance Service Domain Rec Port HostName Text TTL AddrIPv4 AddrIPv6
       set_Port set_Text NewServiceEntry NewServiceRecord set_Domain set_Rec
       set_HostName serviceName serviceInstanceName serviceTypeName].

Lemma Register_port env instance service domain port text ifaces ttl :
  port <> 0 ->
  Multi.Register env instance service domain port text ifaces ttl
  = withPort port (Multi.Register env instance service domain 1 text ifaces ttl).
Proof.
  intros Hp. apply Z.eqb_neq in Hp. unfold Multi.Register.
  entry_fields.
  destruct (instance =? "")%string; [reflexivity|].
  destruct (service =? "")%string; [reflexivity|].
  destruct (domain =? "")%string; entry_fields; rewrite Hp;
    change (1 =? 0) with false; cbv iota;
    change ("" =? "")%string with true; cbv iota;
    (destruct (Hostname env) as [h|err]; [|reflexivity]);
    match goal with
    | |- context [if ?c then InterfaceAddrs env else _] =>
        destruct (if c then InterfaceAddrs env else _) as [iaddrs|err];
        [|reflexivity]
    end;
    match goal with
    | |- context [negb ?c] => destruct (negb c)
    end;
    match goal with
    | |- ?lhs = withPort _ ?rhs =>
        match rhs with
        | context [fold_left (Multi.selectAddr env) ?l (?x1, [])] =>
            match lhs with
            | context [fold_left (Multi.selectAddr env) l (?xp, [])] =>
                change xp with (set_Port x1 port);
                rewrite (selectAddr_port env port l x1 [])
            end
        end
    end;
    match goal with
    | |- context [fold_left (Multi.selectAddr env) ?l ?x] =>
        destruct (fold_left (Multi.selectAddr env) l x) as [entry logs]
    end;
    entry_fields;
    match goal with
    | |- context [AddrIPv4 ?e] => destruct (AddrIPv4 e), (AddrIPv6 e)
    end;
    try reflexivity;
    destruct (Multi.newServer env ifaces); reflexivity.
Qed.

Lemma selectAddr_keeps env l e logs :
  Rec (fst (fold_left (Multi.selectAddr env) l (e, logs))) = Rec e
  /\ Port (fst (fold_left (Multi.selectAddr env) l (e, logs))) = Port e.
Proof.
  revert e logs. induction l as [|a l IH]; intros e logs; simpl; [auto|].
  destruct a as [ip mask|ip]; [|apply IH].
  destruct (IsLoopback env ip); simpl; [apply IH|].
  destruct (To4 ip); [apply (IH (set_AddrIPv4 e (AddrIPv4 e ++ [ip])%list))|].
  destruct (To16 ip); [|apply IH].
  destruct (IsGlobalUnicast env ip); [|apply IH].
  apply (IH (set_AddrIPv6 e (AddrIPv6 e ++ [ip])%list)).
Qed.

Lemma Register_service env instance service domain port text ifaces ttl s logs :
  Multi.Register env instance service domain port text ifaces ttl = (Ok s, logs) ->
  exists e, Service' s = Some e /\ Port e = port /\ coherent (Rec e) = true.
Proof.
  unfold Multi.Register. entry_fields.
  destruct (instance =? "")%string; [discriminate|].
  destruct (service =? "")%string; [discriminate|].
  destruct (domain =? "")%string; entry_fields;
    (destruct (port =? 0); [discriminate|]);
    change ("" =? "")%string with true; cbv iota;
    (destruct (Hostname env) as [h|err]; [|discriminate]);
    match goal with
    | |- context [if ?c then InterfaceAddrs env else _] =>
        destruct (if c then InterfaceAddrs env else _) as [iaddrs|err];
        [|discriminate]
    end;
    match goal with
    | |- context [negb ?c] => destruct (negb c)
    end;
    match goal with
    | |- context [fold_left (Multi.selectAddr env) ?l (?x, [])] =>
        pose proof (selectAddr_keeps env l x []) as K;
        destruct (fold_left (Multi.selectAddr env) l (x, [])) as [entry logs']
    end;
    simpl in K; destruct K as [KR KP];
    (destruct (AddrIPv4 entry), (AddrIPv6 entry); try discriminate);
    (destruct (Multi.newServer env ifaces) as [s1|err]; [|discriminate]);
    intros H; injection H as <- _;
    exists entry; rewrite KR, KP;
    (destruct (negb (ttl =? 0)); repeat split).
Qed.

Lemma srvPorts_app a b : srvPorts (a ++ b) = (srvPorts a ++ srvPorts b)%list.
Proof. unfold srvPorts. apply flat_map_app. Qed.

Lemma srvPorts_addrRecords e class t : srvPorts (addrRecords e class t) = [].
Proof.
  unfold addrRecords. rewrite srvPorts_app.
  assert (N : forall (f : IP -> RR) l,
             (forall ip, srvPorts [f ip] = []) -> srvPorts (map f l) = []).
  { intros f l Hf. induction l as [|x l IH]; [reflexivity|].
    change (map f (x :: l)) with ([f x] ++ map f l)%list.
    rewrite srvPorts_app, Hf, IH. reflexivity. }
  rewrite !N; reflexivity.
Qed.

(** C10: [Register] rejects a port of 0 and nothing else about the
    port: with any other port it does what it does with port 1, and
    stores the port given.  In the SRV record of the browsing answers,
    of the lookup answers and of the authority section of the probe the
    port is the stored port modulo 2^16. *)
Theorem srv_port_modulo env :
  (forall instance service domain port text ifaces ttl,
     port <> 0 ->
     Multi.Register env instance service domain port text ifaces ttl
     = withPort port (Multi.Register env instance service domain 1 text ifaces ttl))
  /\ (forall instance service domain port text ifaces ttl s logs,
        Multi.Register env instance service domain port text ifaces ttl = (Ok s, logs) ->
        exists e, Service' s = Some e /\ Port e = port /\ coherent (Rec e) = true)
  /\ (forall instance service domain text ifaces ttl,
        instance <> "" -> service <> "" ->
        Multi.Register env instance service domain 0 text ifaces ttl
        = (Err "Missing port", []))
  /\ (forall st e query t,
        Service' (this st) = Some e -> coherent (Rec e) = true ->
        (exists r st',
           composeBrowsingAnswers (newReply query) t env st = Some (r, st')
           /\ srvPorts (records r) = [Port e mod 2 ^ 16])
        /\ (exists r st',
              Multi.composeLookupAnswers (newReply query) t env st = Some (r, st')
              /\ srvPorts (records r) = [Port e mod 2 ^ 16])
        /\ (exists q st',
              probeQuery env st = Some (q, st')
              /\ srvPorts (records q) = [Port e mod 2 ^ 16])).
Proof.
  split; [|split; [|split]].
  - intros. apply Register_port. assumption.
  - intros. eapply Register_service. eassumption.
  - intros instance service domain text ifaces ttl Hi Hv.
    unfold Multi.Register. entry_fields.
    apply String.eqb_neq in Hi, Hv. rewrite Hi, Hv.
    destruct (domain =? "")%string; reflexivity.
  - intros st e query t Hs Hc.
    pose proof (blank_service _ _ Hs) as Hb.
    destruct (run_yields env st e _ _ Hs Hc
                (composeBrowsingAnswers_spec env _ _ Hb (newReply query) t))
      as (st1 & E1 & _).
    destruct (run_yields env st e _ _ Hs Hc
                (Multi_composeLookupAnswers_spec env _ _ Hb (newReply query) t))
      as (st2 & E2 & _).
    destruct (run_yields env st e _ _ Hs Hc (probeQuery_spec env _ _ Hb))
      as (st3 & E3 & _).
    split; [|split].
    + eexists _, st1. split; [exact E1|].
      unfold records, browsingAnswers. simpl.
      change (srvPorts (srvRecord (blankEntry e) ClassINET t
                        :: txtRecord (blankEntry e) ClassINET t
                        :: addrRecords (blankEntry e) ClassINET t))
        with (uint16 (Port e) :: srvPorts (addrRecords (blankEntry e) ClassINET t)).
      rewrite srvPorts_addrRecords. reflexivity.
    + eexists _, st2. split; [exact E2|].
      unfold records, lookupAnswersMulti. simpl. rewrite app_nil_r.
      change (srvPorts (srvRecord (blankEntry e) flushed t
                        :: txtRecord (blankEntry e) flushed t
                        :: ptrRecord (blankEntry e) t
                        :: dnssdRecord (blankEntry e) t
                        :: addrRecords (blankEntry e) flushed t))
        with (uint16 (Port e) :: srvPorts (addrRecords (blankEntry e) flushed t)).
      rewrite srvPorts_addrRecords. reflexivity.
    + eexists _, st3. split; [exact E3|]. reflexivity.
Qed.

(** A port of 65616 = 65536 + 80 is registered and announced as 80. *)
Lemma srv_port_modulo_witness :
  65616 <> 0
  /\ Multi.Register sampleEnv "MyPage" "_http._tcp" "" 65616 ["path=/"] [] 0
     = (Ok (set_Service sampleServer (Some (set_Port sampleEntry 65616))), [])
  /\ exists r st',
       composeBrowsingAnswers (newReply (sampleQuery "_http._tcp.local." 1)) 3200
         sampleEnv
         (mkState (set_Service sampleServer (Some (set_Port sampleEntry 65616))) [])
       = Some (r, st')
       /\ srvPorts (records r) = [80].
Proof.
  split; [discriminate|].
  destruct (srv_port_modulo sampleEnv) as (R & _ & _ & P).
  split.
  - rewrite R by discriminate. vm_compute. reflexivity.
  - destruct (P (mkState (set_Service sampleServer (Some (set_Port sampleEntry 65616))) [])
                (set_Port sampleEntry 65616) (sampleQuery "_http._tcp.local." 1) 3200
                eq_refl eq_refl) as ((r & st' & Er & Hr) & _).
    exists r, st'. split; [exact Er|exact Hr].
Defined.


(* ================================================================== *)
(** * Further properties of the code *)

(** ** Service records and lookup parameters *)

Lemma append_nonempty a c b : (a ++ String c b =? "")%string = false.
Proof. destruct a; reflexivity. Qed.

Lemma append_assoc a b c : (a ++ b) ++ c = a ++ (b ++ c).
Proof. induction a as [|x a IH]; simpl; [reflexivity|]. rewrite IH. reflexivity. Qed.

Lemma HasSuffix_refl s : HasSuffix s s = true.
Proof.
  destruct s as [|c s]; [reflexivity|].
  cbn [HasSuffix]. rewrite String.eqb_refl. reflexivity.
Qed.

Lemma HasSuffix_append a b : HasSuffix (a ++ b) b = true.
Proof.
  induction a as [|c a IH]; simpl.
  - apply HasSuffix_refl.
  - rewrite IH. apply orb_true_r.
Qed.

(** Each derived name is computed by the first call only: whatever the
    record holds, once [ServiceName()], [ServiceTypeName()] or
    [ServiceInstanceName()] has returned a name, a later call returns
    the same name and changes nothing, whatever [Instance], [Service]
    and [Domain] have become; only an [Instance] made empty turns
    [ServiceInstanceName()] into the empty string. *)
Theorem names_computed_once (r : ServiceRecord) (instance service domain : string) :
  (let (n, r1) := ServiceName r in
   ServiceName (withTriple r1 instance service domain)
   = (n, withTriple r1 instance service domain))
  /\ (let (n, r1) := ServiceTypeName r in
      ServiceTypeName (withTriple r1 instance service domain)
      = (n, withTriple r1 instance service domain))
  /\ (Instance r <> "" -> instance <> "" ->
      let (n, r1) := ServiceInstanceName r in
      ServiceInstanceName (withTriple r1 instance service domain)
      = (n, withTriple r1 instance service domain))
  /\ ServiceInstanceName (withTriple r "" service domain)
     = ("", withTriple r "" service domain).
Proof.
  split; [|split; [|split]].
  - unfold ServiceName.
    destruct (serviceName r =? "")%string eqn:E; simpl.
    + rewrite append_nonempty. reflexivity.
    + rewrite E. reflexivity.
  - unfold ServiceTypeName.
    destruct (serviceTypeName r =? "")%string eqn:E; simpl.
    + reflexivity.
    + rewrite E. reflexivity.
  - intros Hr Hi. apply String.eqb_neq in Hr, Hi.
    unfold ServiceInstanceName. rewrite Hr.
    destruct (serviceInstanceName r =? "")%string eqn:E.
    + unfold ServiceName. simpl. rewrite Hi.
      destruct (serviceName r =? "")%string; simpl;
        rewrite append_nonempty; reflexivity.
    + simpl. rewrite Hi, E. reflexivity.
  - reflexivity.
Qed.

Lemma names_computed_once_witness :
  Instance (NewServiceRecord "MyPage" "_http._tcp" "local") <> ""
  /\ "Other" <> ""
  /\ ServiceInstanceName
       (withTriple (snd (ServiceInstanceName (NewServiceRecord "MyPage" "_http._tcp" "local")))
                   "Other" "_ipp._tcp" "example")
     = ("MyPage._http._tcp.local.",
        withTriple (snd (ServiceInstanceName (NewServiceRecord "MyPage" "_http._tcp" "local")))
                   "Other" "_ipp._tcp" "example").
Proof.
  split; [discriminate|]. split; [discriminate|].
  exact (proj1 (proj2 (proj2 (names_computed_once
                                (NewServiceRecord "MyPage" "_http._tcp" "local")
                                "Other" "_ipp._tcp" "example")))
           ltac:(discriminate) ltac:(discriminate)).
Defined.

(** Whatever has been cached so far, the instance name is the trimmed
    instance, a dot and the service name, so that it ends with the
    service name; calling one method before the other changes neither
    name. *)
Theorem instance_name_ends_with_service_name (r : ServiceRecord) :
  coherent r = true -> Instance r <> "" ->
  let (n, r1) := ServiceInstanceName r in
  let (m, r2) := ServiceName r1 in
  n = trimDot (Instance r) ++ "." ++ m
  /\ HasSuffix n m = true
  /\ m = fst (ServiceName r)
  /\ n = fst (ServiceInstanceName (snd (ServiceName r))).
Proof.
  intros Hc Hi. apply String.eqb_neq in Hi.
  destruct (ServiceInstanceName_spec r Hc) as (r1 & E1 & B1 & C1).
  destruct (ServiceName_spec r1 C1) as (r2 & E2 & B2 & C2).
  destruct (ServiceName_spec r Hc) as (r3 & E3 & B3 & C3).
  destruct (ServiceInstanceName_spec r3 C3) as (r4 & E4 & B4 & C4).
  rewrite E1, E2, E3. cbn [fst snd]. rewrite E4. cbn [fst].
  assert (N1 : nameOfService r1 = nameOfService r).
  { change (nameOfService (blankRecord r1) = nameOfService (blankRecord r)).
    rewrite B1. reflexivity. }
  assert (N3 : nameOfInstance r3 = nameOfInstance r).
  { change (nameOfInstance (blankRecord r3) = nameOfInstance (blankRecord r)).
    rewrite B3. reflexivity. }
  rewrite N1, N3. unfold nameOfInstance. rewrite Hi.
  repeat split.
  replace (trimDot (Instance r) ++ "." ++ nameOfService r)
    with ((trimDot (Instance r) ++ ".") ++ nameOfService r).
  - apply HasSuffix_append.
  - apply append_assoc.
Qed.

Lemma instance_name_ends_with_service_name_witness :
  coherent (NewServiceRecord "MyPage" "_http._tcp" "local") = true
  /\ Instance (NewServiceRecord "MyPage" "_http._tcp" "local") <> ""
  /\ HasSuffix "MyPage._http._tcp.local." "_http._tcp.local." = true.
Proof.
  split; [reflexivity|]. split; [discriminate|].
  exact (proj1 (proj2 (instance_name_ends_with_service_name
                         (NewServiceRecord "MyPage" "_http._tcp" "local")
                         eq_refl ltac:(discriminate)))).
Defined.

(** A blank domain is taken as [local] by [ServiceTypeName()], which
    depends on nothing else, and is kept blank by [ServiceName()],
    which then ends with two dots around an empty label. *)
Theorem blank_domain_names (instance service : string) :
  fst (ServiceTypeName (NewServiceRecord instance service ""))
  = "_services._dns-sd._udp.local."
  /\ fst (ServiceTypeName (NewServiceRecord instance service ""))
     = fst (ServiceTypeName (NewServiceRecord "" "" "local"))
  /\ fst (ServiceName (NewServiceRecord instance service "")) = trimDot service ++ ".."
  /\ (2 <= trailingDots (fst (ServiceName (NewServiceRecord instance service ""))))%nat
  /\ wellFormedName (fst (ServiceName (NewServiceRecord instance service ""))) = false.
Proof.
  split; [reflexivity|]. split; [reflexivity|]. split; [reflexivity|].
  assert (T : trailingDots (trimDot service ++ "..")
              = S (S (trailingDots (trimDot service)))).
  { replace (trimDot service ++ "..") with ((trimDot service ++ ".") ++ ".").
    - rewrite !trailingDots_app_dot. reflexivity.
    - apply append_assoc. }
  change (fst (ServiceName (NewServiceRecord instance service "")))
    with (trimDot service ++ "..").
  split.
  - rewrite T. lia.
  - unfold wellFormedName. rewrite T. apply andb_false_r.
Qed.

(** [disableProbing()] may be called any number of times: the first
    call closes the channel and every later one does nothing.
    [done()] closes the channel of the subscriber without such a guard:
    it panics on a nil or closed channel, so that a second call
    panics. *)
Theorem closing_lookup_params (instance service domain : string) (entries : Chan) :
  let l := NewLookupParams instance service domain entries in
  (exists l1,
     disableProbing l = Some l1
     /\ stopProbing l1 = ClosedChan /\ Entries l1 = entries
     /\ Params l1 = Params l
     /\ forall n, Nat.iter n (fun x => match x with
                                       | Some y => disableProbing y
                                       | None => None
                                       end) (Some l1) = Some l1)
  /\ (entries = OpenChan ->
      exists l1, done l = Some l1 /\ Entries l1 = ClosedChan /\ done l1 = None)
  /\ (entries <> OpenChan -> done l = None).
Proof.
  intros l. split; [|split].
  - eexists. split; [reflexivity|]. repeat split.
    induction n as [|n IH]; [reflexivity|]. rewrite Nat.iter_succ, IH. reflexivity.
  - intros ->. eexists. repeat split.
  - intros H. destruct entries; try reflexivity. congruence.
Qed.

Lemma closing_lookup_params_witness :
  OpenChan = OpenChan
  /\ exists l1,
       done (NewLookupParams "MyPage" "_http._tcp" "local" OpenChan) = Some l1
       /\ Entries l1 = ClosedChan /\ done l1 = None.
Proof.
  split; [reflexivity|].
  exact (proj1 (proj2 (closing_lookup_params "MyPage" "_http._tcp" "local" OpenChan))
           eq_refl).
Defined.

(* ------------------------------------------------------------------ *)
(** ** The responder *)

Lemma run_coherent {A} env st e (m : M A) Q :
  Service' (this st) = Some e -> coherent (Rec e) = true ->
  triple env (blankServer (this st)) m Q ->
  exists a st' evs,
    m env st = Some (a, st')
    /\ coherentServer (this st') = true
    /\ trace st' = (trace st ++ evs)%list
    /\ Q a (blankServer (this st')) evs.
Proof.
  intros Hs Hc Hm. apply Hm.
  split; [reflexivity|]. unfold coherentServer. rewrite Hs. exact Hc.
Qed.

Lemma service_of_blank s e0 :
  Service' (blankServer s) = Some e0 -> coherentServer s = true ->
  exists e, Service' s = Some e /\ blankEntry e = e0 /\ coherent (Rec e) = true.
Proof.
  intros H Hc. apply (Inv_service (blankServer s) e0 (mkState s [])); [exact H|].
  split; [reflexivity|exact Hc].
Qed.

Lemma bind_assignService {B} env s0 e0 (upd : ServiceEntry -> ServiceEntry)
    (k : unit -> M B) Q :
  Service' s0 = Some e0 ->
  (forall e, blankEntry (upd e) = upd (blankEntry e)) ->
  (forall e, coherent (Rec (upd e)) = coherent (Rec e)) ->
  triple env (set_Service s0 (Some (upd e0))) (k tt) Q ->
  triple env s0 (bind (assignService upd) k) Q.
Proof.
  intros Hs Hb Hco Hk.
  eapply triple_bind
    with (Q1 := fun a s evs => s = set_Service s0 (Some (upd e0)) /\ evs = []).
  - intros st HI. destruct (Inv_service _ _ _ Hs HI) as (e & He & Hbe & Hce).
    destruct HI as [HB HC].
    unfold assignService. rewrite He.
    eexists tt, _, []. split; [reflexivity|]. simpl. rewrite app_nil_r.
    split; [unfold coherentServer; simpl; rewrite Hco; exact Hce|].
    split; [reflexivity|]. split; [|reflexivity].
    rewrite <- HB, <- Hbe. unfold blankServer. simpl. rewrite He. simpl.
    rewrite Hb. reflexivity.
  - intros [] s1 evs1 (-> & ->). exact Hk.
Qed.

(** A server that has not been given its service handles every query
    by doing nothing: no answer is composed, nothing is sent or logged,
    and no error is returned. *)
Theorem no_service_no_response env st query from :
  Service' (this st) = None ->
  Multi.handleQuery query from env st = Some (None, st)
  /\ Single.handleQuery query from env st = Some (None, st)
  /\ (forall q resp,
        Multi.handleQuestion q resp env st = Some ((resp, None), st)
        /\ Single.handleQuestion q resp env st = Some ((resp, None), st)).
Proof.
  intros Hs.
  assert (HM : forall q resp, Multi.handleQuestion q resp env st = Some ((resp, None), st)).
  { intros q resp. unfold Multi.handleQuestion, bind, fld. rewrite Hs. reflexivity. }
  assert (HS : forall q resp, Single.handleQuestion q resp env st = Some ((resp, None), st)).
  { intros q resp. unfold Single.handleQuestion, bind, fld. rewrite Hs. reflexivity. }
  assert (L : forall hq,
             (forall q resp, hq q resp env st = Some ((resp, None), st)) ->
             handleQueryWith hq query from env st = Some (None, st)).
  { intros hq Hq. unfold handleQueryWith.
    destruct (Answer query); [|reflexivity].
    destruct (Ns query); [|reflexivity]. simpl.
    assert (F : forall qs err,
               forEach qs err (answerQuestion hq query from) env st
               = Some (match qs with [] => err | _ => None end, st)).
    { induction qs as [|q qs IH]; intros err; [reflexivity|].
      simpl. unfold bind at 1. unfold answerQuestion at 1. unfold bind at 1.
      rewrite Hq. simpl. rewrite IH. destruct qs; reflexivity. }
    destruct (Questions query) as [|q qs]; [reflexivity|].
    change (0 <? List.length (q :: qs))%nat with true. cbv iota. apply F. }
  split; [apply L; exact HM|]. split; [apply L; exact HS|]. auto.
Qed.

Lemma no_service_no_response_witness :
  Service' (this (mkState (mkServer None (Some (mkUDPConn 3)) None false 3200) [])) = None
  /\ Multi.handleQuery (sampleQuery "_http._tcp.local." 1) sampleFrom sampleEnv
       (mkState (mkServer None (Some (mkUDPConn 3)) None false 3200) [])
     = Some (None, mkState (mkServer None (Some (mkUDPConn 3)) None false 3200) []).
Proof.
  split; [reflexivity|].
  exact (proj1 (no_service_no_response sampleEnv
                  (mkState (mkServer None (Some (mkUDPConn 3)) None false 3200) [])
                  (sampleQuery "_http._tcp.local." 1) sampleFrom eq_refl)).
Defined.

Lemma SetText_spec env s0 e0 text :
  Service' s0 = Some e0 ->
  triple env s0 (SetText text)
    (fun _ s evs =>
       s = set_Service s0 (Some (set_Text e0 text))
       /\ map attempt evs
          = multicastOf env s0
              (set_Answer (set_Response emptyMsg true)
                 [txtRecord (set_Text e0 text) flushed (ttl s0)])).
Proof.
  intros Hs. unfold SetText.
  apply (bind_assignService env s0 e0 (fun e => set_Text e text)); [exact Hs| | |].
  { intros e. reflexivity. }
  { intros e. reflexivity. }
  assert (Hs' : Service' (set_Service s0 (Some (set_Text e0 text)))
                = Some (set_Text e0 text)) by reflexivity.
  unfold announceText. reads Hs'.
  eapply triple_bind; [apply multicastResponse_spec|].
  intros err s evs (-> & _ & H). apply triple_ret.
  rewrite app_nil_r. split; [reflexivity|]. exact H.
Qed.

(** [SetText] stores the new text in the service and multicasts one
    response whose only record is the TXT record of the instance, with
    the new text, the cache-flush bit and the server's TTL; it touches
    nothing else of the server, and every question answered afterwards
    is answered from the new text. *)
Theorem SetText_announces env st e text :
  Service' (this st) = Some e -> coherent (Rec e) = true ->
  exists st' evs,
    SetText text env st = Some (tt, st')
    /\ trace st' = (trace st ++ evs)%list
    /\ map attempt evs
       = multicastOf env (this st)
           (mkMsg 0 true false []
              [TXT (mkHdr (nameOfInstance (Rec e)) TypeTXT 32769 (ttl (this st))) text]
              [] [])
    /\ blankServer (this st')
       = blankServer (set_Service (this st) (Some (set_Text e text)))
    /\ (forall q resp,
          exists st2,
            Multi.handleQuestion q resp env st'
            = Some ((answerMulti (set_Text e text) (ttl (this st)) q resp, None), st2)
            /\ trace st2 = trace st')
    /\ (forall q resp,
          exists st2,
            Single.handleQuestion q resp env st'
            = Some ((answerSingle (set_Text e text) (ttl (this st)) q resp, None), st2)
            /\ trace st2 = trace st').
Proof.
  intros Hs Hc.
  pose proof (blank_service _ _ Hs) as Hb.
  destruct (run_coherent env st e (SetText text) _ Hs Hc
              (SetText_spec env _ _ text Hb))
    as ([] & st' & evs & E & C & T & B & H).
  exists st', evs. split; [exact E|]. split; [exact T|]. split; [exact H|].
  assert (B' : blankServer (this st')
               = blankServer (set_Service (this st) (Some (set_Text e text)))).
  { rewrite B. reflexivity. }
  split; [exact B'|].
  assert (Hs1 : Service' (blankServer (this st')) = Some (set_Text (blankEntry e) text)).
  { rewrite B. reflexivity. }
  destruct (service_of_blank _ _ Hs1 C) as (e' & He' & Hbe' & Hce').
  assert (Ht : ttl (blankServer (this st')) = ttl (this st)).
  { rewrite B. reflexivity. }
  split.
  - intros q resp.
    pose proof (Multi_handleQuestion_spec env _ _ (blank_service _ _ He') q resp) as Y.
    rewrite Hbe', Ht in Y.
    exact (run_yields env st' e' _ _ He' Hce' Y).
  - intros q resp.
    pose proof (Single_handleQuestion_spec env _ _ (blank_service _ _ He') q resp) as Y.
    rewrite Hbe', Ht in Y.
    exact (run_yields env st' e' _ _ He' Hce' Y).
Qed.

Lemma SetText_announces_witness :
  Service' (this sampleState) = Some sampleEntry
  /\ coherent (Rec sampleEntry) = true
  /\ exists st' evs,
       SetText ["path=/new"] sampleEnv sampleState = Some (tt, st')
       /\ map attempt evs
          = [Write (mkUDPConn 3) [Byte.x84] ipv4Addr None;
             Write (mkUDPConn 4) [Byte.x84] ipv6Addr None]
       /\ option_map Text (Service' (this st')) = Some ["path=/new"].
Proof.
  split; [reflexivity|]. split; [reflexivity|].
  destruct (SetText_announces sampleEnv sampleState sampleEntry ["path=/new"]
              eq_refl eq_refl)
    as (st' & evs & E & _ & H & B & _).
  exists st', evs. split; [exact E|]. split; [exact H|].
  pose proof (f_equal (fun s => option_map Text (Service' s)) B) as F.
  simpl in F. destruct (Service' (this st')); exact F.
Defined.



(** The probe is a query with one PTR question in class IN on the
    instance name and the SRV and TXT records of the service, without
    the cache-flush bit, in its authority section; the announcement is
    a response whose Answer section starts with the SRV record.  A
    responder of either revision that receives one of them, its own or
    another's, ignores it: a message with an authority or an Answer
    section is not handled as a query. *)
Theorem probes_and_announcements_are_ignored env st e :
  Service' (this st) = Some e -> coherent (Rec e) = true ->
  exists q a st1 st2,
    probeQuery env st = Some (q, st1)
    /\ Multi.announcement env st = Some (a, st2)
    /\ q = mkMsg (dnsId env) false false
             [mkQuestion (nameOfInstance (Rec e)) TypePTR ClassINET] []
             [SRV (mkHdr (nameOfInstance (Rec e)) TypeSRV ClassINET (ttl (this st)))
                  0 0 (uint16 (Port e)) (HostName e);
              TXT (mkHdr (nameOfInstance (Rec e)) TypeTXT ClassINET (ttl (this st)))
                  (Text e)] []
    /\ Response a = true
    /\ hd_error (Answer a)
       = Some (SRV (mkHdr (nameOfInstance (Rec e)) TypeSRV 32769 (ttl (this st)))
                   0 0 (uint16 (Port e)) (HostName e))
    /\ (forall env' st' from,
          Multi.handleQuery q from env' st' = Some (None, st')
          /\ Single.handleQuery q from env' st' = Some (None, st')
          /\ Multi.handleQuery a from env' st' = Some (None, st')
          /\ Single.handleQuery a from env' st' = Some (None, st')).
Proof.
  intros Hs Hc.
  pose proof (blank_service _ _ Hs) as Hb.
  destruct (run_yields env st e _ _ Hs Hc (probeQuery_spec env _ _ Hb))
    as (st1 & E1 & _).
  assert (Y : yields env (blankServer (this st)) Multi.announcement
                (lookupAnswersMulti e emptyResponse (ttl (this st)))).
  { unfold Multi.announcement.
    eapply bind_yields; [apply yields_field; intro; reflexivity|]. cbv beta.
    apply (Multi_composeLookupAnswers_spec env _ _ Hb). }
  destruct (run_yields env st e _ _ Hs Hc Y) as (st2 & E2 & _).
  eexists _, _, st1, st2. split; [exact E1|]. split; [exact E2|].
  split; [reflexivity|]. split; [reflexivity|]. split; [reflexivity|].
  intros env' st' from. repeat split; reflexivity.
Qed.

Lemma probes_and_announcements_are_ignored_witness :
  Service' (this sampleState) = Some sampleEntry
  /\ coherent (Rec sampleEntry) = true
  /\ exists q st1,
       probeQuery sampleEnv sampleState = Some (q, st1)
       /\ Multi.handleQuery q sampleFrom sampleEnv sampleState = Some (None, sampleState).
Proof.
  split; [reflexivity|]. split; [reflexivity|].
  destruct (probes_and_announcements_are_ignored sampleEnv sampleState sampleEntry
              eq_refl eq_refl)
    as (q & a & st1 & st2 & E & _ & _ & _ & _ & H).
  exists q, st1. split; [exact E|]. exact (proj1 (H sampleEnv sampleState sampleFrom)).
Defined.

Lemma Single_unregister_spec env s0 s e0 :
  Service' s = Some e0 -> ipv4conn s = ipv4conn s0 -> ipv6conn s = ipv6conn s0 ->
  triple env s Single.unregister
    (fun _ s' evs =>
       s' = s
       /\ map attempt evs = multicastOf env s0 (lookupAnswersSingle e0 emptyResponse 0)).
Proof.
  intros Hs H4 H6. unfold Single.unregister, Single.goodbye.
  eapply bind_yields; [apply (Single_composeLookupAnswers_spec env s e0 Hs)|].
  eapply triple_conseq; [apply multicastResponse_spec|].
  intros err s' evs (-> & _ & H). split; [reflexivity|].
  rewrite H. unfold multicastOf, multicast. rewrite H4, H6. reflexivity.
Qed.

Lemma Multi_shutdown_spec env st e :
  Service' (this st) = Some e -> shuttingDown (this st) = false ->
  triple env (blankServer (this st)) Multi.shutdown
    (fun err s evs =>
       err = None /\ s = set_shuttingDown (blankServer (this st)) true
       /\ map attempt evs
          = (multicastOf env (this st) (lookupAnswersMulti e emptyResponse 0)
             ++ closes (this st))%list).
Proof.
  intros Hs Hup.
  exact (shutdownWith_spec env (blankServer (this st)) (blankEntry e)
           (blank_service _ _ Hs) Hup
           Multi.unregister (lookupAnswersMulti (blankEntry e) emptyResponse 0)
           (fun s H H4 H6 => Multi_unregister_spec env _ s _ H H4 H6)).
Qed.

Lemma Single_shutdown_spec env st e :
  Service' (this st) = Some e -> shuttingDown (this st) = false ->
  triple env (blankServer (this st)) Single.shutdown
    (fun err s evs =>
       err = None /\ s = set_shuttingDown (blankServer (this st)) true
       /\ map attempt evs
          = (multicastOf env (this st) (lookupAnswersSingle e emptyResponse 0)
             ++ closes (this st))%list).
Proof.
  intros Hs Hup.
  exact (shutdownWith_spec env (blankServer (this st)) (blankEntry e)
           (blank_service _ _ Hs) Hup
           Single.unregister (lookupAnswersSingle (blankEntry e) emptyResponse 0)
           (fun s H H4 H6 => Single_unregister_spec env _ s _ H H4 H6)).
Qed.

Lemma recvWith_down parsePacket c reads env st :
  shuttingDown (this st) = true -> recvWith parsePacket c reads env st = Some (tt, st).
Proof.
  intros H. destruct c as [c|]; [|reflexivity]. simpl.
  destruct reads as [|[packet from|err] rest]; simpl; unfold bind, fld; rewrite H;
    reflexivity.
Qed.

(** The receive loop looks at the shutdown flag before every read: on
    a server that is shutting down, and on a socket that was never
    opened, it returns at once, whatever is waiting to be read and
    whatever the packet handler; so after [shutdown] nothing that
    arrives is answered. *)
Theorem recv_stops_on_shutdown env st e :
  Service' (this st) = Some e -> coherent (Rec e) = true ->
  shuttingDown (this st) = false ->
  (forall parsePacket reads env' st',
     recvWith parsePacket None reads env' st' = Some (tt, st'))
  /\ (forall parsePacket c reads env' st',
        shuttingDown (this st') = true ->
        recvWith parsePacket c reads env' st' = Some (tt, st'))
  /\ (exists st1,
        Multi.shutdown env st = Some (None, st1)
        /\ forall c reads env', Multi.recv c reads env' st1 = Some (tt, st1))
  /\ (exists st1,
        Single.shutdown env st = Some (None, st1)
        /\ forall c reads env', Single.recv c reads env' st1 = Some (tt, st1)).
Proof.
  intros Hs Hc Hup.
  split; [reflexivity|]. split; [intros; apply recvWith_down; assumption|].
  split.
  - destruct (run env st e _ _ Hs Hc (Multi_shutdown_spec env st e Hs Hup))
      as (err & st1 & evs & E & _ & -> & B & _).
    exists st1. split; [exact E|]. intros c reads env'.
    apply recvWith_down. exact (f_equal shuttingDown B).
  - destruct (run env st e _ _ Hs Hc (Single_shutdown_spec env st e Hs Hup))
      as (err & st1 & evs & E & _ & -> & B & _).
    exists st1. split; [exact E|]. intros c reads env'.
    apply recvWith_down. exact (f_equal shuttingDown B).
Qed.

Lemma recv_stops_on_shutdown_witness :
  Service' (this sampleState) = Some sampleEntry
  /\ coherent (Rec sampleEntry) = true
  /\ shuttingDown (this sampleState) = false
  /\ exists st1,
       Multi.shutdown sampleEnv sampleState = Some (None, st1)
       /\ Multi.recv (Some (mkUDPConn 3)) [ReadOk [Byte.x01] sampleFrom] sampleEnv st1
          = Some (tt, st1).
Proof.
  split; [reflexivity|]. split; [reflexivity|]. split; [reflexivity|].
  destruct (recv_stops_on_shutdown sampleEnv sampleState sampleEntry
              eq_refl eq_refl eq_refl)
    as (_ & _ & (st1 & E & H) & _).
  exists st1. split; [exact E|]. apply H.
Defined.

(** The single-interface revision shuts down like the other one, with
    its own goodbye: the first call sets the flag, multicasts the lookup
    answers at TTL 0 (the address records, in the Additional section,
    keep their TTL of 120), closes the sockets and returns no error; a
    further call does nothing. *)
Theorem Single_shutdown_once env st e :
  Service' (this st) = Some e -> coherent (Rec e) = true ->
  shuttingDown (this st) = false ->
  exists st1 evs,
    Single.shutdown env st = Some (None, st1)
    /\ shuttingDown (this st1) = true
    /\ trace st1 = (trace st ++ evs)%list
    /\ map attempt evs
       = (multicastOf env (this st)
            (mkMsg 0 true false []
               [srvRecord e flushed 0; txtRecord e flushed 0; ptrRecord e 0;
                dnssdRecord e 0] []
               (addrRecords e flushed 120))
          ++ closes (this st))%list
    /\ Single.shutdown env st1 = Some (None, st1)
    /\ Single.Shutdown env st1 = Some (tt, st1).
Proof.
  intros Hs Hc Hup.
  destruct (run env st e _ _ Hs Hc (Single_shutdown_spec env st e Hs Hup))
    as (err & st1 & evs & E & T & -> & B & H).
  assert (D : shuttingDown (this st1) = true) by exact (f_equal shuttingDown B).
  assert (A : Single.shutdown env st1 = Some (None, st1)).
  { apply shutdownWith_again. exact D. }
  exists st1, evs. split; [exact E|]. split; [exact D|]. split; [exact T|].
  split; [exact H|]. split; [exact A|].
  unfold Single.Shutdown, bind. rewrite A. reflexivity.
Qed.

Lemma Single_shutdown_once_witness :
  Service' (this sampleState) = Some sampleEntry
  /\ coherent (Rec sampleEntry) = true
  /\ shuttingDown (this sampleState) = false
  /\ exists st1 evs,
       Single.shutdown sampleEnv sampleState = Some (None, st1)
       /\ map attempt evs
          = [Write (mkUDPConn 3) [Byte.x84] ipv4Addr None;
             Write (mkUDPConn 4) [Byte.x84] ipv6Addr None;
             Close (mkUDPConn 3); Close (mkUDPConn 4)].
Proof.
  split; [reflexivity|]. split; [reflexivity|]. split; [reflexivity|].
  destruct (Single_shutdown_once sampleEnv sampleState sampleEntry eq_refl eq_refl eq_refl)
    as (st1 & evs & E & _ & _ & H & _).
  exists st1, evs. split; assumption.
Defined.

(** [probe] never looks at the shutdown flag: run after [shutdown], it
    still goes through its whole schedule, so every probe and every
    announcement is written to the sockets that [shutdown] has closed. *)
Theorem probe_after_shutdown env st e :
  Service' (this st) = Some e -> coherent (Rec e) = true ->
  shuttingDown (this st) = false ->
  exists st' evs,
    (Multi.shutdown ;; Multi.probe) env st = Some (tt, st')
    /\ trace st' = (trace st ++ evs)%list
    /\ map attempt evs
       = (multicastOf env (this st) (lookupAnswersMulti e emptyResponse 0)
          ++ closes (this st)
          ++ flat_map (probeRound env (this st) (probeMsg env e (ttl (this st)))) (seq 0 2)
          ++ announceRounds env (this st)
               (lookupAnswersMulti e emptyResponse (ttl (this st))) 2 (int64 (1 * Second)))%list.
Proof.
  intros Hs Hc Hup.
  assert (P : triple env (blankServer (this st)) (Multi.shutdown ;; Multi.probe)
                (fun _ _ evs =>
                   map attempt evs
                   = (multicastOf env (this st) (lookupAnswersMulti e emptyResponse 0)
                      ++ closes (this st)
                      ++ flat_map (probeRound env (this st)
                                     (probeMsg env e (ttl (this st)))) (seq 0 2)
                      ++ announceRounds env (this st)
                           (lookupAnswersMulti e emptyResponse (ttl (this st)))
                           2 (int64 (1 * Second)))%list)).
  { eapply triple_bind; [apply (Multi_shutdown_spec env st e Hs Hup)|].
    intros err s1 evs1 (_ & -> & H1). cbv beta.
    eapply triple_conseq.
    - apply (Multi_probe_spec env (set_shuttingDown (blankServer (this st)) true)
               (blankEntry e)).
      simpl. rewrite Hs. reflexivity.
    - intros [] s evs (_ & H2). cbv beta. rewrite map_app, H1, H2.
      rewrite <- app_assoc. reflexivity. }
  destruct (run env st e _ _ Hs Hc P) as ([] & st' & evs & E & T & H).
  exists st', evs. auto.
Qed.

Lemma probe_after_shutdown_witness :
  Service' (this sampleState) = Some sampleEntry
  /\ coherent (Rec sampleEntry) = true
  /\ shuttingDown (this sampleState) = false
  /\ exists st' evs,
       (Multi.shutdown ;; Multi.probe) sampleEnv sampleState = Some (tt, st')
       /\ trace st' = ([] ++ evs)%list
       /\ filter isWrite (skipn 4 (map attempt evs))
          = [Write (mkUDPConn 3) [Byte.x00] ipv4Addr None;
             Write (mkUDPConn 4) [Byte.x00] ipv6Addr None;
             Write (mkUDPConn 3) [Byte.x00] ipv4Addr None;
             Write (mkUDPConn 4) [Byte.x00] ipv6Addr None;
             Write (mkUDPConn 3) [Byte.x84] ipv4Addr None;
             Write (mkUDPConn 4) [Byte.x84] ipv6Addr None;
             Write (mkUDPConn 3) [Byte.x84] ipv4Addr None;
             Write (mkUDPConn 4) [Byte.x84] ipv6Addr None].
Proof.
  split; [reflexivity|]. split; [reflexivity|]. split; [reflexivity|].
  destruct (probe_after_shutdown sampleEnv sampleState sampleEntry eq_refl eq_refl eq_refl)
    as (st' & evs & E & T & H).
  exists st', evs. split; [exact E|]. split; [exact T|]. rewrite H. reflexivity.
Defined.

(** The receive loop goes on after a failed read and after a packet
    that does not decode: a read error is skipped without a trace; an
    undecodable packet is dropped with one log line (none, in the
    multi-interface revision, for an over-long NSEC block) and is never
    handled as a query; a packet that is merely truncated is handled as
    the query decoded so far. *)
Theorem recv_survives_bad_input env st c packet from m err rest :
  Unpack env packet = (m, Some err) ->
  shuttingDown (this st) = false ->
  (forall e, Multi.recv (Some c) (ReadErr e :: rest) env st
             = Multi.recv (Some c) rest env st)
  /\ (forall e, Single.recv (Some c) (ReadErr e :: rest) env st
                = Single.recv (Some c) rest env st)
  /\ (err <> ErrTruncated ->
      Multi.recv (Some c) (ReadOk packet from :: rest) env st
      = Multi.recv (Some c) rest env
          (mkState (this st)
             (trace st
              ++ (if (err =? "dns: NSEC block too long")%string then []
                  else [Log ["[ERR] bonjour: Failed to unpack packet: %v"; err]]))%list)
      /\ Single.recv (Some c) (ReadOk packet from :: rest) env st
         = Single.recv (Some c) rest env
             (mkState (this st)
                (trace st ++ [Log ["[ERR] bonjour: Failed to unpack packet: %v"; err]])%list))
  /\ (err = ErrTruncated ->
      Multi.parsePacket packet from env st = Multi.handleQuery m from env st
      /\ Single.parsePacket packet from env st = Single.handleQuery m from env st).
Proof.
  intros Hu Hup. split; [|split; [|split]].
  - intros e. unfold Multi.recv, recvWith. cbn [recvLoop].
    unfold bind at 1. unfold fld at 1. rewrite Hup. reflexivity.
  - intros e. unfold Single.recv, recvWith. cbn [recvLoop].
    unfold bind at 1. unfold fld at 1. rewrite Hup. reflexivity.
  - intros Hne. apply String.eqb_neq in Hne. split.
    + unfold Multi.recv, recvWith. cbn [recvLoop].
      unfold bind at 1. unfold fld at 1. rewrite Hup. cbv iota.
      unfold Multi.parsePacket. unfold bind, asks. rewrite Hu, Hne. simpl.
      destruct (err =? "dns: NSEC block too long")%string; simpl.
      * rewrite app_nil_r. destruct st; reflexivity.
      * reflexivity.
    + unfold Single.recv, recvWith. cbn [recvLoop].
      unfold bind at 1. unfold fld at 1. rewrite Hup. cbv iota.
      unfold Single.parsePacket. unfold bind, asks. rewrite Hu, Hne. simpl.
      reflexivity.
  - intros ->. split.
    + unfold Multi.parsePacket, bind, asks. rewrite Hu. reflexivity.
    + unfold Single.parsePacket, bind, asks. rewrite Hu. reflexivity.
Qed.

Lemma recv_survives_bad_input_witness :
  Unpack sampleEnv [Byte.x09] = (emptyMsg, Some "dns: overflow unpacking uint16")
  /\ shuttingDown (this sampleState) = false
  /\ Multi.recv (Some (mkUDPConn 3))
       [ReadOk [Byte.x09] sampleFrom; ReadErr "i/o timeout"] sampleEnv sampleState
     = Some (tt, mkState sampleServer
                   [Log ["[ERR] bonjour: Failed to unpack packet: %v";
                         "dns: overflow unpacking uint16"]]).
Proof.
  split; [reflexivity|]. split; [reflexivity|].
  destruct (recv_survives_bad_input sampleEnv sampleState (mkUDPConn 3) [Byte.x09]
              sampleFrom emptyMsg "dns: overflow unpacking uint16"
              [ReadErr "i/o timeout"] eq_refl eq_refl)
    as (_ & _ & H & _).
  destruct H as [H _]; [discriminate|]. rewrite H. reflexivity.
Defined.

(** The single-interface revision answers a query like the other one,
    with its own dispatch: a message with a record in its Answer or
    authority section is dropped; otherwise each question is answered
    on its own, with a reply sent only if its Answer section is not
    empty, to the sender for a question with the top bit of its class
    set and to the multicast groups otherwise. *)
Theorem Single_query_responses env st e query from :
  Service' (this st) = Some e -> coherent (Rec e) = true ->
  (Answer query <> [] \/ Ns query <> [] ->
   Single.handleQuery query from env st = Some (None, st))
  /\ (Answer query = [] -> Ns query = [] ->
      exists err st' evs,
        Single.handleQuery query from env st = Some (err, st')
        /\ trace st' = (trace st ++ evs)%list
        /\ datagrams evs
           = flat_map
               (fun q =>
                  let reply := answerSingle e (ttl (this st)) q (newReply query) in
                  match Answer reply with
                  | [] => []
                  | _ :: _ =>
                      match Pack env reply with
                      | Err _ => []
                      | Ok buf =>
                          if Z.testbit (Qclass q) 15 then unicast (this st) buf from
                          else multicast (this st) buf
                      end
                  end)
               (Questions query)
        /\ (Forall (fun q => Qname q <> nameOfService (Rec e)
                             /\ Qname q <> nameOfInstance (Rec e)
                             /\ Qname q <> nameOfType (Rec e)) (Questions query)
            -> evs = [])).
Proof.
  intros Hs Hc. split.
  - intros H. unfold Single.handleQuery, handleQueryWith.
    destruct (Answer query) as [|a l]; [|reflexivity].
    destruct (Ns query) as [|n l]; [|reflexivity].
    destruct H as [H|H]; congruence.
  - intros HA HN.
    destruct (run env st e _ _ Hs Hc (Single_handleQuery_spec env st e query from Hs HA HN))
      as (err & st' & evs & E & T & _ & D & N).
    exists err, st', evs. split; [exact E|]. split; [exact T|]. split; [exact D|].
    intros HQ. apply N.
    eapply Forall_impl; [|exact HQ]. intros q0 (N1 & N2 & N3).
    change (answerSingle (blankEntry e) (ttl (this st)) q0 (newReply query))
      with (answerSingle e (ttl (this st)) q0 (newReply query)).
    unfold answerSingle.
    apply String.eqb_neq in N1, N2, N3. rewrite N1, N2, N3. reflexivity.
Qed.

Lemma Single_query_responses_witness :
  Service' (this sampleState) = Some sampleEntry
  /\ coherent (Rec sampleEntry) = true
  /\ Answer twoQuestions = [] /\ Ns twoQuestions = []
  /\ exists err st' evs,
       Single.handleQuery twoQuestions sampleFrom sampleEnv sampleState = Some (err, st')
       /\ trace st' = ([] ++ evs)%list
       /\ datagrams evs = [Write (mkUDPConn 3) [Byte.x84] sampleFrom None].
Proof.
  split; [reflexivity|]. split; [reflexivity|]. split; [reflexivity|].
  split; [reflexivity|].
  destruct (proj2 (Single_query_responses sampleEnv sampleState sampleEntry twoQuestions
                     sampleFrom eq_refl eq_refl) eq_refl eq_refl)
    as (err & st' & evs & E & T & D & _).
  exists err, st', evs. split; [exact E|]. split; [exact T|]. rewrite D. reflexivity.
Defined.

Section LastQuestion.
Variable env : Env.
Variable s0 : Server.
Variable hq : Question -> Msg -> M (Msg * option error).
Variable reply : Question -> Msg -> Msg.
Hypothesis Hq : forall q resp, yields env s0 (hq q resp) (reply q resp, None).





End LastQuestion.



(* ------------------------------------------------------------------ *)
(** ** Registration *)

Lemma Multi_selectAddr_fold env l e logs :
  exists logs',
    fold_left (Multi.selectAddr env) l (e, logs)
    = (mkServiceEntry (Rec e) (HostName e) (Port e) (Text e) (TTL e)
         (AddrIPv4 e
          ++ filter (fun ip => negb (IsLoopback env ip) && isIPv4 ip) (networkIPs l))
         (AddrIPv6 e
          ++ filter (fun ip => negb (IsLoopback env ip) && isIPv6 ip
                               && IsGlobalUnicast env ip) (networkIPs l)),
       logs').
Proof.
  revert e logs. induction l as [|a l IH]; intros e logs.
  - exists logs. simpl. rewrite !app_nil_r. destruct e; reflexivity.
  - cbn [fold_left]. destruct a as [ip mask|ip].
    + cbn [networkIPs flat_map app filter]. fold (networkIPs l).
      unfold Multi.selectAddr at 2. unfold isIPv6, isIPv4.
      destruct (IsLoopback env ip); cbn [negb andb]; [apply IH|].
      destruct (To4 ip); cbn [negb andb].
      * destruct (IH (set_AddrIPv4 e (AddrIPv4 e ++ [ip])%list) logs) as (logs' & ->).
        exists logs'. simpl. rewrite <- app_assoc. reflexivity.
      * destruct (To16 ip); cbn [negb andb]; [|apply IH].
        destruct (IsGlobalUnicast env ip).
        -- match goal with
           | |- context [fold_left _ l (?x, ?lg)] => destruct (IH x lg) as (logs' & E)
           end.
           exists logs'. rewrite E. simpl. rewrite <- app_assoc. reflexivity.
        -- apply IH.
    + apply IH.
Qed.

Lemma interfaceAddrs_fold ifaces acc :
  fold_left (fun iaddrs ifi =>
               match ifAddrs ifi with
               | Err _ => iaddrs
               | Ok addr => (iaddrs ++ addr)%list
               end) ifaces acc
  = (acc ++ interfaceAddrs ifaces)%list.
Proof.
  revert acc. induction ifaces as [|ifi l IH]; intros acc; simpl.
  - rewrite app_nil_r. reflexivity.
  - rewrite IH. destruct (ifAddrs ifi); [|reflexivity].
    rewrite app_assoc. reflexivity.
Qed.

(** A successful [Register] of the multi-interface revision: the three
    checked arguments were there; the service holds the names given
    (the domain [local] for an empty one), the port and the text, and a
    host name that ends with a dot; its addresses are, in order, those
    of the given interfaces, or of the system when the given interfaces
    have none, that are network addresses and not loopback, the IPv4
    ones on one side and the global-unicast IPv6 ones on the other, and
    there is at least one; the server has the TTL given, 3200 for 0,
    and the two sockets joined on the given interfaces. *)
Theorem Register_success env instance service domain port text ifaces t s logs :
  Multi.Register env instance service domain port text ifaces t = (Ok s, logs) ->
  instance <> "" /\ service <> "" /\ port <> 0
  /\ exists e iaddrs,
       Service' s = Some e
       /\ Rec e = NewServiceRecord instance service
                    (if (domain =? "")%string then "local" else domain)
       /\ Port e = port /\ Text e = text /\ TTL e = 0
       /\ HasSuffix (HostName e) "." = true
       /\ match interfaceAddrs ifaces with
          | [] => InterfaceAddrs env = Ok iaddrs
          | given => iaddrs = given
          end
       /\ AddrIPv4 e
          = filter (fun ip => negb (IsLoopback env ip) && isIPv4 ip) (networkIPs iaddrs)
       /\ AddrIPv6 e
          = filter (fun ip => negb (IsLoopback env ip) && isIPv6 ip
                              && IsGlobalUnicast env ip) (networkIPs iaddrs)
       /\ (AddrIPv4 e <> [] \/ AddrIPv6 e <> [])
       /\ ttl s = (if t =? 0 then 3200 else t)
       /\ shuttingDown s = false
       /\ joinUdp4Multicast env ifaces = Ok (ipv4conn s)
       /\ joinUdp6Multicast env ifaces = Ok (ipv6conn s).
Proof.
  unfold Multi.Register. cbv zeta.
  set (entry0 := set_Text (set_Port (NewServiceEntry instance service domain) port) text).
  change (Instance (Rec entry0)) with instance.
  change (Service (Rec entry0)) with service.
  change (Domain (Rec entry0)) with domain.
  destruct (String.eqb_spec instance "") as [|Hi]; [discriminate|].
  destruct (String.eqb_spec service "") as [|Hsv]; [discriminate|].
  set (dom := if (domain =? "")%string then "local" else domain).
  set (entry1 := if (domain =? "")%string then set_Domain entry0 localDomain else entry0).
  assert (H1 : entry1 = mkServiceEntry (NewServiceRecord instance service dom)
                          "" port text 0 [] []).
  { subst entry1 dom entry0. destruct (domain =? "")%string; reflexivity. }
  clearbody entry1. subst entry1. clear entry0.
  cbn [Port HostName Rec Domain NewServiceRecord].
  destruct (Z.eqb_spec port 0) as [|Hp]; [discriminate|].
  change ("" =? "")%string with true. cbv iota.
  destruct (Hostname env) as [h|err]; [|discriminate].
  cbn [HostName set_HostName Rec Domain NewServiceRecord Port Text TTL AddrIPv4 AddrIPv6].
  rewrite interfaceAddrs_fold. cbn [app].
  match goal with
  | |- context [fold_left (Multi.selectAddr env) _ (?x, [])] => set (entry2 := x)
  end.
  assert (H2 : exists host,
             entry2 = mkServiceEntry (NewServiceRecord instance service dom)
                        host port text 0 [] []
             /\ HasSuffix host "." = true).
  { subst entry2.
    match goal with
    | |- context [if ?c then _ else _] => destruct c
    end; eexists; (split; [reflexivity|]).
    - rewrite <- !append_assoc. apply HasSuffix_append.
    - apply HasSuffix_append. }
  destruct H2 as (host & H2 & Hdot). clearbody entry2. subst entry2.
  match goal with
  | |- context [match ?c with Ok _ => _ | Err _ => _ end] => set (cand := c)
  end.
  assert (Hcand : forall iaddrs,
             cand = Ok iaddrs ->
             match interfaceAddrs ifaces with
             | [] => InterfaceAddrs env = Ok iaddrs
             | given => iaddrs = given
             end).
  { subst cand. destruct (interfaceAddrs ifaces); simpl; intros; congruence. }
  destruct cand as [iaddrs|err]; [|discriminate].
  specialize (Hcand iaddrs eq_refl).
  match goal with
  | |- context [fold_left (Multi.selectAddr env) iaddrs (?x, [])] =>
      destruct (Multi_selectAddr_fold env iaddrs x []) as (logs' & ->)
  end.
  cbn [AddrIPv4 AddrIPv6 Rec HostName Port Text TTL app].
  set (v4 := filter (fun ip => negb (IsLoopback env ip) && isIPv4 ip) (networkIPs iaddrs)).
  set (v6 := filter (fun ip => negb (IsLoopback env ip) && isIPv6 ip
                               && IsGlobalUnicast env ip) (networkIPs iaddrs)).
  set (entry := mkServiceEntry (NewServiceRecord instance service dom)
                  host port text 0 v4 v6).
  assert (Tail : v4 <> [] \/ v6 <> [] ->
                 match Multi.newServer env ifaces with
                 | Ok s0 =>
                     (Ok (set_Service (if negb (t =? 0) then set_ttl s0 t else s0)
                            (Some entry)), logs')
                 | Err err => (Err err, logs')
                 end = (Ok s, logs) ->
                 instance <> "" /\ service <> "" /\ port <> 0
                 /\ exists e iaddrs0,
                      Service' s = Some e
                      /\ Rec e = NewServiceRecord instance service dom
                      /\ Port e = port /\ Text e = text /\ TTL e = 0
                      /\ HasSuffix (HostName e) "." = true
                      /\ match interfaceAddrs ifaces with
                         | [] => InterfaceAddrs env = Ok iaddrs0
                         | given => iaddrs0 = given
                         end
                      /\ AddrIPv4 e
                         = filter (fun ip => negb (IsLoopback env ip) && isIPv4 ip)
                             (networkIPs iaddrs0)
                      /\ AddrIPv6 e
                         = filter (fun ip => negb (IsLoopback env ip) && isIPv6 ip
                                             && IsGlobalUnicast env ip)
                             (networkIPs iaddrs0)
                      /\ (AddrIPv4 e <> [] \/ AddrIPv6 e <> [])
                      /\ ttl s = (if t =? 0 then 3200 else t)
                      /\ shuttingDown s = false
                      /\ joinUdp4Multicast env ifaces = Ok (ipv4conn s)
                      /\ joinUdp6Multicast env ifaces = Ok (ipv6conn s)).
  { intros Hne. unfold Multi.newServer.
    destruct (joinUdp4Multicast env ifaces) as [c4|]; [|discriminate].
    destruct (joinUdp6Multicast env ifaces) as [c6|]; [|discriminate].
    intros H. injection H as <- _.
    split; [exact Hi|]. split; [exact Hsv|]. split; [exact Hp|].
    exists entry, iaddrs.
    destruct (t =? 0); repeat split; auto. }
  destruct v4 as [|a4 l4] eqn:E4; [destruct v6 as [|a6 l6] eqn:E6; [discriminate|]|].
  - apply Tail. right. discriminate.
  - apply Tail. left. discriminate.
Qed.

Lemma Register_success_witness :
  exists s,
    Multi.Register sampleEnv "MyPage" "_http._tcp" "" 8080 ["path=/"] [] 0 = (Ok s, [])
    /\ ttl s = 3200
    /\ exists e, Service' s = Some e /\ AddrIPv4 e = [sampleAddr] /\ AddrIPv6 e = [].
Proof.
  eexists. split; [vm_compute; reflexivity|].
  destruct (Register_success sampleEnv "MyPage" "_http._tcp" "" 8080 ["path=/"] [] 0
              _ _ eq_refl)
    as (_ & _ & _ & e & iaddrs & He & _ & _ & _ & _ & _ & Hc & H4 & H6 & _ & Ht & _).
  split; [exact Ht|]. exists e. split; [exact He|].
  injection Hc as <-. split; [exact H4|exact H6].
Defined.

(** The checks of the three registration functions come in a fixed
    order and before anything is asked of the system: the instance
    name, the service name, for [RegisterProxy] the host name, and the
    port; an empty domain is never an error.  Only then does [Register]
    ask for the host name of the system, and whatever error that gives
    is replaced by a fixed one.  A rejected registration logs nothing. *)
Theorem registration_checks env net instance service domain port host ips text
    ifaces iface t :
  Multi.Register env "" service domain port text ifaces t
  = (Err "Missing service instance name", [])
  /\ Single.Register env net "" service domain port text iface t
     = (Err "Missing service instance name", [])
  /\ Single.RegisterProxy net "" service domain port host ips text iface t
     = (Err "Missing service instance name", [])
  /\ (instance <> "" ->
      Multi.Register env instance "" domain port text ifaces t
      = (Err "Missing service name", [])
      /\ Single.Register env net instance "" domain port text iface t
         = (Err "Missing service name", [])
      /\ Single.RegisterProxy net instance "" domain port host ips text iface t
         = (Err "Missing service name", [])
      /\ (service <> "" ->
          Single.RegisterProxy net instance service domain port "" ips text iface t
          = (Err "Missing host name", [])
          /\ Multi.Register env instance service domain 0 text ifaces t
             = (Err "Missing port", [])
          /\ Single.Register env net instance service domain 0 text iface t
             = (Err "Missing port", [])
          /\ (host <> "" ->
              Single.RegisterProxy net instance service domain 0 host ips text iface t
              = (Err "Missing port", []))
          /\ (port <> 0 -> forall err,
              Hostname env = Err err ->
              Multi.Register env instance service domain port text ifaces t
              = (Err "Could not determine host", [])
              /\ Single.Register env net instance service domain port text iface t
                 = (Err "Could not determine host", [])))).
Proof.
  split; [reflexivity|]. split; [reflexivity|]. split; [reflexivity|].
  intros Hi. apply String.eqb_neq in Hi.
  split; [unfold Multi.Register; entry_fields; rewrite Hi; reflexivity|].
  split; [unfold Single.Register; entry_fields; rewrite Hi; reflexivity|].
  split; [unfold Single.RegisterProxy; entry_fields; rewrite Hi; reflexivity|].
  intros Hsv. apply String.eqb_neq in Hsv.
  split; [unfold Single.RegisterProxy; entry_fields; rewrite Hi, Hsv; reflexivity|].
  split.
  { unfold Multi.Register; entry_fields; rewrite Hi, Hsv.
    destruct (domain =? "")%string; reflexivity. }
  split.
  { unfold Single.Register; entry_fields; rewrite Hi, Hsv.
    destruct (domain =? "")%string; reflexivity. }
  split.
  { intros Hh. apply String.eqb_neq in Hh.
    unfold Single.RegisterProxy; entry_fields; rewrite Hi, Hsv, Hh.
    destruct (domain =? "")%string; reflexivity. }
  intros Hp err He. apply Z.eqb_neq in Hp. split.
  - unfold Multi.Register; entry_fields; rewrite Hi, Hsv.
    destruct (domain =? "")%string; entry_fields; rewrite Hp;
      change ("" =? "")%string with true; cbv iota; rewrite He; reflexivity.
  - unfold Single.Register; entry_fields; rewrite Hi, Hsv.
    destruct (domain =? "")%string; entry_fields; rewrite Hp;
      change ("" =? "")%string with true; cbv iota; rewrite He; reflexivity.
Qed.

Lemma registration_checks_witness :
  "MyPage"%string <> ""%string /\ "_http._tcp"%string <> ""%string
  /\ Multi.Register sampleEnv "MyPage" "_http._tcp" "" 0 ["path=/"] [] 0
     = (Err "Missing port", [])
  /\ Single.RegisterProxy sampleNet "MyPage" "_http._tcp" "" 8080 "" ["10.0.0.5"]
       ["path=/"] None 0
     = (Err "Missing host name", []).
Proof.
  assert (Hi : "MyPage"%string <> ""%string) by discriminate.
  assert (Hs : "_http._tcp"%string <> ""%string) by discriminate.
  split; [exact Hi|]. split; [exact Hs|].
  destruct (registration_checks sampleEnv sampleNet "MyPage" "_http._tcp" "" 8080 ""
              ["10.0.0.5"] ["path=/"] [] None 0)
    as (_ & _ & _ & H).
  destruct (H Hi) as (_ & _ & _ & H').
  destruct (H' Hs) as (Hh & Hp & _).
  split; [exact Hp|exact Hh].
Defined.

Lemma join_counts (j4 j6 : Interface -> option error) ifaces a b :
  fold_left (fun (counts : nat * nat) iface =>
               let (errCount1, errCount2) := counts in
               let errCount1 :=
                 match j4 iface with Some _ => S errCount1 | None => errCount1 end in
               let errCount2 :=
                 match j6 iface with Some _ => S errCount2 | None => errCount2 end in
               (errCount1, errCount2))
            ifaces (a, b)
  = (a + List.length
           (filter (fun i => match j4 i with Some _ => true | None => false end) ifaces),
     b + List.length
           (filter (fun i => match j6 i with Some _ => true | None => false end) ifaces))%nat.
Proof.
  revert a b. induction ifaces as [|i l IH]; intros a b; simpl.
  - rewrite !Nat.add_0_r. reflexivity.
  - rewrite IH. destruct (j4 i), (j6 i); simpl; f_equal; lia.
Qed.

Lemma Single_newServer_ttl net iface s l :
  Single.newServer net iface = (Ok s, l) -> ttl s = 3200 /\ Service' s = None.
Proof.
  unfold Single.newServer.
  destruct (ListenUDP4 net) as [a|e4], (ListenUDP6 net) as [b|e6]; cbv iota beta zeta;
    try discriminate;
    (destruct iface as [i|];
     [ destruct (JoinGroup net _ i mdnsGroupIPv4); [discriminate|];
       destruct (JoinGroup net _ i mdnsGroupIPv6); [discriminate|]
     | destruct (Interfaces net) as [l0|]; [|discriminate];
       match goal with
       | |- context [fold_left ?f l0 (O, O)] => destruct (fold_left f l0 (O, O)) as [n1 n2]
       end;
       match goal with
       | |- (if ?c then _ else _) = _ -> _ => destruct c; [discriminate|]
       end ]);
    intros H; injection H as <- _; split; reflexivity.
Qed.

Lemma filter_all {X} (f : X -> bool) l :
  List.length l = List.length (filter f l) <-> Forall (fun x => f x = true) l.
Proof.
  induction l as [|x l IH]; simpl.
  - split; auto.
  - pose proof (filter_length_le f l) as Hle. destruct (f x) eqn:E; simpl.
    + split.
      * intros H. constructor; [exact E|]. apply IH. lia.
      * intros H. inversion H; subst. f_equal. apply IH. assumption.
    + split; [lia|]. intros H. inversion H; congruence.
Qed.

(** [newServer] of the single-interface revision.  A socket that cannot
    be bound costs a log line and nothing else, unless both cannot.
    With no interface given, the groups are joined on every interface
    of the system and the server is made as soon as one join, of either
    group on any interface, succeeds: so also when no interface could
    join the IPv4 group, and never on a system without interfaces.  With
    an interface given, both joins must succeed.  The server made has
    no service yet, the sockets that could be bound and a TTL of 3200. *)
Theorem Single_newServer_joins net iface ifaces :
  let c4 := match ListenUDP4 net with Ok c => Some c | Err _ => None end in
  let c6 := match ListenUDP6 net with Ok c => Some c | Err _ => None end in
  let logs :=
    (match ListenUDP4 net with
     | Ok _ => []
     | Err err => [Log ["[ERR] bonjour: Failed to bind to udp4 port: %v"; err]]
     end
     ++ match ListenUDP6 net with
        | Ok _ => []
        | Err err => [Log ["[ERR] bonjour: Failed to bind to udp6 port: %v"; err]]
        end)%list in
  let joined4 i := JoinGroup net c4 i mdnsGroupIPv4 = None in
  let joined6 i := JoinGroup net c6 i mdnsGroupIPv6 = None in
  let made := (Ok (mkServer None c4 c6 false 3200), logs) in
  (c4 = None -> c6 = None ->
   Single.newServer net iface
   = (Err "[ERR] bonjour: Failed to bind to any udp port!", logs))
  /\ (forall s l,
        Single.newServer net iface = (Ok s, l) ->
        (Ok s, l) = made /\ (c4 <> None \/ c6 <> None))
  /\ (c4 <> None \/ c6 <> None ->
      forall i, Single.newServer net (Some i) = made <-> joined4 i /\ joined6 i)
  /\ (c4 <> None \/ c6 <> None -> Interfaces net = Ok ifaces ->
      (Exists (fun i => joined4 i \/ joined6 i) ifaces ->
       Single.newServer net None = made)
      /\ (Forall (fun i => ~ joined4 i /\ ~ joined6 i) ifaces ->
          Single.newServer net None
          = (Err "Failed to join multicast group on all interfaces!", logs))).
Proof.
  intros c4 c6 logs joined4 joined6 made.
  assert (Shape : forall iface0,
             Single.newServer net iface0
             = match c4, c6 with
               | None, None => (Err "[ERR] bonjour: Failed to bind to any udp port!", logs)
               | _, _ =>
                   match iface0 with
                   | Some i =>
                       match JoinGroup net c4 i mdnsGroupIPv4 with
                       | Some err => (Err err, logs)
                       | None =>
                           match JoinGroup net c6 i mdnsGroupIPv6 with
                           | Some err => (Err err, logs)
                           | None => made
                           end
                       end
                   | None =>
                       match Interfaces net with
                       | Err err => (Err err, logs)
                       | Ok l =>
                           if Nat.eqb (List.length l)
                                (List.length
                                   (filter (fun i =>
                                              match JoinGroup net c4 i mdnsGroupIPv4 with
                                              | Some _ => true
                                              | None => false
                                              end) l))
                              && Nat.eqb (List.length l)
                                   (List.length
                                      (filter (fun i =>
                                                 match JoinGroup net c6 i mdnsGroupIPv6 with
                                                 | Some _ => true
                                                 | None => false
                                                 end) l))
                           then (Err "Failed to join multicast group on all interfaces!",
                                 logs)
                           else made
                       end
                   end
               end).
  { intros iface0. unfold Single.newServer. subst made logs c4 c6.
    destruct (ListenUDP4 net) as [a|e4], (ListenUDP6 net) as [b|e6]; cbv iota beta zeta;
      try reflexivity;
      (destruct iface0 as [i|]; [reflexivity|]);
      (destruct (Interfaces net) as [l|err]; [|reflexivity]);
      match goal with
      | |- context [fold_left ?f l (O, O)] =>
          rewrite (join_counts
                     (fun i => JoinGroup net _ i mdnsGroupIPv4)
                     (fun i => JoinGroup net _ i mdnsGroupIPv6) l 0 0)
      end; reflexivity. }
  split; [|split; [|split]].
  - intros H4 H6. rewrite Shape, H4, H6. reflexivity.
  - intros s l. rewrite Shape.
    destruct c4 as [a|] eqn:E4, c6 as [b|] eqn:E6;
      try discriminate;
      (intros H;
       split; [|first [left; discriminate | right; discriminate]];
       destruct iface as [i|];
       [ destruct (JoinGroup net _ i mdnsGroupIPv4); [discriminate|];
         destruct (JoinGroup net _ i mdnsGroupIPv6); [discriminate|];
         symmetry; exact H
       | destruct (Interfaces net) as [l0|]; [|discriminate];
         match type of H with
         | (if ?c then _ else _) = _ => destruct c; [discriminate|symmetry; exact H]
         end ]).
  - intros Hb i. rewrite Shape. unfold joined4, joined6.
    assert (R : match c4, c6 with
                | None, None => False
                | _, _ => True
                end).
    { destruct c4, c6; try exact I. destruct Hb; congruence. }
    destruct c4 as [a|], c6 as [b|]; try contradiction;
      (destruct (JoinGroup net _ i mdnsGroupIPv4) as [e1|];
       [split; [discriminate|intros [H _]; discriminate]|];
       destruct (JoinGroup net _ i mdnsGroupIPv6) as [e2|];
       [split; [discriminate|intros [_ H]; discriminate]|];
       split; auto).
  - intros Hb Hifs.
    assert (E : Single.newServer net None
                = if Nat.eqb (List.length ifaces)
                       (List.length
                          (filter (fun i =>
                                     match JoinGroup net c4 i mdnsGroupIPv4 with
                                     | Some _ => true
                                     | None => false
                                     end) ifaces))
                     && Nat.eqb (List.length ifaces)
                          (List.length
                             (filter (fun i =>
                                        match JoinGroup net c6 i mdnsGroupIPv6 with
                                        | Some _ => true
                                        | None => false
                                        end) ifaces))
                  then (Err "Failed to join multicast group on all interfaces!", logs)
                  else made).
    { rewrite Shape, Hifs. destruct c4, c6; try reflexivity. destruct Hb; congruence. }
    rewrite E. split.
    + intros Hex.
      match goal with
      | |- (if ?c then _ else _) = _ => destruct c eqn:C; [exfalso|reflexivity]
      end.
      apply andb_prop in C. destruct C as [C1 C2].
      apply Nat.eqb_eq in C1, C2. apply filter_all in C1, C2.
      rewrite Forall_forall in C1, C2.
      apply Exists_exists in Hex. destruct Hex as (i & Hin & [H|H]).
      * specialize (C1 i Hin). unfold joined4 in H. rewrite H in C1. discriminate.
      * specialize (C2 i Hin). unfold joined6 in H. rewrite H in C2. discriminate.
    + intros Hall.
      assert (C1 : Forall (fun i => match JoinGroup net c4 i mdnsGroupIPv4 with
                                    | Some _ => true
                                    | None => false
                                    end = true) ifaces).
      { eapply Forall_impl; [|exact Hall]. intros i [H _]. unfold joined4 in H.
        destruct (JoinGroup net c4 i mdnsGroupIPv4); [reflexivity|congruence]. }
      assert (C2 : Forall (fun i => match JoinGroup net c6 i mdnsGroupIPv6 with
                                    | Some _ => true
                                    | None => false
                                    end = true) ifaces).
      { eapply Forall_impl; [|exact Hall]. intros i [_ H]. unfold joined6 in H.
        destruct (JoinGroup net c6 i mdnsGroupIPv6); [reflexivity|congruence]. }
      apply filter_all in C1, C2. apply Nat.eqb_eq in C1, C2. rewrite C1, C2.
      reflexivity.
Qed.

Lemma Single_newServer_joins_witness :
  Single.newServer sampleNet None
  = (Ok (mkServer None (Some (mkUDPConn 3)) None false 3200),
     [Log ["[ERR] bonjour: Failed to bind to udp6 port: %v";
           "address family not supported by protocol"]]).
Proof.
  destruct (Single_newServer_joins sampleNet None
              [mkInterface "eth0"
                 (Ok [IPNet sampleAddr [Byte.xff; Byte.xff; Byte.xff; Byte.x00]]);
               mkInterface "docker0"
                 (Ok [IPNet [Byte.xac; Byte.x11; Byte.x00; Byte.x01]
                            [Byte.xff; Byte.xff; Byte.x00; Byte.x00]])])
    as (_ & _ & _ & H).
  destruct H as [H _]; [left; discriminate|reflexivity|].
  apply H. apply Exists_cons_hd. left. reflexivity.
Defined.

Lemma Single_selectAddr_fold env net l e :
  fold_left (Single.selectAddr env net) l e
  = mkServiceEntry (Rec e) (HostName e) (Port e) (Text e) (TTL e)
      (AddrIPv4 e
       ++ filter (fun ip => negb (IsLoopback env ip) && negb (IsLinkLocalUnicast net ip)
                            && isIPv4 ip) (networkIPs l))
      (AddrIPv6 e
       ++ filter (fun ip => negb (IsLoopback env ip) && negb (IsLinkLocalUnicast net ip)
                            && isIPv6 ip) (networkIPs l)).
Proof.
  revert e. induction l as [|a l IH]; intros e.
  - simpl. rewrite !app_nil_r. destruct e; reflexivity.
  - cbn [fold_left]. destruct a as [ip mask|ip].
    + cbn [networkIPs flat_map app filter]. fold (networkIPs l).
      rewrite IH. unfold Single.selectAddr, isIPv6, isIPv4.
      destruct (negb (IsLoopback env ip) && negb (IsLinkLocalUnicast net ip));
        cbn [andb]; [|reflexivity].
      destruct (To4 ip); cbn [negb andb].
      * simpl. rewrite <- app_assoc. reflexivity.
      * destruct (To16 ip); cbn [negb andb]; [|reflexivity].
        simpl. rewrite <- app_assoc. reflexivity.
    + apply IH.
Qed.

Lemma Single_selectAddrs_spec env net intfs e :
  match Single.selectAddrs env net intfs e with
  | Ok e' =>
      Forall (fun i => exists l, ifAddrs i = Ok l) (notDocker intfs)
      /\ e' = mkServiceEntry (Rec e) (HostName e) (Port e) (Text e) (TTL e)
                (AddrIPv4 e
                 ++ filter (fun ip => negb (IsLoopback env ip)
                                      && negb (IsLinkLocalUnicast net ip) && isIPv4 ip)
                      (networkIPs (interfaceAddrs (notDocker intfs))))
                (AddrIPv6 e
                 ++ filter (fun ip => negb (IsLoopback env ip)
                                      && negb (IsLinkLocalUnicast net ip) && isIPv6 ip)
                      (networkIPs (interfaceAddrs (notDocker intfs))))
  | Err err =>
      exists pre i post,
        notDocker intfs = (pre ++ i :: post)%list
        /\ Forall (fun i => exists l, ifAddrs i = Ok l) pre
        /\ ifAddrs i = Err err
  end.
Proof.
  revert e. induction intfs as [|i l IH]; intros e.
  - simpl. split; [constructor|]. rewrite !app_nil_r. destruct e; reflexivity.
  - cbn [Single.selectAddrs notDocker filter]. fold (notDocker l).
    destruct (HasPrefix (ifName i) "docker"); cbn [negb]; [apply IH|].
    destruct (ifAddrs i) as [addrs|err] eqn:Ei.
    + specialize (IH (fold_left (Single.selectAddr env net) addrs e)).
      destruct (Single.selectAddrs env net l (fold_left (Single.selectAddr env net) addrs e))
        as [e'|err].
      * destruct IH as [HF ->]. split; [constructor; [eauto|exact HF]|].
        rewrite Single_selectAddr_fold.
        cbn [Rec HostName Port Text TTL AddrIPv4 AddrIPv6 interfaceAddrs flat_map].
        fold (interfaceAddrs (notDocker l)). rewrite Ei.
        unfold networkIPs. rewrite flat_map_app. fold (networkIPs addrs).
        fold (networkIPs (interfaceAddrs (notDocker l))).
        rewrite !filter_app, <- !app_assoc. reflexivity.
      * destruct IH as (pre & i0 & post & E & HF & He).
        exists (i :: pre), i0, post. rewrite E. split; [reflexivity|].
        split; [constructor; [eauto|exact HF]|exact He].
    + exists [], i, (notDocker l). split; [reflexivity|]. split; [constructor|exact Ei].
Qed.

Lemma Single_Register_shape env net instance service domain port text h :
  instance <> "" -> service <> "" -> port <> 0 -> Hostname env = Ok h ->
  exists host,
    HasSuffix host "." = true
    /\ forall iface t,
         Single.Register env net instance service domain port text iface t
         = match Interfaces net with
           | Err err => (Err err, [])
           | Ok intfs =>
               match Single.selectAddrs env net intfs
                       (mkServiceEntry
                          (NewServiceRecord instance service
                             (if (domain =? "")%string then "local" else domain))
                          host port text 0 [] []) with
               | Err err => (Err err, [])
               | Ok entry =>
                   match AddrIPv4 entry, AddrIPv6 entry with
                   | [], [] => (Err "Could not determine host IP addresses", [])
                   | _, _ =>
                       match Single.newServer net iface with
                       | (Err err, logs) => (Err err, logs)
                       | (Ok s, logs) =>
                           (Ok (set_Service (if negb (t =? 0) then set_ttl s t else s)
                                  (Some entry)), logs)
                       end
                   end
               end
           end.
Proof.
  intros Hi Hsv Hp Hh.
  apply String.eqb_neq in Hi, Hsv. apply Z.eqb_neq in Hp.
  unfold Single.Register. cbv zeta.
  set (entry0 := set_Text (set_Port (NewServiceEntry instance service domain) port) text).
  change (Instance (Rec entry0)) with instance.
  change (Service (Rec entry0)) with service.
  change (Domain (Rec entry0)) with domain.
  rewrite Hi, Hsv.
  set (dom := if (domain =? "")%string then "local" else domain).
  set (entry1 := if (domain =? "")%string then set_Domain entry0 localDomain else entry0).
  assert (H1 : entry1 = mkServiceEntry (NewServiceRecord instance service dom)
                          "" port text 0 [] []).
  { subst entry1 dom entry0. destruct (domain =? "")%string; reflexivity. }
  clearbody entry1. subst entry1. clear entry0.
  cbn [Port HostName Rec Domain NewServiceRecord]. rewrite Hp.
  change ("" =? "")%string with true. cbv iota. rewrite Hh.
  cbn [HostName set_HostName Rec Domain NewServiceRecord Port Text TTL AddrIPv4 AddrIPv6].
  match goal with
  | |- context [Single.selectAddrs env net _ ?x] => set (entry2 := x)
  end.
  assert (H2 : exists host,
             entry2 = mkServiceEntry (NewServiceRecord instance service dom)
                        host port text 0 [] []
             /\ HasSuffix host "." = true).
  { subst entry2.
    match goal with
    | |- context [if ?c then _ else _] => destruct c
    end; eexists; (split; [reflexivity|]).
    - rewrite <- !append_assoc. apply HasSuffix_append.
    - apply HasSuffix_append. }
  destruct H2 as (host & H2 & Hdot). clearbody entry2. subst entry2.
  exists host. split; [exact Hdot|]. intros iface t. reflexivity.
Qed.

Lemma Single_Register_valid env net instance service domain port text iface t s logs :
  Single.Register env net instance service domain port text iface t = (Ok s, logs) ->
  instance <> "" /\ service <> "" /\ port <> 0 /\ exists h, Hostname env = Ok h.
Proof.
  unfold Single.Register. entry_fields.
  destruct (String.eqb_spec instance "") as [|Hi]; [discriminate|].
  destruct (String.eqb_spec service "") as [|Hsv]; [discriminate|].
  destruct (domain =? "")%string; entry_fields;
    (destruct (Z.eqb_spec port 0) as [|Hp]; [discriminate|]);
    change ("" =? "")%string with true; cbv iota;
    (destruct (Hostname env) as [h|err]; [|discriminate]);
    intros _; eauto.
Qed.

Lemma Single_selectAddrs_unreadable env net intfs e pre i post err :
  notDocker intfs = (pre ++ i :: post)%list ->
  Forall (fun i => exists l, ifAddrs i = Ok l) pre ->
  ifAddrs i = Err err ->
  Single.selectAddrs env net intfs e = Err err.
Proof.
  revert e pre. induction intfs as [|x l IH]; intros e pre Hnd Hpre Herr.
  - destruct pre; discriminate.
  - cbn [Single.selectAddrs]. cbn [notDocker filter] in Hnd. fold (notDocker l) in Hnd.
    destruct (HasPrefix (ifName x) "docker"); cbn [negb] in Hnd.
    + apply (IH e pre Hnd Hpre Herr).
    + destruct pre as [|p pre'].
      * injection Hnd as -> _. rewrite Herr. reflexivity.
      * injection Hnd as -> Hnd. inversion Hpre as [|? ? [l0 Hl0] Hpre']; subst.
        rewrite Hl0. apply (IH _ pre' Hnd Hpre' Herr).
Qed.

(** A successful [Register] of the single-interface revision takes the
    addresses of the service from all the interfaces of the system but
    those of docker, whatever interface it was given to listen on: in
    order, the network addresses that are neither loopback nor
    link-local, the IPv4 ones on one side and the other 16-byte ones on
    the other, at least one in all; the addresses of every interface
    that is not of docker could be read.  An interface, not of docker,
    whose addresses cannot be read makes the registration fail with
    that error, before any socket is opened. *)
Theorem Single_Register_addresses env net instance service domain port text iface t :
  let usable ip := negb (IsLoopback env ip) && negb (IsLinkLocalUnicast net ip) in
  let readable i := exists l, ifAddrs i = Ok l in
  (forall s logs,
     Single.Register env net instance service domain port text iface t = (Ok s, logs) ->
     exists e intfs,
       Service' s = Some e
       /\ Interfaces net = Ok intfs
       /\ Forall readable (notDocker intfs)
       /\ AddrIPv4 e
          = filter (fun ip => usable ip && isIPv4 ip)
              (networkIPs (interfaceAddrs (notDocker intfs)))
       /\ AddrIPv6 e
          = filter (fun ip => usable ip && isIPv6 ip)
              (networkIPs (interfaceAddrs (notDocker intfs)))
       /\ (AddrIPv4 e <> [] \/ AddrIPv6 e <> [])
       /\ HasSuffix (HostName e) "." = true
       /\ (forall iface' t' s' logs',
             Single.Register env net instance service domain port text iface' t'
             = (Ok s', logs') ->
             Service' s' = Some e))
  /\ (forall h intfs pre i post err,
        instance <> "" -> service <> "" -> port <> 0 -> Hostname env = Ok h ->
        Interfaces net = Ok intfs ->
        notDocker intfs = (pre ++ i :: post)%list ->
        Forall readable pre -> ifAddrs i = Err err ->
        Single.Register env net instance service domain port text iface t = (Err err, [])).
Proof.
  intros usable readable. split.
  - intros s logs H.
    destruct (Single_Register_valid _ _ _ _ _ _ _ _ _ _ _ H) as (Hi & Hsv & Hp & h & Hh).
    destruct (Single_Register_shape env net instance service domain port text h
                Hi Hsv Hp Hh) as (host & Hdot & Shape).
    rewrite Shape in H.
    destruct (Interfaces net) as [intfs|err]; [|discriminate].
    match type of H with
    | context [Single.selectAddrs env net intfs ?x] =>
        pose proof (Single_selectAddrs_spec env net intfs x) as Sel;
        destruct (Single.selectAddrs env net intfs x) as [entry|err]; [|discriminate]
    end.
    destruct Sel as [HF He].
    cbn [Rec HostName Port Text TTL AddrIPv4 AddrIPv6 app] in He.
    assert (Keep : forall iface0 t0 s0 logs0,
               match AddrIPv4 entry, AddrIPv6 entry with
               | [], [] => (Err "Could not determine host IP addresses", [])
               | _, _ =>
                   match Single.newServer net iface0 with
                   | (Err err, logs) => (Err err, logs)
                   | (Ok s, logs) =>
                       (Ok (set_Service (if negb (t0 =? 0) then set_ttl s t0 else s)
                              (Some entry)), logs)
                   end
               end = (Ok s0, logs0) ->
               Service' s0 = Some entry /\ (AddrIPv4 entry <> [] \/ AddrIPv6 entry <> [])).
    { intros iface0 t0 s0 logs0 H0.
      assert (Hne : AddrIPv4 entry <> [] \/ AddrIPv6 entry <> []).
      { destruct (AddrIPv4 entry); [|left; discriminate].
        destruct (AddrIPv6 entry); [discriminate|right; discriminate]. }
      split; [|exact Hne].
      assert (H0' : match Single.newServer net iface0 with
                    | (Err err, logs) => (Err err, logs)
                    | (Ok s, logs) =>
                        (Ok (set_Service (if negb (t0 =? 0) then set_ttl s t0 else s)
                               (Some entry)), logs)
                    end = (Ok s0, logs0)).
      { destruct (AddrIPv4 entry); [destruct (AddrIPv6 entry); [discriminate|]|];
          exact H0. }
      destruct (Single.newServer net iface0) as [[s1|err] l1]; [|discriminate].
      injection H0' as <- _. reflexivity. }
    destruct (Keep _ _ _ _ H) as [Hs Hne].
    exists entry, intfs. split; [exact Hs|]. split; [reflexivity|].
    split; [exact HF|].
    split; [rewrite He; reflexivity|]. split; [rewrite He; reflexivity|].
    split; [exact Hne|]. split; [rewrite He; exact Hdot|].
    intros iface' t' s' logs' H'. rewrite Shape in H'.
    exact (proj1 (Keep _ _ _ _ H')).
  - intros h intfs pre i post err Hi Hsv Hp Hh Hintfs Hnd Hpre Herr.
    destruct (Single_Register_shape env net instance service domain port text h
                Hi Hsv Hp Hh) as (host & Hdot & Shape).
    rewrite Shape, Hintfs.
    rewrite (Single_selectAddrs_unreadable env net intfs _ pre i post err Hnd Hpre Herr).
    reflexivity.
Qed.

Lemma Single_Register_addresses_witness :
  exists s logs,
    Single.Register sampleEnv sampleNet "MyPage" "_http._tcp" "" 8080 ["path=/"] None 0
    = (Ok s, logs)
    /\ exists e, Service' s = Some e /\ AddrIPv4 e = [sampleAddr] /\ AddrIPv6 e = [].
Proof.
  eexists _, _. split; [vm_compute; reflexivity|].
  destruct (proj1 (Single_Register_addresses sampleEnv sampleNet "MyPage" "_http._tcp" ""
                     8080 ["path=/"] None 0) _ _ eq_refl)
    as (e & intfs & Hs & Hi & _ & H4 & H6 & _).
  exists e. split; [exact Hs|].
  injection Hi as <-. split; [exact H4|exact H6].
Defined.

Lemma Single_parseAddrs_spec net ips e e' :
  Single.parseAddrs net ips e = Ok e' ->
  exists parsed,
    map (ParseIP net) ips = map Some parsed
    /\ e' = mkServiceEntry (Rec e) (HostName e) (Port e) (Text e) (TTL e)
              (AddrIPv4 e ++ filter isIPv4 parsed)
              (AddrIPv6 e ++ filter isIPv6 parsed).
Proof.
  revert e. induction ips as [|ip l IH]; intros e.
  - simpl. intros H. injection H as <-. exists []. split; [reflexivity|].
    simpl. rewrite !app_nil_r. destruct e; reflexivity.
  - cbn [Single.parseAddrs]. destruct (ParseIP net ip) as [a|] eqn:Ea; [|discriminate].
    destruct (To4 a) as [v4|] eqn:E4.
    + intros H. destruct (IH _ H) as (parsed & Hp & ->).
      exists (a :: parsed). split; [simpl; rewrite Ea, Hp; reflexivity|].
      assert (H4 : isIPv4 a = true) by (unfold isIPv4; rewrite E4; reflexivity).
      assert (H6 : isIPv6 a = false) by (unfold isIPv6; rewrite H4; reflexivity).
      cbn [filter]. rewrite H4, H6.
      simpl. rewrite <- app_assoc. reflexivity.
    + destruct (To16 a) as [v6|] eqn:E6; [|discriminate].
      intros H. destruct (IH _ H) as (parsed & Hp & ->).
      exists (a :: parsed). split; [simpl; rewrite Ea, Hp; reflexivity|].
      assert (H4 : isIPv4 a = false) by (unfold isIPv4; rewrite E4; reflexivity).
      assert (H6 : isIPv6 a = true) by (unfold isIPv6; rewrite H4, E6; reflexivity).
      cbn [filter]. rewrite H4, H6.
      simpl. rewrite <- app_assoc. reflexivity.
Qed.

Lemma Single_parseAddrs_unparsable net ips e pre ip post :
  ips = (pre ++ ip :: post)%list ->
  Forall (fun x => exists a, ParseIP net x = Some a /\ To16 a <> None) pre ->
  ParseIP net ip = None ->
  Single.parseAddrs net ips e = Err ("Failed to parse given IP: " ++ ip).
Proof.
  intros -> Hpre Hip. revert e. induction Hpre as [|x pre (a & Ha & H16) Hpre IH]; intros e.
  - simpl. rewrite Hip. reflexivity.
  - simpl. rewrite Ha. destruct (To4 a); [apply IH|].
    destruct (To16 a); [apply IH|congruence].
Qed.

Lemma Single_RegisterProxy_shape net instance service domain port host ips text iface t :
  instance <> "" -> service <> "" -> host <> "" -> port <> 0 ->
  let dom := if (domain =? "")%string then "local" else domain in
  Single.RegisterProxy net instance service domain port host ips text iface t
  = match Single.parseAddrs net ips
            (mkServiceEntry (NewServiceRecord instance service dom)
               (if HasSuffix (trimDot host) dom then host
                else trimDot host ++ "." ++ trimDot dom ++ ".")
               port text 0 [] []) with
    | Err err => (Err err, [])
    | Ok entry =>
        match Single.newServer net iface with
        | (Err err, logs) => (Err err, logs)
        | (Ok s, logs) =>
            (Ok (set_Service (if negb (t =? 0) then set_ttl s t else s) (Some entry)),
             logs)
        end
    end.
Proof.
  intros Hi Hsv Hh Hp dom.
  apply String.eqb_neq in Hi, Hsv, Hh. apply Z.eqb_neq in Hp.
  unfold Single.RegisterProxy. cbv zeta.
  set (entry0 := set_HostName
                   (set_Text (set_Port (NewServiceEntry instance service domain) port) text)
                   host).
  change (Instance (Rec entry0)) with instance.
  change (Service (Rec entry0)) with service.
  change (Domain (Rec entry0)) with domain.
  change (HostName entry0) with host.
  rewrite Hi, Hsv, Hh.
  set (entry1 := if (domain =? "")%string then set_Domain entry0 localDomain else entry0).
  assert (H1 : entry1 = mkServiceEntry (NewServiceRecord instance service dom)
                          host port text 0 [] []).
  { subst entry1 dom entry0. destruct (domain =? "")%string; reflexivity. }
  clearbody entry1. subst entry1. clear entry0.
  cbn [Port HostName Rec Domain NewServiceRecord]. rewrite Hp.
  destruct (HasSuffix (trimDot host) dom); reflexivity.
Qed.

Lemma Single_RegisterProxy_valid net instance service domain port host ips text iface t
    s logs :
  Single.RegisterProxy net instance service domain port host ips text iface t
  = (Ok s, logs) ->
  instance <> "" /\ service <> "" /\ host <> "" /\ port <> 0.
Proof.
  unfold Single.RegisterProxy. entry_fields.
  destruct (String.eqb_spec instance "") as [|Hi]; [discriminate|].
  destruct (String.eqb_spec service "") as [|Hsv]; [discriminate|].
  destruct (String.eqb_spec host "") as [|Hh]; [discriminate|].
  destruct (domain =? "")%string; entry_fields;
    (destruct (Z.eqb_spec port 0) as [|Hp]; [discriminate|]);
    intros _; auto.
Qed.

(** [RegisterProxy] of the single-interface revision.  On success every
    address given was parsed, and the service holds the parsed
    addresses in the order given, the IPv4 ones on one side and the
    others on the other; a host name that, its outer dots aside, already
    ends with the domain is kept as given.  The first address that does
    not parse makes the registration fail, naming it, before any socket
    is opened.  Unlike [Register], it accepts a service that ends up
    with no address: with no address given it succeeds whenever the
    server can be made. *)
Theorem RegisterProxy_addresses net instance service domain port host ips text iface t :
  let dom := if (domain =? "")%string then "local" else domain in
  (forall s logs,
     Single.RegisterProxy net instance service domain port host ips text iface t
     = (Ok s, logs) ->
     exists e parsed,
       Service' s = Some e
       /\ map (ParseIP net) ips = map Some parsed
       /\ AddrIPv4 e = filter isIPv4 parsed
       /\ AddrIPv6 e = filter isIPv6 parsed
       /\ Rec e = NewServiceRecord instance service dom
       /\ Port e = port /\ Text e = text
       /\ (HasSuffix (trimDot host) dom = true -> HostName e = host)
       /\ ttl s = (if t =? 0 then 3200 else t))
  /\ (instance <> "" -> service <> "" -> host <> "" -> port <> 0 ->
      (forall pre ip post,
         ips = (pre ++ ip :: post)%list ->
         Forall (fun x => exists a, ParseIP net x = Some a /\ To16 a <> None) pre ->
         ParseIP net ip = None ->
         Single.RegisterProxy net instance service domain port host ips text iface t
         = (Err ("Failed to parse given IP: " ++ ip), []))
      /\ (forall s0 logs,
            Single.newServer net iface = (Ok s0, logs) ->
            exists s e,
              Single.RegisterProxy net instance service domain port host [] text iface t
              = (Ok s, logs)
              /\ Service' s = Some e /\ AddrIPv4 e = [] /\ AddrIPv6 e = [])).
Proof.
  intros dom. split.
  - intros s logs H.
    destruct (Single_RegisterProxy_valid _ _ _ _ _ _ _ _ _ _ _ _ H) as (Hi & Hsv & Hh & Hp).
    rewrite (Single_RegisterProxy_shape net instance service domain port host ips text
               iface t Hi Hsv Hh Hp) in H.
    fold dom in H.
    match type of H with
    | context [Single.parseAddrs net ips ?x] =>
        destruct (Single.parseAddrs net ips x) as [entry|err] eqn:Ep; [|discriminate]
    end.
    destruct (Single_parseAddrs_spec _ _ _ _ Ep) as (parsed & Hparsed & He).
    cbn [Rec HostName Port Text TTL AddrIPv4 AddrIPv6 app] in He.
    destruct (Single.newServer net iface) as [[s1|err] l1] eqn:En; [|discriminate].
    destruct (Single_newServer_ttl _ _ _ _ En) as [Ht _].
    injection H as <- _.
    exists entry, parsed. rewrite He.
    split; [reflexivity|]. split; [exact Hparsed|].
    split; [reflexivity|]. split; [reflexivity|].
    split; [reflexivity|]. split; [reflexivity|]. split; [reflexivity|].
    split.
    + intros Hsuf. cbn [HostName]. rewrite Hsuf. reflexivity.
    + destruct (t =? 0); [exact Ht|reflexivity].
  - intros Hi Hsv Hh Hp. split.
    + intros pre ip post Hips Hpre Hip.
      rewrite (Single_RegisterProxy_shape net instance service domain port host ips text
                 iface t Hi Hsv Hh Hp).
      rewrite (Single_parseAddrs_unparsable net ips _ pre ip post Hips Hpre Hip).
      reflexivity.
    + intros s0 logs Hn.
      rewrite (Single_RegisterProxy_shape net instance service domain port host [] text
                 iface t Hi Hsv Hh Hp).
      cbn [Single.parseAddrs]. rewrite Hn.
      eexists _, _. split; [reflexivity|]. split; [reflexivity|].
      split; reflexivity.
Qed.

Lemma RegisterProxy_addresses_witness :
  exists s logs,
    Single.RegisterProxy sampleNet "MyPage" "_http._tcp" "" 8080 "printer.local"
      ["10.0.0.5"; "::1"] ["path=/"] None 0 = (Ok s, logs)
    /\ exists e,
         Service' s = Some e /\ AddrIPv4 e = [sampleAddr]
         /\ AddrIPv6 e = [(repeat Byte.x00 15 ++ [Byte.x01])%list]
         /\ HostName e = "printer.local".
Proof.
  eexists _, _. split; [vm_compute; reflexivity|].
  destruct (proj1 (RegisterProxy_addresses sampleNet "MyPage" "_http._tcp" "" 8080
                     "printer.local" ["10.0.0.5"; "::1"] ["path=/"] None 0) _ _ eq_refl)
    as (e & parsed & Hs & Hp & H4 & H6 & _ & _ & _ & Hh & _).
  exists e. split; [exact Hs|].
  destruct parsed as [|a [|b [|c parsed]]]; try discriminate.
  injection Hp as <- <-.
  split; [exact H4|]. split; [exact H6|]. apply Hh. reflexivity.
Defined.

(** The server [Register] returns has its service set, so nothing the
    responder does on it dereferences nil: every question gets the
    answer of the dispatch on that service, and [probe], [SetText] and
    [shutdown] run to their end, in any state of the world. *)
Theorem registered_server_runs env instance service domain port text ifaces t s logs :
  Multi.Register env instance service domain port text ifaces t = (Ok s, logs) ->
  exists e,
    Service' s = Some e
    /\ (forall env' tr q resp,
          exists st',
            Multi.handleQuestion q resp env' (mkState s tr)
            = Some ((answerMulti e (ttl s) q resp, None), st')
            /\ trace st' = tr)
    /\ (forall env' tr,
          exists st' evs,
            Multi.probe env' (mkState s tr) = Some (tt, st')
            /\ trace st' = (tr ++ evs)%list)
    /\ (forall env' tr text',
          exists st', SetText text' env' (mkState s tr) = Some (tt, st'))
    /\ (forall env' tr,
          exists st', Multi.shutdown env' (mkState s tr) = Some (None, st')).
Proof.
  intros H.
  destruct (Register_service _ _ _ _ _ _ _ _ _ _ H) as (e & Hs & _ & Hc).
  exists e. split; [exact Hs|].
  assert (Hb : forall tr, Service' (blankServer (this (mkState s tr))) = Some (blankEntry e)).
  { intros tr. apply blank_service. exact Hs. }
  split; [|split; [|split]].
  - intros env' tr q resp.
    exact (run_yields env' (mkState s tr) e _ _ Hs Hc
             (Multi_handleQuestion_spec env' _ _ (Hb tr) q resp)).
  - intros env' tr.
    destruct (run env' (mkState s tr) e _ _ Hs Hc (Multi_probe_spec env' _ _ (Hb tr)))
      as ([] & st' & evs & E & T & _ & Hev).
    exists st', evs. split; [exact E|exact T].
  - intros env' tr text'.
    destruct (run env' (mkState s tr) e _ _ Hs Hc (SetText_spec env' _ _ text' (Hb tr)))
      as ([] & st' & evs & E & _).
    exists st'. exact E.
  - intros env' tr.
    destruct (shuttingDown s) eqn:Hd.
    + exists (mkState s tr). apply shutdownWith_again. exact Hd.
    + destruct (run env' (mkState s tr) e _ _ Hs Hc
                  (Multi_shutdown_spec env' (mkState s tr) e Hs Hd))
        as (err & st' & evs & E & _ & -> & _).
      exists st'. exact E.
Qed.

Lemma registered_server_runs_witness :
  exists s,
    Multi.Register sampleEnv "MyPage" "_http._tcp" "" 8080 ["path=/"] [] 0 = (Ok s, [])
    /\ exists st', Multi.shutdown failingEnv (mkState s []) = Some (None, st').
Proof.
  eexists. split; [vm_compute; reflexivity|].
  destruct (registered_server_runs sampleEnv "MyPage" "_http._tcp" "" 8080 ["path=/"] [] 0
              _ _ eq_refl)
    as (e & _ & _ & _ & _ & H).
  exact (H failingEnv []).
Defined.

Lemma appends_only_refl resp :
  exists a x,
    Answer resp = (Answer resp ++ a)%list /\ Extra resp = (Extra resp ++ x)%list
    /\ (a = [] -> x = [] /\ resp = resp).
Proof. exists [], []. rewrite !app_nil_r. auto. Qed.

(** Answering a question only ever appends to the reply: the records
    already in its Answer and Additional sections stay where they are,
    its header, question and authority sections are not touched, and
    nothing is added to the Additional section unless something is
    added to the Answer section, the one that decides whether the reply
    is sent. *)
Theorem answers_only_append env st e q resp :
  Service' (this st) = Some e -> coherent (Rec e) = true ->
  let appended (resp' : Msg) :=
    (exists a x,
       Answer resp' = (Answer resp ++ a)%list /\ Extra resp' = (Extra resp ++ x)%list
       /\ (a = [] -> x = [] /\ resp' = resp))
    /\ Id resp' = Id resp /\ Response resp' = Response resp
    /\ RecursionDesired resp' = RecursionDesired resp
    /\ Questions resp' = Questions resp /\ Ns resp' = Ns resp in
  (exists resp' st',
     Multi.handleQuestion q resp env st = Some ((resp', None), st') /\ appended resp')
  /\ (exists resp' st',
        Single.handleQuestion q resp env st = Some ((resp', None), st') /\ appended resp').
Proof.
  intros Hs Hc appended.
  pose proof (blank_service _ _ Hs) as Hb.
  split.
  - destruct (run_yields env st e _ _ Hs Hc (Multi_handleQuestion_spec env _ _ Hb q resp))
      as (st' & E & _).
    eexists _, st'. split; [exact E|].
    unfold appended, answerMulti.
    repeat match goal with
           | |- context [if ?c then _ else _] => destruct c
           end;
      (split; [|repeat split]);
      try apply appends_only_refl;
      unfold browsingAnswers, lookupAnswersMulti, typeAnswers, appendAnswer, appendExtra;
      cbn [Answer Extra set_Answer set_Extra];
      eexists _, _; (split; [reflexivity|]);
      (split; [try reflexivity; symmetry; apply app_nil_r|]); discriminate.
  - destruct (run_yields env st e _ _ Hs Hc (Single_handleQuestion_spec env _ _ Hb q resp))
      as (st' & E & _).
    eexists _, st'. split; [exact E|].
    unfold appended, answerSingle.
    repeat match goal with
           | |- context [if ?c then _ else _] => destruct c
           end;
      (split; [|repeat split]);
      try apply appends_only_refl;
      unfold browsingAnswers, lookupAnswersSingle, typeAnswers, appendAnswer, appendExtra;
      cbn [Answer Extra set_Answer set_Extra];
      eexists _, _; (split; [reflexivity|]);
      (split; [try reflexivity; symmetry; apply app_nil_r|]); discriminate.
Qed.

Lemma answers_only_append_witness :
  Service' (this sampleState) = Some sampleEntry
  /\ coherent (Rec sampleEntry) = true
  /\ exists resp' st',
       Multi.handleQuestion (mkQuestion "_http._tcp.local." TypePTR 1) emptyResponse
         sampleEnv sampleState = Some ((resp', None), st')
       /\ Ns resp' = Ns emptyResponse.
Proof.
  split; [reflexivity|]. split; [reflexivity|].
  destruct (proj1 (answers_only_append sampleEnv sampleState sampleEntry
                     (mkQuestion "_http._tcp.local." TypePTR 1) emptyResponse
                     eq_refl eq_refl))
    as (resp' & st' & E & _ & _ & _ & _ & _ & H).
  exists resp', st'. split; [exact E|exact H].
Defined.
